(** * Inventory synchronisation scripts: A2Z_Dimm_Pull.py and Lenovo_Redfish.py

    A shallow embedding of the two scripts and the properties their
    specification states about them.

    Python values are modelled as follows.  A [str] is a [string] of ASCII
    characters (a character code above 127 counts as neither a letter nor
    whitespace); a [list] is a [list]; the insert log, a dict keyed by table
    names, is a [gmap]; a JSON document is a [pyval]; a raised exception is
    the [Raise] branch of [result].  The first half of the file holds the
    definitions, the second half the lemmas. *)

From Stdlib Require Import ZArith Ascii String List Lia Bool.
From Stdlib Require Import DecimalString.
From Stdlib Require DecimalNat DecimalFacts.
From stdpp Require Import base option list strings gmap.

Import ListNotations.
Local Open Scope Z_scope.

(* ================================================================== *)
(** * Part I: definitions *)
(* ================================================================== *)

(** ** Exceptions *)

Inductive exn : Type :=
| SystemExit (code : option Z)     (* sys.exit() / sys.exit(1) *)
| KeyError (key : string)
| AttributeError (what : string)
| TypeError (what : string)
| IndexError
| RequestException                 (* raised by requests.get itself *)
| PsycopgError.                    (* psycopg.Error *)

Inductive result (A : Type) : Type :=
| Ok (a : A)
| Raise (e : exn).
Arguments Ok {A} a.
Arguments Raise {A} e.

Global Instance result_ret : MRet result := fun A a => Ok a.

Global Instance result_bind : MBind result := fun A B k m =>
  match m with
  | Ok a => k a
  | Raise e => Raise e
  end.

(** ** Python strings *)

(** [str.isspace] on ASCII. *)
Definition isspace (c : ascii) : bool :=
  let n := nat_of_ascii c in
  (((9 <=? n) && (n <=? 13)) || ((28 <=? n) && (n <=? 32)))%nat.

(** [c.lower()] and [c.upper()] on ASCII. *)
Definition lower_char (c : ascii) : ascii :=
  let n := nat_of_ascii c in
  if ((65 <=? n) && (n <=? 90))%nat then ascii_of_nat (n + 32) else c.

Definition upper_char (c : ascii) : ascii :=
  let n := nat_of_ascii c in
  if ((97 <=? n) && (n <=? 122))%nat then ascii_of_nat (n - 32) else c.

Fixpoint map_string (f : ascii -> ascii) (s : string) : string :=
  match s with
  | EmptyString => EmptyString
  | String c r => String (f c) (map_string f r)
  end.

Definition lower (s : string) : string := map_string lower_char s.
Definition upper (s : string) : string := map_string upper_char s.

(** [needle in hay] for two strings. *)
Fixpoint str_contains (needle hay : string) : bool :=
  String.prefix needle hay
  || match hay with
     | EmptyString => false
     | String _ r => str_contains needle r
     end.

(** [str(n)] for a non-negative int. *)
Definition str_of_nat (n : nat) : string :=
  NilZero.string_of_uint (Nat.to_uint n).

Fixpoint lstrip (s : string) : string :=
  match s with
  | EmptyString => EmptyString
  | String c r => if isspace c then lstrip r else s
  end.

Fixpoint rstrip (s : string) : string :=
  match s with
  | EmptyString => EmptyString
  | String c r =>
      match rstrip r with
      | EmptyString => if isspace c then EmptyString else String c EmptyString
      | r' => String c r'
      end
  end.

(** [s.strip()] *)
Definition strip (s : string) : string := rstrip (lstrip s).

(** Truth value of a string: [if s:] *)
Definition truthy (s : string) : bool :=
  match s with EmptyString => false | _ => true end.

(** The first (last) character exists and is not whitespace. *)
Definition starts_nonspace (s : string) : bool :=
  match s with
  | EmptyString => false
  | String c _ => negb (isspace c)
  end.

Fixpoint ends_nonspace (s : string) : bool :=
  match s with
  | EmptyString => false
  | String c EmptyString => negb (isspace c)
  | String _ r => ends_nonspace r
  end.

(** [re.split(r"\s{2,}", s)]: [cur] is the piece being read, [pend] the run
    of whitespace seen after it.  A run of two or more ends the piece; a
    single whitespace character stays inside it. *)
Fixpoint split_ws2 (cur pend s : string) : list string :=
  match s with
  | EmptyString =>
      if (2 <=? String.length pend)%nat then [cur; EmptyString]
      else [cur +:+ pend]
  | String c r =>
      if isspace c then split_ws2 cur (pend +:+ String c EmptyString) r
      else if (2 <=? String.length pend)%nat
           then cur :: split_ws2 (String c EmptyString) EmptyString r
           else split_ws2 (cur +:+ pend +:+ String c EmptyString) EmptyString r
  end.

Definition re_split_ws2 (s : string) : list string :=
  split_ws2 EmptyString EmptyString s.

(** [s.split()]: pieces between runs of whitespace, no empty piece. *)
Fixpoint split_go (cur s : string) : list string :=
  match s with
  | EmptyString => if truthy cur then [cur] else []
  | String c r =>
      if isspace c
      then (if truthy cur then cur :: split_go EmptyString r
            else split_go EmptyString r)
      else split_go (cur +:+ String c EmptyString) r
  end.

Definition py_split (s : string) : list string := split_go EmptyString s.

(** [s.split(sep)] for a one-character separator: always at least one piece. *)
Fixpoint split_on_go (sep : ascii) (cur s : string) : list string :=
  match s with
  | EmptyString => [cur]
  | String c r =>
      if Ascii.eqb c sep then cur :: split_on_go sep EmptyString r
      else split_on_go sep (cur +:+ String c EmptyString) r
  end.

Definition split_on (sep : ascii) (s : string) : list string :=
  split_on_go sep EmptyString s.

(** [re.sub(c, repl, s)] for a pattern that is one literal character. *)
Fixpoint re_sub_char (c : ascii) (repl s : string) : string :=
  match s with
  | EmptyString => EmptyString
  | String x r =>
      if Ascii.eqb x c then repl +:+ re_sub_char c repl r
      else String x (re_sub_char c repl r)
  end.

(** [l[i]] *)
Definition py_index {A} (l : list A) (i : nat) : result A :=
  match l !! i with
  | Some x => Ok x
  | None => Raise IndexError
  end.

(** Number of occurrences of a character. *)
Fixpoint count_char (c : ascii) (s : string) : nat :=
  match s with
  | EmptyString => 0%nat
  | String x r => ((if Ascii.eqb x c then 1 else 0) + count_char c r)%nat
  end.

(** The characters of [s] other than [c], in order. *)
Fixpoint without_char (c : ascii) (s : string) : string :=
  match s with
  | EmptyString => EmptyString
  | String x r =>
      if Ascii.eqb x c then without_char c r else String x (without_char c r)
  end.

(* ------------------------------------------------------------------ *)
(** ** A2Z_Dimm_Pull.py *)
(* ------------------------------------------------------------------ *)

(** [cleaned_sql_list]: every row of the query is a 1-tuple holding the
    system serial. *)
Definition clean_serial (element0 : string) : string :=
  re_sub_char "*" EmptyString element0.

Definition cleaned_sql_list (sql_list : list string) : list string :=
  map clean_serial sql_list.

(** [serial_list = list(sum(cleaned_sql_list, ()))] concatenates the
    1-tuples. *)
Definition serial_list (sql_list : list string) : list string :=
  concat (map (fun element => [element]) (cleaned_sql_list sql_list)).

Definition directory_path (system_serial : string) : string :=
  "//10.246.0.110/pbsv4/pbs_logs/" +:+ system_serial.

(** The [data] dict: four columns that grow together. *)
Record dimm_data : Type := mk_dimm_data {
  System_Serial : list string;
  DIMM_Serial : list string;
  DIMM_Manufacturer : list string;
  DIMM_Part_Number : list string
}.

Definition empty_data : dimm_data := mk_dimm_data [] [] [] [].

(** The list comprehension that builds [columns]. *)
Definition columns_of (line : string) : list string :=
  filter (fun col => (5 < String.length col)%nat) (re_split_ws2 (strip line)).

(** Body of [for line in lines[1:]]. *)
Definition process_line (system_serial line : string) (data : dimm_data)
  : result dimm_data :=
  if truthy (strip line) then
    let columns := columns_of line in
    if (6 <=? length columns)%nat then
      c4 ← py_index columns 4;
      c2 ← py_index columns 2;
      c3 ← py_index columns 3;
      Ok {| System_Serial := System_Serial data ++ [system_serial];
            DIMM_Serial := DIMM_Serial data ++ [strip c4];
            DIMM_Manufacturer := DIMM_Manufacturer data ++ [strip c2];
            DIMM_Part_Number := DIMM_Part_Number data ++ [strip c3] |}
    else Ok data
  else Ok data.

Fixpoint process_lines (system_serial : string) (lines : list string)
  (data : dimm_data) : result dimm_data :=
  match lines with
  | [] => Ok data
  | line :: rest =>
      data' ← process_line system_serial line data;
      process_lines system_serial rest data'
  end.

(** [lines = dimm_contents.split("\n")] then [for line in lines[1:]]. *)
Definition process_file (system_serial dimm_contents : string)
  (data : dimm_data) : result dimm_data :=
  let lines := split_on "010" dimm_contents in
  process_lines system_serial (tail lines) data.

(* ------------------------------------------------------------------ *)
(** ** Lenovo_Redfish.py: JSON values and the Python operations on them *)
(* ------------------------------------------------------------------ *)

(** What [response.json()] can return.  No operation of the script looks
    inside a number. *)
#[local] Unset Elimination Schemes.
Inductive pyval : Type :=
| PNone
| PBool (b : bool)
| PInt (z : Z)
| PStr (s : string)
| PList (items : list pyval)
| PDict (kvs : list (string * pyval)).
#[local] Set Elimination Schemes.

(** The default [''] of the [get] calls. *)
Definition empty_str : pyval := PStr EmptyString.

(** Lookup in a dict given as its list of items. *)
Fixpoint assoc {V} (key : string) (kvs : list (string * V)) : option V :=
  match kvs with
  | [] => None
  | (k, v) :: rest => if String.eqb k key then Some v else assoc key rest
  end.

(** [d[key]] on a dict of the script: [KeyError] when the key is missing. *)
Definition dict_item (d : list (string * string)) (key : string)
  : result string :=
  match assoc key d with
  | Some v => Ok v
  | None => Raise (KeyError key)
  end.

(** [d.get(key, default)]: only a dict has the method. *)
Definition dict_get (d : pyval) (key : string) (default : pyval)
  : result pyval :=
  match d with
  | PDict kvs =>
      match assoc key kvs with
      | Some v => Ok v
      | None => Ok default
      end
  | _ => Raise (AttributeError "get")
  end.

(** [len(v)] *)
Definition py_len (v : pyval) : result nat :=
  match v with
  | PStr s => Ok (String.length s)
  | PList items => Ok (length items)
  | PDict kvs => Ok (length kvs)
  | _ => Raise (TypeError "len")
  end.

Fixpoint chars (s : string) : list pyval :=
  match s with
  | EmptyString => []
  | String c r => PStr (String c EmptyString) :: chars r
  end.

(** The values [for x in v] goes through. *)
Definition py_iter (v : pyval) : result (list pyval) :=
  match v with
  | PStr s => Ok (chars s)
  | PList items => Ok items
  | PDict kvs => Ok (map (fun kv => PStr (fst kv)) kvs)
  | _ => Raise (TypeError "iter")
  end.

(** [base + v] with [base] a string. *)
Definition str_add (base : string) (v : pyval) : result string :=
  match v with
  | PStr s => Ok (base +:+ s)
  | _ => Raise (TypeError "concatenate")
  end.

Definition is_str (s : string) (v : pyval) : bool :=
  match v with
  | PStr s' => String.eqb s' s
  | _ => false
  end.

(** [needle in v] with [needle] a string. *)
Definition py_in (needle : string) (v : pyval) : result bool :=
  match v with
  | PStr s => Ok (str_contains needle s)
  | PList items => Ok (existsb (is_str needle) items)
  | PDict kvs => Ok (existsb (fun kv => String.eqb (fst kv) needle) kvs)
  | _ => Raise (TypeError "in")
  end.

(** [v is None] *)
Definition is_None (v : pyval) : bool :=
  match v with
  | PNone => true
  | _ => false
  end.

(** [v.lower()] and [v.upper()]: only a string has the methods. *)
Definition py_lower (v : pyval) : result string :=
  match v with
  | PStr s => Ok (lower s)
  | _ => Raise (AttributeError "lower")
  end.

Definition py_upper (v : pyval) : result string :=
  match v with
  | PStr s => Ok (upper s)
  | _ => Raise (AttributeError "upper")
  end.

(** A [for] loop whose body can raise: [f x acc] is one pass. *)
Fixpoint for_each {A S} (f : A -> S -> result S) (l : list A) (acc : S)
  : result S :=
  match l with
  | [] => Ok acc
  | x :: rest => acc' ← f x acc; for_each f rest acc'
  end.

(* ------------------------------------------------------------------ *)
(** ** Lenovo_Redfish.py: lookup tables *)
(* ------------------------------------------------------------------ *)

Definition MANUFACTURER_DICT : list (string * string) :=
  [ ("ixsystems", "ix systems");
    ("lenovo", "lenovo");
    ("intel(r) corporation", "intel");
    ("samsung", "samsung");
    ("micron", "micron");
    ("micron technology", "micron");
    ("acbe", "acbel");
    ("grea", "great wall");
    ("mellanox technologies", "mellanox technologies");
    ("sk hynix", "sk hynix korea");
    ("hynix", "hynix");
    ("broadcom", "broadcom");
    ("broadcom limited", "broadcom") ].

Definition TYPE_DICT : list (string * string) :=
  [ ("cpu", "cpu");
    ("memory", "memory");
    ("nic", "nic");
    ("ssd", "ssd m.2");
    ("psu", "power supply");
    ("motherboard", "motherboard");
    ("password", "unique password") ].

(* ------------------------------------------------------------------ *)
(** ** Lenovo_Redfish.py: the component bundle *)
(* ------------------------------------------------------------------ *)

(** [{'manufacturer': .., 'model': .., 'serial': ..}]; the values are what
    [body.get] returned. *)
Record part_info : Type := mk_part_info {
  manufacturer : pyval;
  model : pyval;
  serial : pyval
}.

(** [{'name': .., 'mac': ..}] *)
Record mac_info : Type := mk_mac_info {
  name : string;
  mac_value : pyval
}.

Record components : Type := mk_components {
  motherboard : part_info;
  cpu : list part_info;
  memory : list part_info;
  psu : list part_info;
  ssd : list part_info;
  nic : list part_info;
  mac : list mac_info
}.

(* ------------------------------------------------------------------ *)
(** ** Lenovo_Redfish.py: the Redfish reader *)
(* ------------------------------------------------------------------ *)

(** What the script reads of a [requests.Response]: [ok], and [json()],
    which is [None] here when the body does not decode. *)
Record response : Type := mk_response {
  ok : bool;
  json : option pyval
}.

Section Redfish.

(** [requests.get(url, headers=headers, verify=False)]: the answer of the
    management controller, or an exception of [requests] when there is no
    answer. *)
Variable requests_get : string -> result response.

Definition get_http_response_body (url : string) : result pyval :=
  response ← requests_get url;
  if ok response then
    match json response with
    | Some body => Ok body
    | None => Ok (PDict [])
    end
  else Ok (PDict []).

(** One pass of [for drive in drive_list]. *)
Definition ssd_step (base_url : string) (drive : pyval)
  (acc : list part_info) : result (list part_info) :=
  drive_link ← dict_get drive "@odata.id" empty_str;
  url ← str_add base_url drive_link;
  body ← get_http_response_body url;
  ssd_manufacturer ← dict_get body "Manufacturer" empty_str;
  ssd_model ← dict_get body "Model" empty_str;
  ssd_serial ← dict_get body "SerialNumber" empty_str;
  Ok (acc ++ [mk_part_info ssd_manufacturer ssd_model ssd_serial]).

(** One pass of [for cpu in cpu_list]. *)
Definition cpu_step (base_url : string) (cpu : pyval)
  (acc : list part_info) : result (list part_info) :=
  processor_link ← dict_get cpu "@odata.id" empty_str;
  url ← str_add base_url processor_link;
  body ← get_http_response_body url;
  cpu_manufacturer ← dict_get body "Manufacturer" empty_str;
  cpu_model ← dict_get body "Model" empty_str;
  processor_id ← dict_get body "ProcessorId" (PDict []);
  cpu_serial ←
    dict_get processor_id "ProtectedIdentificationNumber" empty_str;
  Ok (acc ++ [mk_part_info cpu_manufacturer cpu_model cpu_serial]).

(** What one memory body adds to [components['memory']]. *)
Definition memory_record (body : pyval) (acc : list part_info)
  : result (list part_info) :=
  memory_manufacturer ← dict_get body "Manufacturer" empty_str;
  memory_model ← dict_get body "PartNumber" empty_str;
  memory_serial ← dict_get body "SerialNumber" empty_str;
  if is_None memory_model && is_None memory_serial then Ok acc
  else Ok (acc ++
             [mk_part_info memory_manufacturer memory_model memory_serial]).

(** One pass of [for memory in memory_list]. *)
Definition memory_step (base_url : string) (memory : pyval)
  (acc : list part_info) : result (list part_info) :=
  memory_link ← dict_get memory "@odata.id" empty_str;
  url ← str_add base_url memory_link;
  body ← get_http_response_body url;
  memory_record body acc.

(** One pass of [for psu_body in psu_list]. *)
Definition psu_step (psu_body : pyval) (acc : list part_info)
  : result (list part_info) :=
  psu_manufacturer ← dict_get psu_body "Manufacturer" empty_str;
  psu_model ← dict_get psu_body "PartNumber" empty_str;
  psu_serial ← dict_get psu_body "SerialNumber" empty_str;
  Ok (acc ++ [mk_part_info psu_manufacturer psu_model psu_serial]).

(** One pass of [for nic in nic_list]. *)
Definition nic_step (base_url : string) (nic : pyval)
  (acc : list part_info) : result (list part_info) :=
  nic_link ← dict_get nic "@odata.id" empty_str;
  url ← str_add base_url nic_link;
  body ← get_http_response_body url;
  nic_manufacturer ← dict_get body "Manufacturer" empty_str;
  nic_model ← dict_get body "Model" empty_str;
  nic_serial ← dict_get body "SerialNumber" empty_str;
  Ok (acc ++ [mk_part_info nic_manufacturer nic_model nic_serial]).

Definition nic_mac_name (nic_number : nat) : string :=
  "NIC " +:+ str_of_nat nic_number +:+ " MAC".

(** One pass of [for mac in mac_list]; the state is [nic_number] and
    [components['mac']]. *)
Definition mac_step (base_url : string) (mac : pyval)
  (st : nat * list mac_info) : result (nat * list mac_info) :=
  let (nic_number, macs) := st in
  mac_link ← dict_get mac "@odata.id" empty_str;
  found ← py_in "NIC" mac_link;
  if negb found then Ok (nic_number, macs)
  else
    url ← str_add base_url mac_link;
    body ← get_http_response_body url;
    mac_address ← dict_get body "PermanentMACAddress" empty_str;
    Ok (S nic_number,
        macs ++ [mk_mac_info (nic_mac_name nic_number) mac_address]).

(** [if len(l) == 0: print(..) else: for x in l: ..] *)
Definition loop_unless_empty {S} (l : pyval)
  (step : pyval -> S -> result S) (acc : S) : result S :=
  n ← py_len l;
  if (n =? 0)%nat then Ok acc
  else items ← py_iter l; for_each step items acc.

Definition ssd_block (base_url : string) (body : pyval)
  : result (list part_info) :=
  links ← dict_get body "Links" (PDict []);
  drive_list ← dict_get links "Drives" (PList []);
  loop_unless_empty drive_list (ssd_step base_url) [].

Definition cpu_block (base_url : string) : result (list part_info) :=
  body ← get_http_response_body
           (base_url +:+ "/redfish/v1/Systems/1/Processors");
  cpu_list ← dict_get body "Members" (PList []);
  loop_unless_empty cpu_list (cpu_step base_url) [].

Definition memory_block (base_url : string) : result (list part_info) :=
  body ← get_http_response_body
           (base_url +:+ "/redfish/v1/Systems/1/Memory");
  memory_list ← dict_get body "Members" (PList []);
  loop_unless_empty memory_list (memory_step base_url) [].

Definition psu_block (base_url : string) : result (list part_info) :=
  body ← get_http_response_body
           (base_url +:+ "/redfish/v1/Chassis/1/Power");
  psu_list ← dict_get body "PowerSupplies" (PList []);
  loop_unless_empty psu_list psu_step [].

Definition nic_block (base_url : string) : result (list part_info) :=
  body ← get_http_response_body
           (base_url +:+ "/redfish/v1/Chassis/1/NetworkAdapters");
  nic_list ← dict_get body "Members" (PList []);
  loop_unless_empty nic_list (nic_step base_url) [].

Definition nic_mac_block (base_url : string) : result (list mac_info) :=
  body ← get_http_response_body
           (base_url +:+ "/redfish/v1/Systems/1/EthernetInterfaces");
  mac_list ← dict_get body "Members" (PList []);
  st ← loop_unless_empty mac_list (mac_step base_url) (1%nat, []);
  Ok (snd st).

Definition bmc_mac_block (base_url : string) (macs : list mac_info)
  : result (list mac_info) :=
  body ← get_http_response_body
           (base_url +:+ "/redfish/v1/Managers/1/EthernetInterfaces/NIC");
  mac_address ← dict_get body "PermanentMACAddress" empty_str;
  Ok (macs ++ [mk_mac_info "IPMI 1 MAC" mac_address]).

Definition parse_system_components (ip : string) : result components :=
  let base_url := "https://" +:+ ip in
  body ← get_http_response_body (base_url +:+ "/redfish/v1/Chassis/1");
  motherboard_model ← dict_get body "SKU" empty_str;
  oem ← dict_get body "Oem" (PDict []);
  lenovo ← dict_get oem "Lenovo" (PDict []);
  motherboard_serial ←
    dict_get lenovo "SystemBoardSerialNumber" empty_str;
  ssds ← ssd_block base_url body;
  cpus ← cpu_block base_url;
  memories ← memory_block base_url;
  psus ← psu_block base_url;
  nics ← nic_block base_url;
  nic_macs ← nic_mac_block base_url;
  macs ← bmc_mac_block base_url nic_macs;
  Ok {| motherboard :=
          mk_part_info (PStr "Lenovo") motherboard_model motherboard_serial;
        cpu := cpus; memory := memories; psu := psus; ssd := ssds;
        nic := nics; mac := macs |}.

End Redfish.

(* ------------------------------------------------------------------ *)
(** ** Lenovo_Redfish.py: reading KEY.txt *)
(* ------------------------------------------------------------------ *)

(** [len(line) > 0 and line[0] == '#'] *)
Definition is_comment (line : string) : bool :=
  match line with
  | EmptyString => false
  | String c _ => Ascii.eqb c "#"
  end.

(** [for line in input_file]: [lines] are the lines as the file object
    yields them, each with its line end. *)
Fixpoint parse_input_file (lines : list string)
  (ip_list ix_serial_list : list string)
  : result (list string * list string) :=
  match lines with
  | [] => Ok (ip_list, ix_serial_list)
  | line :: rest =>
      if is_comment line then parse_input_file rest ip_list ix_serial_list
      else
        let tokens := py_split (strip line) in
        if negb (length tokens =? 2)%nat then Raise (SystemExit (Some 1))
        else
          ip ← py_index tokens 0;
          ix_serial ← py_index tokens 1;
          parse_input_file rest (ip_list ++ [ip])
            (ix_serial_list ++ [ix_serial])
  end.

(* ------------------------------------------------------------------ *)
Lemma result_bind_ok {A B} (m : result A) (k : A -> result B) (b : B) :
  m ≫= k = Ok b -> exists a, m = Ok a /\ k a = Ok b.
Proof. destruct m as [a|e]; [| done]. intros H. by exists a. Qed.

(** The memory and MAC lists of a bundle are what the memory block and the
    two MAC blocks gave: the NIC addresses first, the address of the
    management controller last. *)
Lemma parse_system_components_lists
  (requests_get : string -> result response) (ip : string) (c : components) :
  parse_system_components requests_get ip = Ok c ->
  memory_block requests_get ("https://" +:+ ip) = Ok (memory c)
  /\ exists nic_list address,
       nic_mac_block requests_get ("https://" +:+ ip) = Ok nic_list
       /\ mac c = nic_list ++ [mk_mac_info "IPMI 1 MAC" address].
Proof.
  intros H. unfold parse_system_components in H.
  apply result_bind_ok in H as (body & _ & H).
  apply result_bind_ok in H as (mb_model & _ & H).
  apply result_bind_ok in H as (oem & _ & H).
  apply result_bind_ok in H as (lenovo & _ & H).
  apply result_bind_ok in H as (mb_serial & _ & H).
  apply result_bind_ok in H as (ssds & _ & H).
  apply result_bind_ok in H as (cpus & _ & H).
  apply result_bind_ok in H as (memories & Hmem & H).
  apply result_bind_ok in H as (psus & _ & H).
  apply result_bind_ok in H as (nics & _ & H).
  apply result_bind_ok in H as (nic_list & Hnic & H).
  apply result_bind_ok in H as (macs & Hbmc & H).
  injection H as <-. cbn [memory mac]. split; [exact Hmem |].
  unfold bmc_mac_block in Hbmc.
  apply result_bind_ok in Hbmc as (bmc_body & _ & Hbmc).
  apply result_bind_ok in Hbmc as (address & _ & Hbmc).
  injection Hbmc as <-. by exists nic_list, address.
Qed.

(** ** Lenovo_Redfish.py: the STD database *)
(* ------------------------------------------------------------------ *)

Record system_row : Type := mk_system_row {
  system_col_id : Z;
  system_col_serial : string
}.

(** A row of [production_manufacturer] or of [production_type]. *)
Record named_row : Type := mk_named_row {
  named_id : Z;
  lower_name : string
}.

Record part_row : Type := mk_part_row {
  col_id : Z;
  col_system_id : Z;
  col_serial : string;
  col_model : string;
  col_type_id : Z;
  col_manufacturer_id : Z;
  col_intel_sa_number : string;
  col_support_number : string;
  col_rma : bool;
  col_revision : string;
  col_part_revision : string
}.

Record mac_row : Type := mk_mac_row {
  mac_col_id : Z;
  mac_col_system_id : Z;
  mac_col_name : string;
  mac_col_mac : string
}.

Record tables : Type := mk_tables {
  production_system : list system_row;
  production_manufacturer : list named_row;
  production_type : list named_row;
  production_part : list part_row;
  production_mac : list mac_row
}.

(** The statements the script sends, with their parameters. *)
Inductive statement : Type :=
| SelectSystem (system_serial : string)
| SelectManufacturer (manufacturer_name : string)
| SelectType (part_type_name : string)
| SelectPart (system_id : Z) (part_model part_serial : pyval)
| InsertPart (system_id : Z) (part_serial part_model : pyval)
    (type_id manufacturer_id : Z) (intel_sa_number support_number : string)
    (rma : bool) (revision part_revision : string)
| SelectMac (system_id : Z) (mac_name : string)
| InsertMac (system_id : Z) (mac_name mac_address : string).

(** What happened on the connection, in order. *)
Inductive event : Type :=
| EvExecute (stmt : statement)
| EvCommit
| EvRollback
| EvClose.

(** A [StdDatabase] object together with the server behind it:
    [committed] is what the server keeps, [working] what the open
    transaction sees, the two sequences hand out row ids (a rollback does
    not rewind them), [db_error n] tells whether the statement sent as the
    [n]-th event of the connection is refused with a [psycopg.Error]. *)
Record StdDatabase : Type := mk_StdDatabase {
  committed : tables;
  working : tables;
  part_seq : Z;
  mac_seq : Z;
  db_error : nat -> bool;
  closed : bool;
  insert_log : gmap string (list Z);
  events : list event
}.

(** [StdDatabase()] when the connection succeeds. *)
Definition StdDatabase_init (db : tables) (part_seq mac_seq : Z)
  (db_error : nat -> bool) : StdDatabase :=
  {| committed := db; working := db; part_seq := part_seq;
     mac_seq := mac_seq; db_error := db_error; closed := false;
     insert_log := ∅; events := [] |}.

Definition set_working (t : tables) (st : StdDatabase) : StdDatabase :=
  {| committed := committed st; working := t; part_seq := part_seq st;
     mac_seq := mac_seq st; db_error := db_error st; closed := closed st;
     insert_log := insert_log st; events := events st |}.

Definition set_committed (t : tables) (st : StdDatabase) : StdDatabase :=
  {| committed := t; working := working st; part_seq := part_seq st;
     mac_seq := mac_seq st; db_error := db_error st; closed := closed st;
     insert_log := insert_log st; events := events st |}.

Definition set_closed (b : bool) (st : StdDatabase) : StdDatabase :=
  {| committed := committed st; working := working st;
     part_seq := part_seq st; mac_seq := mac_seq st;
     db_error := db_error st; closed := b;
     insert_log := insert_log st; events := events st |}.

Definition set_insert_log (log : gmap string (list Z)) (st : StdDatabase)
  : StdDatabase :=
  {| committed := committed st; working := working st;
     part_seq := part_seq st; mac_seq := mac_seq st;
     db_error := db_error st; closed := closed st;
     insert_log := log; events := events st |}.

Definition add_event (ev : event) (st : StdDatabase) : StdDatabase :=
  {| committed := committed st; working := working st;
     part_seq := part_seq st; mac_seq := mac_seq st;
     db_error := db_error st; closed := closed st;
     insert_log := insert_log st; events := events st ++ [ev] |}.

(** Methods of [StdDatabase]: they read and change the object and can
    raise. *)
Definition dbm (A : Type) : Type := StdDatabase -> result A * StdDatabase.

Global Instance dbm_ret : MRet dbm := fun A a st => (Ok a, st).

Global Instance dbm_bind : MBind dbm := fun A B k m st =>
  match m st with
  | (Ok a, st') => k a st'
  | (Raise e, st') => (Raise e, st')
  end.

Definition raise {A} (e : exn) : dbm A := fun st => (Raise e, st).

Definition lift {A} (r : result A) : dbm A := fun st => (r, st).

(** A [for] loop over a list, for its effects on the object. *)
Fixpoint for_each_db {A} (f : A -> dbm unit) (l : list A) : dbm unit :=
  match l with
  | [] => mret tt
  | x :: rest => _ ← f x; for_each_db f rest
  end.

(** *** The server *)

Definition text_of (v : pyval) : option string :=
  match v with
  | PStr s => Some s
  | _ => None
  end.

(** [WHERE system_id = %s AND model = %s AND serial = %s] *)
Definition part_matches (system_id : Z) (part_model part_serial : string)
  (row : part_row) : bool :=
  (col_system_id row =? system_id)
  && String.eqb (col_model row) part_model
  && String.eqb (col_serial row) part_serial.

(** [WHERE system_id = %s AND name = %s] *)
Definition mac_matches (system_id : Z) (mac_name : string) (row : mac_row)
  : bool :=
  (mac_col_system_id row =? system_id)
  && String.eqb (mac_col_name row) mac_name.

Definition select_named (wanted : string) (rows : list named_row) : list Z :=
  map named_id
      (List.filter (fun row => String.eqb (lower_name row) wanted) rows).

Definition select_system (system_serial : string) (rows : list system_row)
  : list Z :=
  map system_col_id
      (List.filter (fun row => String.eqb (system_col_serial row) system_serial)
                   rows).

Definition select_part (system_id : Z) (part_model part_serial : string)
  (rows : list part_row) : list Z :=
  map col_id (List.filter (part_matches system_id part_model part_serial) rows).

Definition select_mac (system_id : Z) (mac_name : string)
  (rows : list mac_row) : list Z :=
  map mac_col_id (List.filter (mac_matches system_id mac_name) rows).

Definition add_part (row : part_row) (t : tables) : tables :=
  {| production_system := production_system t;
     production_manufacturer := production_manufacturer t;
     production_type := production_type t;
     production_part := production_part t ++ [row];
     production_mac := production_mac t |}.

Definition add_mac (row : mac_row) (t : tables) : tables :=
  {| production_system := production_system t;
     production_manufacturer := production_manufacturer t;
     production_type := production_type t;
     production_part := production_part t;
     production_mac := production_mac t ++ [row] |}.

Definition bump_part_seq (st : StdDatabase) : StdDatabase :=
  {| committed := committed st; working := working st;
     part_seq := part_seq st + 1; mac_seq := mac_seq st;
     db_error := db_error st; closed := closed st;
     insert_log := insert_log st; events := events st |}.

Definition bump_mac_seq (st : StdDatabase) : StdDatabase :=
  {| committed := committed st; working := working st;
     part_seq := part_seq st; mac_seq := mac_seq st + 1;
     db_error := db_error st; closed := closed st;
     insert_log := insert_log st; events := events st |}.

(** Modelled from the spec: the schema of the tables is not in the
    repository.  The spec gives the part columns as text, so a model or a
    serial that is not a string is refused by the server; the selects return
    the ids of the matching rows in the order of the table, the two with
    [LIMIT 1] at most the first; an insert appends the row and returns the
    id the sequence hands out.  [None] stands for [psycopg.Error]. *)
Definition execute (stmt : statement) (st : StdDatabase)
  : option (list Z * StdDatabase) :=
  match stmt with
  | SelectSystem system_serial =>
      Some (take 1 (select_system system_serial
                      (production_system (working st))), st)
  | SelectManufacturer manufacturer_name =>
      Some (take 1 (select_named manufacturer_name
                      (production_manufacturer (working st))), st)
  | SelectType part_type_name =>
      Some (select_named part_type_name (production_type (working st)), st)
  | SelectPart system_id part_model part_serial =>
      match text_of part_model, text_of part_serial with
      | Some m, Some s =>
          Some (select_part system_id m s (production_part (working st)), st)
      | _, _ => None
      end
  | InsertPart system_id part_serial part_model type_id manufacturer_id
      intel_sa_number support_number rma revision part_revision =>
      match text_of part_model, text_of part_serial with
      | Some m, Some s =>
          let row :=
            {| col_id := part_seq st; col_system_id := system_id;
               col_serial := s; col_model := m; col_type_id := type_id;
               col_manufacturer_id := manufacturer_id;
               col_intel_sa_number := intel_sa_number;
               col_support_number := support_number; col_rma := rma;
               col_revision := revision;
               col_part_revision := part_revision |} in
          Some ([part_seq st],
                bump_part_seq (set_working (add_part row (working st)) st))
      | _, _ => None
      end
  | SelectMac system_id mac_name =>
      Some (select_mac system_id mac_name (production_mac (working st)), st)
  | InsertMac system_id mac_name mac_address =>
      let row :=
        {| mac_col_id := mac_seq st; mac_col_system_id := system_id;
           mac_col_name := mac_name; mac_col_mac := mac_address |} in
      Some ([mac_seq st],
            bump_mac_seq (set_working (add_mac row (working st)) st))
  end.

(** *** Methods of [StdDatabase] *)

(** [connection.commit()] and [connection.rollback()]; psycopg refuses both
    on a closed connection. *)
Definition commit : dbm unit := fun st =>
  if closed st then (Raise PsycopgError, st)
  else (Ok tt, add_event EvCommit (set_committed (working st) st)).

Definition rollback : dbm unit := fun st =>
  if closed st then (Raise PsycopgError, st)
  else (Ok tt, add_event EvRollback (set_working (committed st) st)).

(** [connection.close()]: what was not committed is lost. *)
Definition connection_close : dbm unit := fun st =>
  (Ok tt,
   add_event EvClose (set_closed true (set_working (committed st) st))).

Definition close (commit_flag : bool) : dbm unit :=
  _ ← (if commit_flag then commit else rollback);
  connection_close.

(** [sys.exit(code)] *)
Definition sys_exit {A} (code : option Z) : dbm A :=
  raise (SystemExit code).

Definition query (stmt : statement) : dbm (list Z) := fun st =>
  let st1 := add_event (EvExecute stmt) st in
  let outcome :=
    if closed st || db_error st (length (events st)) then None
    else execute stmt st1 in
  match outcome with
  | Some (rows, st2) => (Ok rows, st2)
  | None => (_ ← close false; sys_exit (Some 1)) st1
  end.

Definition get_system_id (system_serial : string) : dbm Z :=
  result ← query (SelectSystem system_serial);
  if (length result =? 0)%nat then _ ← close false; sys_exit None
  else lift (py_index result 0).

Definition get_manufacturer_id (manufacturer_name : string) : dbm Z :=
  result ← query (SelectManufacturer manufacturer_name);
  if (length result =? 0)%nat then _ ← close false; sys_exit None
  else lift (py_index result 0).

Definition get_part_type_id (part_type_name : string) : dbm Z :=
  let part_type_name := lower part_type_name in
  result ← query (SelectType part_type_name);
  if (length result =? 0)%nat then _ ← close false; sys_exit None
  else lift (py_index result 0).

(** [if key in self.insert_log: .. .append(id) else: .. = [id]] *)
Definition log_insert (key : string) (id : Z) : dbm unit := fun st =>
  let log := insert_log st in
  (Ok tt,
   set_insert_log
     (match log !! key with
      | Some ids => <[key := ids ++ [id]]> log
      | None => <[key := [id]]> log
      end) st).

Definition insert_part (system_id : Z) (part_model part_serial : pyval)
  (type_id manufacturer_id : Z) : dbm Z :=
  result ← query (SelectPart system_id part_model part_serial);
  result ←
    (if (length result =? 0)%nat then
       result ← query (InsertPart system_id part_serial part_model type_id
                         manufacturer_id EmptyString EmptyString false
                         EmptyString EmptyString);
       id ← lift (py_index result 0);
       _ ← log_insert "production_part" id;
       mret result
     else mret result);
  lift (py_index result 0).

Definition insert_mac (system_id : Z) (mac_name mac_address : string)
  : dbm Z :=
  if (17 <? String.length mac_address)%nat then
    _ ← close false; sys_exit (Some 1)
  else
    result ← query (SelectMac system_id mac_name);
    result ←
      (if (length result =? 0)%nat then
         result ← query (InsertMac system_id mac_name mac_address);
         id ← lift (py_index result 0);
         _ ← log_insert "production_mac" id;
         mret result
       else mret result);
    lift (py_index result 0).

(* ------------------------------------------------------------------ *)
(** ** Lenovo_Redfish.py: update_std *)
(* ------------------------------------------------------------------ *)

(** Modelled from the spec: the attribute [rows_inserted] that [update_std]
    reads is missing from the class; the spec describes it as the count of
    the ids in the insert log. *)
Definition logged_rows (st : StdDatabase) : Z :=
  map_fold (fun _ ids n => n + Z.of_nat (length ids)) 0 (insert_log st).

Section UpdateStd.

(** Reading [std.rows_inserted].  The class has no attribute of that name;
    the section is parametric in what reading it gives. *)
Variable rows_inserted : StdDatabase -> result Z.

Definition read_rows_inserted : dbm Z := fun st => (rows_inserted st, st).

(** [MANUFACTURER_DICT[part['manufacturer'].lower()]], the lookup of its
    id, and the insert of the part. *)
Definition insert_component (system_id part_type_id : Z) (part : part_info)
  : dbm unit :=
  key ← lift (py_lower (manufacturer part));
  manufacturer ← lift (dict_item MANUFACTURER_DICT key);
  manufacturer_id ← get_manufacturer_id manufacturer;
  _ ← insert_part system_id (model part) (serial part) part_type_id
        manufacturer_id;
  mret tt.

(** A pass of the CPU and memory loops, which look the part type up
    again for every part. *)
Definition insert_typed (type_key : string) (system_id : Z)
  (part : part_info) : dbm unit :=
  part_type ← lift (dict_item TYPE_DICT type_key);
  part_type_id ← get_part_type_id part_type;
  insert_component system_id part_type_id part.

(** The PSU, SSD and NIC loops look the part type up once, before the
    loop. *)
Definition insert_all (type_key : string) (system_id : Z)
  (parts : list part_info) : dbm unit :=
  part_type ← lift (dict_item TYPE_DICT type_key);
  part_type_id ← get_part_type_id part_type;
  for_each_db (insert_component system_id part_type_id) parts.

Definition insert_password (system_id : Z) : dbm unit :=
  part_type ← lift (dict_item TYPE_DICT "password");
  part_type_id ← get_part_type_id part_type;
  manufacturer ← lift (dict_item MANUFACTURER_DICT "ixsystems");
  manufacturer_id ← get_manufacturer_id manufacturer;
  _ ← insert_part system_id (PStr "IPMI Password") (PStr "Password123")
        part_type_id manufacturer_id;
  mret tt.

Definition insert_mac_info (system_id : Z) (m : mac_info) : dbm unit :=
  address ← lift (py_upper (mac_value m));
  _ ← insert_mac system_id (name m) address;
  mret tt.

(** Body of [for ix_serial, components in systems.items()]. *)
Definition update_system (entry : string * components) : dbm unit :=
  let (ix_serial, components) := entry in
  pre_insertion_total ← read_rows_inserted;
  system_id ← get_system_id ix_serial;
  _ ← insert_typed "motherboard" system_id (motherboard components);
  _ ← for_each_db (insert_typed "cpu" system_id) (cpu components);
  _ ← for_each_db (insert_typed "memory" system_id) (memory components);
  _ ← insert_all "psu" system_id (psu components);
  _ ← insert_all "ssd" system_id (ssd components);
  _ ← insert_all "nic" system_id (nic components);
  _ ← insert_password system_id;
  _ ← for_each_db (insert_mac_info system_id) (mac components);
  _ ← read_rows_inserted;
  mret tt.

(** Body of the [with] statement. *)
Definition update_std_body (systems : list (string * components))
  : dbm unit :=
  _ ← for_each_db update_system systems;
  _ ← read_rows_inserted;
  commit.

(** [with StdDatabase() as std: ..]: [__exit__] closes the object whether
    the body returned or raised; an exception of [__exit__] replaces the
    one of the body. *)
Definition with_std {A} (body : dbm A) : dbm A := fun std =>
  let (r, st) := body std in
  match close false st with
  | (Ok _, st') => (r, st')
  | (Raise e, st') => (Raise e, st')
  end.

Definition update_std (systems : list (string * components)) : dbm unit :=
  with_std (update_std_body systems).

End UpdateStd.

(* ------------------------------------------------------------------ *)
(** ** Notions the statements about the reader use *)
(* ------------------------------------------------------------------ *)

(** The key is missing from the body. *)
Definition field_absent (body : pyval) (key : string) : bool :=
  match body with
  | PDict kvs => match assoc key kvs with None => true | Some _ => false end
  | _ => false
  end.

(** The key is in the body and holds JSON null. *)
Definition field_null (kvs : list (string * pyval)) (key : string) : bool :=
  match assoc key kvs with
  | Some PNone => true
  | _ => false
  end.

(** The value read for a key, the empty string when the key is missing. *)
Definition field_or_empty (kvs : list (string * pyval)) (key : string)
  : pyval :=
  match assoc key kvs with
  | Some v => v
  | None => empty_str
  end.

(** The records a memory body stands for: none when part number and serial
    are both null, one otherwise. *)
Definition memory_entries (kvs : list (string * pyval)) : list part_info :=
  if field_null kvs "PartNumber" && field_null kvs "SerialNumber" then []
  else [mk_part_info (field_or_empty kvs "Manufacturer")
          (field_or_empty kvs "PartNumber")
          (field_or_empty kvs "SerialNumber")].

(** The MAC address read at a link. *)
Definition permanent_mac (requests_get : string -> result response)
  (url : string) : pyval :=
  match get_http_response_body requests_get url with
  | Ok (PDict kvs) => field_or_empty kvs "PermanentMACAddress"
  | _ => empty_str
  end.

(** The MAC records of the links that hold "NIC", numbered from [n]. *)
Definition nic_macs (requests_get : string -> result response)
  (base_url : string) (n : nat) (links : list string) : list mac_info :=
  let kept := List.filter (str_contains "NIC") links in
  zip_with (fun i link =>
              mk_mac_info (nic_mac_name i)
                (permanent_mac requests_get (base_url +:+ link)))
           (seq n (length kept)) kept.

(** *** Sample answers of a management controller *)

(** Every request is answered with an error status. *)
Definition world_error_status : string -> result response :=
  fun _ => Ok (mk_response false None).

(** Every request is answered with status 200 and the JSON text [[]]. *)
Definition world_json_list : string -> result response :=
  fun _ => Ok (mk_response true (Some (PList []))).

(** No request is answered: [requests.get] raises. *)
Definition world_unreachable : string -> result response :=
  fun _ => Raise RequestException.

(** A controller with three ethernet interfaces, the second of which is the
    link to the management controller. *)
Definition world_three_links : string -> result response := fun url =>
  if String.eqb url
       "https://10.48.143.80/redfish/v1/Systems/1/EthernetInterfaces"
  then Ok (mk_response true (Some (PDict
         [("Members", PList
            [PDict [("@odata.id",
                     PStr "/redfish/v1/Systems/1/EthernetInterfaces/NIC1")];
             PDict [("@odata.id",
                     PStr "/redfish/v1/Systems/1/EthernetInterfaces/ToHost")];
             PDict [("@odata.id",
                     PStr "/redfish/v1/Systems/1/EthernetInterfaces/NIC2")]
            ])])))
  else if String.eqb url
            "https://10.48.143.80/redfish/v1/Systems/1/EthernetInterfaces/NIC1"
  then Ok (mk_response true (Some (PDict
         [("PermanentMACAddress", PStr "7c:8c:09:a5:00:01")])))
  else if String.eqb url
            "https://10.48.143.80/redfish/v1/Systems/1/EthernetInterfaces/NIC2"
  then Ok (mk_response true (Some (PDict
         [("PermanentMACAddress", PStr "7c:8c:09:a5:00:02")])))
  else Ok (mk_response false None).

(** A controller that answers the two memory links of the example: a
    populated slot and an empty one. *)
Definition world_two_slots : string -> result response := fun url =>
  if String.eqb url "https://10.48.143.80/redfish/v1/Systems/1/Memory/1"
  then Ok (mk_response true (Some (PDict
         [("Manufacturer", PStr "Samsung");
          ("PartNumber", PStr "M321R4GA3BB6-CQKET");
          ("SerialNumber", PStr "00C1A2B3")])))
  else if String.eqb url "https://10.48.143.80/redfish/v1/Systems/1/Memory/2"
  then Ok (mk_response true (Some (PDict
         [("Manufacturer", PNone); ("PartNumber", PNone);
          ("SerialNumber", PNone)])))
  else Ok (mk_response false None).

(** Lines of a DIMM data file. *)
Definition dimm_header : string :=
  "Locator    Bank    Manufacturer    PartNumber    SerialNumber    Speed".

Definition dimm_line : string :=
  "DIMM_A1-slot    BANK-000    SAMSUNG-MFG    PARTNUM123    000123456  "
  +:+ "  4800MHz".

(** The same line after one blank: its first piece has five characters,
    six with the blank. *)
Definition dimm_line_after_blank : string :=
  " DIMM1    BANK-000    SAMSUNG-MFG    PARTNUM123    000123456    4800MHz".

(** The pieces of a line that is split as it stands, without [strip], and
    are longer than 5 characters. *)
Definition columns_unstripped (line : string) : list string :=
  filter (fun col => (5 < String.length col)%nat) (re_split_ws2 line).

(** A data file: the header, one DIMM, a blank line and a line with too few
    columns. *)
Definition dimm_file : string :=
  dimm_header +:+ String "010" dimm_line +:+ String "010" "   "
  +:+ String "010" "DIMM_B1-slot    BANK-001    short"
  +:+ String "010" EmptyString.

(* ------------------------------------------------------------------ *)
(** ** Notions the statements about the database use *)
(* ------------------------------------------------------------------ *)

(** The connection is open and the server refuses no statement. *)
Definition healthy (st : StdDatabase) : Prop :=
  closed st = false /\ forall n, db_error st n = false.

(** The row [insert_part] writes: the given attributes and the fixed
    defaults. *)
Definition new_part_row (id system_id : Z) (part_model part_serial : string)
  (type_id manufacturer_id : Z) : part_row :=
  {| col_id := id; col_system_id := system_id; col_serial := part_serial;
     col_model := part_model; col_type_id := type_id;
     col_manufacturer_id := manufacturer_id; col_intel_sa_number := EmptyString;
     col_support_number := EmptyString; col_rma := false;
     col_revision := EmptyString;
     col_part_revision := EmptyString |}.

(** The Part rows for (system, model, serial). *)
Definition matching_parts (system_id : Z) (part_model part_serial : string)
  (t : tables) : list part_row :=
  List.filter (part_matches system_id part_model part_serial)
              (production_part t).

(** The MacAddress rows for (system, name). *)
Definition matching_macs (system_id : Z) (mac_name : string) (t : tables)
  : list mac_row :=
  List.filter (mac_matches system_id mac_name) (production_mac t).

(** The ids logged for a table, none when the table has no entry. *)
Definition logged (key : string) (st : StdDatabase) : list Z :=
  default [] (insert_log st !! key).

Definition is_execute (ev : event) : bool :=
  match ev with
  | EvExecute _ => true
  | _ => false
  end.

Definition is_commit (ev : event) : bool :=
  match ev with
  | EvCommit => true
  | _ => false
  end.

(** A closed connection has nothing pending. *)
Definition settled (st : StdDatabase) : Prop :=
  closed st = true -> working st = committed st.

(** Nothing was committed between [st0] and [st], and if [st0] was settled
    so is [st]. *)
Definition no_commit_since (st0 st : StdDatabase) : Prop :=
  committed st = committed st0
  /\ List.filter is_commit (events st) = List.filter is_commit (events st0)
  /\ (settled st0 -> settled st).

(** A method that commits nothing, however it ends. *)
Definition quiet {A} (m : dbm A) : Prop :=
  forall st, no_commit_since st (m st).2.

(** [t'] has the rows of [t] and possibly more parts and MAC addresses. *)
Definition extends (t t' : tables) : Prop :=
  production_system t' = production_system t
  /\ production_manufacturer t' = production_manufacturer t
  /\ production_type t' = production_type t
  /\ (exists more, production_part t' = production_part t ++ more)
  /\ (exists more, production_mac t' = production_mac t ++ more).

(** A method that, when it returns, has only added rows to what the
    transaction sees. *)
Definition grows {A} (m : dbm A) : Prop :=
  forall st a st', m st = (Ok a, st') -> extends (working st) (working st').

(** The part of a bundle is in the tables, under the system [system_id]. *)
Definition part_imported (t : tables) (system_id : Z) (part : part_info)
  : Prop :=
  exists part_model part_serial,
    model part = PStr part_model /\ serial part = PStr part_serial
    /\ matching_parts system_id part_model part_serial t <> [].

Definition mac_imported (t : tables) (system_id : Z) (m : mac_info) : Prop :=
  matching_macs system_id (name m) t <> [].

Definition all_parts (c : components) : list part_info :=
  motherboard c :: cpu c ++ memory c ++ psu c ++ ssd c ++ nic c.

(** Every record of the bundle of a system has its row. *)
Definition system_imported (t : tables) (entry : string * components)
  : Prop :=
  exists system_id,
    head (select_system entry.1 (production_system t)) = Some system_id
    /\ Forall (part_imported t system_id) (all_parts entry.2)
    /\ matching_parts system_id "IPMI Password" "Password123" t <> []
    /\ Forall (mac_imported t system_id) (mac entry.2).

(** The manufacturer of the part is a string that the translation table
    does not hold once lowered. *)
Definition unmapped (part : part_info) : Prop :=
  exists s, manufacturer part = PStr s
            /\ assoc (lower s) MANUFACTURER_DICT = None.

(** The address of the record is a string of more than 17 characters. *)
Definition oversized (m : mac_info) : Prop :=
  exists s, mac_value m = PStr s /\ (17 < String.length s)%nat.

(** *** A sample store *)

Definition sample_tables : tables :=
  {| production_system := [mk_system_row 7 "A1-102049"];
     production_manufacturer :=
       [mk_named_row 1 "lenovo"; mk_named_row 2 "intel";
        mk_named_row 3 "ix systems"; mk_named_row 4 "samsung"];
     production_type :=
       [mk_named_row 10 "cpu"; mk_named_row 11 "memory";
        mk_named_row 12 "nic"; mk_named_row 13 "ssd m.2";
        mk_named_row 14 "power supply"; mk_named_row 15 "motherboard";
        mk_named_row 16 "unique password"];
     production_part :=
       [new_part_row 100 7 "Intel(R) Xeon(R) Gold 6430" "CPU0001" 10 2];
     production_mac := [] |}.

Definition sample_std : StdDatabase :=
  StdDatabase_init sample_tables 101 1 (fun _ => false).

(** The object after [insert_part] wrote a new row. *)
Definition after_insert_part (st : StdDatabase) (system_id : Z)
  (part_model part_serial : string) (type_id manufacturer_id : Z)
  : StdDatabase :=
  {| committed := committed st;
     working :=
       add_part (new_part_row (part_seq st) system_id part_model part_serial
                   type_id manufacturer_id) (working st);
     part_seq := part_seq st + 1; mac_seq := mac_seq st;
     db_error := db_error st; closed := closed st;
     insert_log :=
       <["production_part" :=
           logged "production_part" st ++ [part_seq st]]> (insert_log st);
     events :=
       events st
       ++ [EvExecute
             (SelectPart system_id (PStr part_model) (PStr part_serial));
           EvExecute
             (InsertPart system_id (PStr part_serial) (PStr part_model)
                type_id manufacturer_id EmptyString EmptyString false
                EmptyString EmptyString)] |}.

(** The object after [insert_mac] wrote a new row. *)
Definition after_insert_mac (st : StdDatabase) (system_id : Z)
  (mac_name mac_address : string) : StdDatabase :=
  {| committed := committed st;
     working :=
       add_mac (mk_mac_row (mac_seq st) system_id mac_name mac_address)
               (working st);
     part_seq := part_seq st; mac_seq := mac_seq st + 1;
     db_error := db_error st; closed := closed st;
     insert_log :=
       <["production_mac" :=
           logged "production_mac" st ++ [mac_seq st]]> (insert_log st);
     events :=
       events st
       ++ [EvExecute (SelectMac system_id mac_name);
           EvExecute (InsertMac system_id mac_name mac_address)] |}.

(** *** Sample bundles *)

Definition sample_components : components :=
  {| motherboard :=
       mk_part_info (PStr "Lenovo") (PStr "7D73CTO1WW") (PStr "MB0001");
     cpu := [mk_part_info (PStr "Intel(R) Corporation")
               (PStr "Intel(R) Xeon(R) Gold 6430") (PStr "CPU0001")];
     memory := [mk_part_info (PStr "Samsung") (PStr "M321R4GA3BB6-CQKET")
                  (PStr "00C1A2B3")];
     psu := []; ssd := []; nic := [];
     mac := [mk_mac_info "NIC 1 MAC" (PStr "7c:8c:09:a5:00:01");
             mk_mac_info "IPMI 1 MAC" (PStr "7c:8c:09:a5:00:ff")] |}.

(** The same bundle with a CPU of a manufacturer the table does not
    hold. *)
Definition unmapped_components : components :=
  {| motherboard := motherboard sample_components;
     cpu := [mk_part_info (PStr "AMD") (PStr "EPYC 9354") (PStr "CPU0002")];
     memory := memory sample_components;
     psu := []; ssd := []; nic := [];
     mac := mac sample_components |}.

(** The same bundle with an address of 18 characters. *)
Definition oversized_components : components :=
  {| motherboard := motherboard sample_components;
     cpu := cpu sample_components;
     memory := memory sample_components;
     psu := []; ssd := []; nic := [];
     mac := [mk_mac_info "NIC 1 MAC" (PStr "7c:8c:09:a5:00:01:")] |}.

(** A field of a DIMM record as the loop stores it: longer than five
    characters, with no whitespace at either end. *)
Definition long_field (t : string) : Prop :=
  (5 < String.length t)%nat /\ strip t = t.

(* ------------------------------------------------------------------ *)
(** ** A2Z_Dimm_Pull.py: the loop over the serials *)
(* ------------------------------------------------------------------ *)

(** What the [try] block can raise: [FileNotFoundError], which the loop
    catches, another exception of a file system call, or an exception of
    the loop over the lines. *)
Inductive os_exn : Type :=
| FileNotFoundError
| OtherOSError
| LineError (e : exn).

Inductive os_result (A : Type) : Type :=
| Done (a : A)
| Failed (e : os_exn).
Arguments Done {A} a.
Arguments Failed {A} e.

(** [sorted(l, reverse=True)] on strings, which Python compares character
    code by character code: largest first, equal items in the order they
    came. *)
Fixpoint insert_desc (x : string) (l : list string) : list string :=
  match l with
  | [] => [x]
  | y :: r => if String.leb y x then x :: l else y :: insert_desc x r
  end.

Definition sorted_reverse (l : list string) : list string :=
  foldr insert_desc [] l.

(** The two objects the loop changes. *)
Record pull_state : Type := mk_pull_state {
  burn_in_directory : list string;
  data : dimm_data
}.

(** The file system as the script uses it: [os.listdir], [os.path.join],
    [os.path.exists], and [open(path, "r", encoding="utf-16-le")] followed
    by [read()]. *)
Record file_system : Type := mk_file_system {
  listdir : string -> os_result (list string);
  path_join : string -> string -> string;
  path_exists : string -> bool;
  read_text : string -> os_result string
}.

(** The [try] block of one pass.  What was appended before an exception
    stays appended. *)
Definition try_block (fs : file_system) (system_serial : string)
  (st : pull_state) : os_result unit * pull_state :=
  let directory_path := directory_path system_serial in
  match listdir fs directory_path with
  | Failed e => (Failed e, st)
  | Done entries =>
      match sorted_reverse entries with
      | [] => (Done tt, st)
      | first :: _ =>
          let st1 :=
            {| burn_in_directory := burn_in_directory st ++ [first];
               data := data st |} in
          let complete_path := path_join fs directory_path first in
          let dimm_data_path :=
            path_join fs complete_path "DIMM_MemoryChipData.txt" in
          if path_exists fs dimm_data_path then
            match read_text fs dimm_data_path with
            | Failed e => (Failed e, st1)
            | Done dimm_contents =>
                match process_file system_serial dimm_contents (data st1)
                with
                | Ok data' =>
                    (Done tt,
                     {| burn_in_directory := burn_in_directory st1;
                        data := data' |})
                | Raise e => (Failed (LineError e), st1)
                end
            end
          else (Done tt, st1)
      end
  end.

(** One pass of [for system_serial in serial_list]: the [try] block and
    its [except FileNotFoundError]. *)
Definition pull_serial (fs : file_system) (system_serial : string)
  (st : pull_state) : os_result unit * pull_state :=
  match try_block fs system_serial st with
  | (Failed FileNotFoundError, st') => (Done tt, st')
  | outcome => outcome
  end.

Fixpoint pull_serials (fs : file_system) (serials : list string)
  (st : pull_state) : os_result unit * pull_state :=
  match serials with
  | [] => (Done tt, st)
  | system_serial :: rest =>
      match pull_serial fs system_serial st with
      | (Done _, st') => pull_serials fs rest st'
      | (Failed e, st') => (Failed e, st')
      end
  end.

(** The script from the rows of the query to the [data] the CSV file is
    written from. *)
Definition pull_dimm_data (fs : file_system) (sql_list : list string)
  : os_result unit * pull_state :=
  pull_serials fs (serial_list sql_list) (mk_pull_state [] empty_data).

(** The serial has no logs: its log directory is missing or empty. *)
Definition no_logs (fs : file_system) (system_serial : string) : bool :=
  match listdir fs (directory_path system_serial) with
  | Failed FileNotFoundError => true
  | Done [] => true
  | _ => false
  end.

(** The four columns have the same length, as [pd.DataFrame] needs them. *)
Definition aligned (d : dimm_data) : Prop :=
  length (DIMM_Serial d) = length (System_Serial d)
  /\ length (DIMM_Manufacturer d) = length (System_Serial d)
  /\ length (DIMM_Part_Number d) = length (System_Serial d).

(** A file system in which the logs of "A1-102049" hold two test dates, the
    newer one with a data file, and no other directory exists. *)
Definition sample_fs : file_system :=
  {| listdir := fun path =>
       if String.eqb path "//10.246.0.110/pbsv4/pbs_logs/A1-102049"
       then Done ["2023-01-05"; "2023-01-17"]
       else Failed FileNotFoundError;
     path_join := fun a b => a +:+ "/" +:+ b;
     path_exists := fun path =>
       String.eqb path
         ("//10.246.0.110/pbsv4/pbs_logs/A1-102049/2023-01-17/"
          +:+ "DIMM_MemoryChipData.txt");
     read_text := fun path =>
       if String.eqb path
            ("//10.246.0.110/pbsv4/pbs_logs/A1-102049/2023-01-17/"
             +:+ "DIMM_MemoryChipData.txt")
       then Done dimm_file else Failed FileNotFoundError |}.

(** The bundle of a system none of whose requests gave a JSON object: the
    motherboard with its fixed manufacturer, no part, and the address of
    the management controller. *)
Definition empty_bundle : components :=
  {| motherboard := mk_part_info (PStr "Lenovo") empty_str empty_str;
     cpu := []; memory := []; psu := []; ssd := []; nic := [];
     mac := [mk_mac_info "IPMI 1 MAC" empty_str] |}.

(* ------------------------------------------------------------------ *)
(** ** Lenovo_Redfish.py: from KEY.txt to the dict of the systems *)
(* ------------------------------------------------------------------ *)

(** [d[key] = v] on a dict given as its list of items: a key that is there
    keeps its place and gets the new value, a new key goes to the end. *)
Fixpoint dict_set {V} (key : string) (v : V) (d : list (string * V))
  : list (string * V) :=
  match d with
  | [] => [(key, v)]
  | (k, x) :: rest =>
      if String.eqb k key then (k, v) :: rest
      else (k, x) :: dict_set key v rest
  end.

(** [for ip, ix_serial in zip(ip_list, ix_serial_list)]: every system is
    read and stored under its serial. *)
Fixpoint collect_systems (requests_get : string -> result response)
  (pairs : list (string * string)) (systems : list (string * components))
  : result (list (string * components)) :=
  match pairs with
  | [] => Ok systems
  | (ip, ix_serial) :: rest =>
      components ← parse_system_components requests_get ip;
      collect_systems requests_get rest (dict_set ix_serial components systems)
  end.

(** The script up to the call of [update_std]: the lines of KEY.txt are
    parsed, then the systems are read one after the other. *)
Definition scan_systems (requests_get : string -> result response)
  (lines : list string) : result (list (string * components)) :=
  lists ← parse_input_file lines [] [];
  collect_systems requests_get (zip lists.1 lists.2) [].

(** No character of the string is whitespace. *)
Fixpoint no_space (s : string) : bool :=
  match s with
  | EmptyString => true
  | String c r => negb (isspace c) && no_space r
  end.

(** What [split()] returns pieces of: not empty, no whitespace inside. *)
Definition is_token (s : string) : bool := truthy s && no_space s.

(** The line of KEY.txt for a system as the docstring of the script asks
    for it: the address, a space, the serial, the line end. *)
Definition key_line (ip ix_serial : string) : string :=
  ip +:+ " " +:+ ix_serial +:+ String "010" EmptyString.

(** The object after a statement was sent on an open connection and the
    run was ended for it: the statement, the rollback and the close are on
    record, and what was pending is lost. *)
Definition ended_at (stmt : statement) (st : StdDatabase) : StdDatabase :=
  {| committed := committed st; working := committed st;
     part_seq := part_seq st; mac_seq := mac_seq st;
     db_error := db_error st; closed := true;
     insert_log := insert_log st;
     events := events st ++ [EvExecute stmt; EvRollback; EvClose] |}.

(** The class as it stands: it has no attribute [rows_inserted], so reading
    it raises. *)
Definition rows_inserted_missing : StdDatabase -> result Z :=
  fun _ => Raise (AttributeError "rows_inserted").

(** The tables with more part and MAC rows after the ones they hold. *)
Definition more_rows (t : tables) (parts : list part_row)
  (macs : list mac_row) : tables :=
  {| production_system := production_system t;
     production_manufacturer := production_manufacturer t;
     production_type := production_type t;
     production_part := production_part t ++ parts;
     production_mac := production_mac t ++ macs |}.

(** Between [st0] and [st] the transaction only wrote new part and MAC
    rows, and the insert log got the id of each, in the order of the
    rows. *)
Definition logs_new_rows (st0 st : StdDatabase) : Prop :=
  exists parts macs,
    working st = more_rows (working st0) parts macs
    /\ logged "production_part" st
       = logged "production_part" st0 ++ map col_id parts
    /\ logged "production_mac" st
       = logged "production_mac" st0 ++ map mac_col_id macs.

(** A method that, when it returns, has logged every row it wrote. *)
Definition tracked {A} (m : dbm A) : Prop :=
  forall st a st', m st = (Ok a, st') -> logs_new_rows st st'.

(** The object is as it was, but for the record of what happened on the
    connection. *)
Definition same_store (st st' : StdDatabase) : Prop :=
  working st' = working st /\ committed st' = committed st
  /\ insert_log st' = insert_log st /\ closed st' = closed st
  /\ db_error st' = db_error st.

(** A method that returned once returns again, and writes nothing, on any
    healthy connection that sees at least the rows the first call left;
    [replays] when it also returns the same value. *)
Definition replays_loosely {A} (m : dbm A) : Prop :=
  forall st a st' st2,
    m st = (Ok a, st') -> healthy st2 ->
    extends (working st') (working st2) ->
    exists a2 st2', m st2 = (Ok a2, st2') /\ same_store st2 st2'.

Definition replays {A} (m : dbm A) : Prop :=
  forall st a st' st2,
    m st = (Ok a, st') -> healthy st2 ->
    extends (working st') (working st2) ->
    exists st2', m st2 = (Ok a, st2') /\ same_store st2 st2'.

(** No character of the string is a lower-case letter. *)
Fixpoint no_lower (s : string) : bool :=
  match s with
  | EmptyString => true
  | String c r =>
      let n := nat_of_ascii c in
      negb ((97 <=? n) && (n <=? 122))%nat && no_lower r
  end.

(* ================================================================== *)
(** * Part II: lemmas *)
(* ================================================================== *)

(** ** Strings *)

Lemma app_nil_l_str (t : string) : EmptyString +:+ t = t.
Proof. reflexivity. Qed.

Lemma app_cons_str (c : ascii) (s t : string) :
  String c s +:+ t = String c (s +:+ t).
Proof. reflexivity. Qed.

Lemma app_empty_r (s : string) : s +:+ EmptyString = s.
Proof.
  induction s as [|c s IH]; [done |]. by rewrite app_cons_str, IH.
Qed.

Lemma app_assoc_str (a b c : string) : (a +:+ b) +:+ c = a +:+ b +:+ c.
Proof.
  induction a as [|x a IH]; [done |]. by rewrite !app_cons_str, IH.
Qed.

(** [re.split(r"\s{2,}", s)] on a few strings: a single space or tab stays
    in its piece, a space next to a tab is a run of two, a run at either end
    leaves an empty piece there. *)
Example re_split_ws2_examples :
  re_split_ws2 "a b  c   d" = ["a b"; "c"; "d"]
  /\ re_split_ws2 (String "a" (String " " (String "009" "b"))) = ["a"; "b"]
  /\ re_split_ws2 (String "a" (String "009" "b"))
     = [String "a" (String "009" "b")]
  /\ re_split_ws2 "  a" = [EmptyString; "a"]
  /\ re_split_ws2 "a  " = ["a"; EmptyString]
  /\ re_split_ws2 EmptyString = [EmptyString].
Proof. repeat split. Qed.

(** [s.split()] and [s.strip()] on a few strings. *)
Example py_split_examples :
  py_split "10.48.143.80 A1-102049" = ["10.48.143.80"; "A1-102049"]
  /\ py_split "  a   b  " = ["a"; "b"]
  /\ py_split "   " = []
  /\ strip (String " " (String "009" ("a b" +:+ String "010" EmptyString)))
     = "a b"
  /\ strip "   " = EmptyString.
Proof. repeat split. Qed.

Lemma lstrip_fix (s : string) : starts_nonspace s = true -> lstrip s = s.
Proof.
  destruct s as [|c r]; simpl; [done |].
  intros H. apply negb_true_iff in H. by rewrite H.
Qed.

Lemma rstrip_fix (s : string) : ends_nonspace s = true -> rstrip s = s.
Proof.
  induction s as [|c r IH]; [done |].
  destruct r as [|d r'].
  - simpl. intros H. apply negb_true_iff in H. by rewrite H.
  - intros H. change (ends_nonspace (String d r') = true) in H.
    specialize (IH H).
    change (rstrip (String c (String d r')))
      with (match rstrip (String d r') with
            | EmptyString =>
                if isspace c then EmptyString else String c EmptyString
            | r0 => String c r0
            end).
    by rewrite IH.
Qed.

Lemma strip_fix (s : string) :
  starts_nonspace s = true -> ends_nonspace s = true -> strip s = s.
Proof.
  intros Hs He. unfold strip. rewrite (lstrip_fix s Hs). by apply rstrip_fix.
Qed.

Lemma lstrip_starts (s : string) :
  lstrip s = EmptyString \/ starts_nonspace (lstrip s) = true.
Proof.
  induction s as [|c r IH]; simpl; [by left |].
  destruct (isspace c) eqn:E; [done |]. right. simpl. by rewrite E.
Qed.

Lemma rstrip_ends (s : string) :
  rstrip s = EmptyString \/ ends_nonspace (rstrip s) = true.
Proof.
  induction s as [|c r IH]; simpl; [by left |].
  destruct (rstrip r) as [|d r'] eqn:E.
  - destruct (isspace c) eqn:Ec; [by left |]. right. simpl. by rewrite Ec.
  - right. destruct IH as [IH | IH]; [done |]. exact IH.
Qed.

Lemma rstrip_starts (s : string) :
  starts_nonspace s = true -> starts_nonspace (rstrip s) = true.
Proof.
  destruct s as [|c r]; simpl; [done |].
  intros H. destruct (rstrip r).
  - apply negb_true_iff in H. rewrite H. simpl. by rewrite H.
  - done.
Qed.

(** A stripped string that is not empty starts and ends with a character
    that is not whitespace. *)
Lemma strip_edges (s : string) :
  truthy (strip s) = true ->
  starts_nonspace (strip s) = true /\ ends_nonspace (strip s) = true.
Proof.
  unfold strip. intros H.
  destruct (lstrip_starts s) as [E | E].
  - rewrite E in H. done.
  - split.
    + by apply rstrip_starts.
    + destruct (rstrip_ends (lstrip s)) as [E' | E']; [| done].
      rewrite E' in H. done.
Qed.

Lemma starts_nonspace_app (a b : string) :
  starts_nonspace a = true -> starts_nonspace (a +:+ b) = true.
Proof. by destruct a. Qed.

Lemma ends_nonspace_snoc (a : string) (c : ascii) :
  ends_nonspace (a +:+ String c EmptyString) = negb (isspace c).
Proof.
  induction a as [|x a IH]; [done |].
  simpl. rewrite IH. by destruct a.
Qed.

Lemma ends_nonspace_tail (c : ascii) (r : string) :
  r <> EmptyString ->
  ends_nonspace (String c r) = ends_nonspace r.
Proof. by destruct r. Qed.

(** Every piece that [re.split] cuts out of a string with clean edges has
    clean edges itself. *)
Lemma split_ws2_edges (s cur pend : string) :
  starts_nonspace cur = true -> ends_nonspace cur = true ->
  (s = EmptyString -> pend = EmptyString) ->
  (s <> EmptyString -> ends_nonspace s = true) ->
  Forall (fun t => starts_nonspace t = true /\ ends_nonspace t = true)
         (split_ws2 cur pend s).
Proof.
  revert cur pend. induction s as [|c r IH]; intros cur pend Hs He Hp Hr.
  - rewrite (Hp eq_refl). simpl. rewrite app_empty_r. by repeat constructor.
  - specialize (Hr ltac:(done)). cbn [split_ws2].
    destruct (isspace c) eqn:Ec.
    + assert (r <> EmptyString) as Hne.
      { intros ->. simpl in Hr. by rewrite Ec in Hr. }
      apply IH; try done.
      intros _. by rewrite <- (ends_nonspace_tail c r Hne).
    + assert (r <> EmptyString -> ends_nonspace r = true) as Hr'.
      { intros Hne. by rewrite <- (ends_nonspace_tail c r Hne). }
      destruct (2 <=? String.length pend)%nat.
      * constructor; [done |]. apply IH; try done; simpl; by rewrite Ec.
      * apply IH; try done.
        -- by apply starts_nonspace_app.
        -- rewrite <- app_assoc_str, ends_nonspace_snoc. by rewrite Ec.
Qed.

Lemma re_split_ws2_edges (s : string) :
  starts_nonspace s = true -> ends_nonspace s = true ->
  Forall (fun t => strip t = t) (re_split_ws2 s).
Proof.
  intros Hs He. destruct s as [|c r]; [done |].
  simpl in Hs. apply negb_true_iff in Hs.
  unfold re_split_ws2. cbn [split_ws2]. rewrite Hs. simpl.
  eapply Forall_impl.
  - apply split_ws2_edges; simpl; try done.
    + by rewrite Hs.
    + by rewrite Hs.
    + intros Hne. by rewrite <- (ends_nonspace_tail c r Hne).
  - intros t [H1 H2]. by apply strip_fix.
Qed.

(** ** A2Z_Dimm_Pull.py *)

Lemma re_sub_char_empty (c : ascii) (s : string) :
  re_sub_char c EmptyString s = without_char c s.
Proof.
  induction s as [|x r IH]; simpl; [done |].
  destruct (Ascii.eqb x c); simpl; by rewrite IH.
Qed.

Lemma count_without_char (c d : ascii) (s : string) :
  count_char d (without_char c s)
  = if Ascii.eqb d c then 0%nat else count_char d s.
Proof.
  induction s as [|x r IH]; simpl.
  - by destruct (Ascii.eqb d c).
  - destruct (Ascii.eqb x c) eqn:Exc.
    + rewrite IH. apply Ascii.eqb_eq in Exc as ->.
      destruct (Ascii.eqb d c) eqn:Edc; [done |].
      rewrite Ascii.eqb_sym, Edc. done.
    + simpl. rewrite IH. destruct (Ascii.eqb d c) eqn:Edc; [| done].
      apply Ascii.eqb_eq in Edc as ->. by rewrite Exc.
Qed.

Lemma length_without_char (c : ascii) (s : string) :
  (String.length (without_char c s) + count_char c s)%nat = String.length s.
Proof.
  induction s as [|x r IH]; simpl; [done |].
  destruct (Ascii.eqb x c); simpl; lia.
Qed.

Lemma concat_singletons {A} (l : list A) :
  concat (map (fun x => [x]) l) = l.
Proof. induction l as [|x l IH]; simpl; [done | by rewrite IH]. Qed.

(** C9: every asterisk and nothing but the asterisks is removed from a serial
    fetched from the database: the cleaned serial is the raw one without its
    asterisks, in the same order; it holds no asterisk and as many copies of
    any other character as the raw serial; the serials used afterwards are
    the cleaned ones, row by row; and "A1*-102049*" becomes "A1-102049". *)
Theorem asterisk_stripping (sql_list : list string) (raw : string) (d : ascii) :
  clean_serial raw = without_char "*" raw
  /\ count_char d (clean_serial raw)
     = (if Ascii.eqb d "*" then 0%nat else count_char d raw)
  /\ (String.length (clean_serial raw) + count_char "*" raw)%nat
     = String.length raw
  /\ serial_list sql_list = map clean_serial sql_list
  /\ clean_serial "A1*-102049*" = "A1-102049".
Proof.
  unfold clean_serial. rewrite re_sub_char_empty.
  split; [done |]. split; [apply count_without_char |].
  split; [apply length_without_char |]. split; [| done].
  unfold serial_list, cleaned_sql_list. apply concat_singletons.
Qed.

Lemma columns_of_stripped (line : string) :
  truthy (strip line) = true ->
  Forall (fun t => strip t = t) (columns_of line).
Proof.
  intros H. destruct (strip_edges line H) as [Hs He].
  unfold columns_of. apply Forall_forall. intros t Ht.
  apply list_elem_of_filter in Ht as [_ Ht].
  pose proof (re_split_ws2_edges (strip line) Hs He) as HF.
  rewrite Forall_forall in HF. by apply HF.
Qed.

Lemma py_index_lookup {A} (l : list A) (i : nat) (x : A) :
  l !! i = Some x -> py_index l i = Ok x.
Proof. unfold py_index. by intros ->. Qed.

(** C6, as the code has it: a line of the data file that is not blank is
    first stripped of its leading and trailing whitespace, then split on
    runs of two or more whitespace characters, and the pieces of length at
    most 5 are dropped.  With at least 6 pieces left the line adds exactly
    one record, whose manufacturer, part number and DIMM serial are the 3rd,
    4th and 5th pieces as they stand, and whose system serial is the serial
    the log directory was looked up with; with fewer than 6 pieces it adds
    nothing. *)
Theorem dimm_line_parsing (system_serial line : string) (data : dimm_data) :
  truthy (strip line) = true ->
  let tokens :=
    filter (fun col => (5 < String.length col)%nat)
           (re_split_ws2 (strip line)) in
  ((6 <= length tokens)%nat ->
     exists mfg part ser : string,
       tokens !! 2%nat = Some mfg /\ tokens !! 3%nat = Some part
       /\ tokens !! 4%nat = Some ser
       /\ process_line system_serial line data
          = Ok {| System_Serial := System_Serial data ++ [system_serial];
                  DIMM_Serial := DIMM_Serial data ++ [ser];
                  DIMM_Manufacturer := DIMM_Manufacturer data ++ [mfg];
                  DIMM_Part_Number := DIMM_Part_Number data ++ [part] |}
       /\ directory_path system_serial
          = "//10.246.0.110/pbsv4/pbs_logs/" +:+ system_serial)
  /\ ((length tokens < 6)%nat ->
      process_line system_serial line data = Ok data).
Proof.
  intros Hline tokens.
  pose proof (columns_of_stripped line Hline) as Hstrip.
  unfold process_line. rewrite Hline.
  change (columns_of line) with tokens in *.
  split.
  - intros Hlen.
    destruct (lookup_lt_is_Some_2 tokens 2 ltac:(lia)) as [mfg Hm].
    destruct (lookup_lt_is_Some_2 tokens 3 ltac:(lia)) as [part Hp].
    destruct (lookup_lt_is_Some_2 tokens 4 ltac:(lia)) as [ser Hse].
    exists mfg, part, ser. repeat split; try done.
    apply Nat.leb_le in Hlen. rewrite Hlen.
    rewrite (py_index_lookup _ _ _ Hm), (py_index_lookup _ _ _ Hp),
      (py_index_lookup _ _ _ Hse). simpl.
    rewrite (Forall_lookup_1 _ _ _ _ Hstrip Hm),
      (Forall_lookup_1 _ _ _ _ Hstrip Hp),
      (Forall_lookup_1 _ _ _ _ Hstrip Hse).
    done.
  - intros Hlen. apply Nat.leb_gt in Hlen. by rewrite Hlen.
Qed.

(** C6 as stated fails: split as it stands, a line that starts with one
    blank and a piece of five characters keeps that piece, six characters
    long with the blank, and has 6 pieces left; the code strips the line
    first, drops the piece, has 5 left and adds no record. *)
Lemma dimm_line_parsing_counterexample :
  truthy (strip dimm_line_after_blank) = true
  /\ columns_unstripped dimm_line_after_blank
     = [" DIMM1"; "BANK-000"; "SAMSUNG-MFG"; "PARTNUM123"; "000123456";
        "4800MHz"]
  /\ (6 <= length (columns_unstripped dimm_line_after_blank))%nat
  /\ columns_of dimm_line_after_blank
     = ["BANK-000"; "SAMSUNG-MFG"; "PARTNUM123"; "000123456"; "4800MHz"]
  /\ process_line "A1-102049" dimm_line_after_blank empty_data
     = Ok empty_data.
Proof. repeat split. vm_compute. lia. Qed.

(** On a line without whitespace at either end the two ways of splitting
    agree. *)
Lemma columns_unstripped_clean (line : string) :
  starts_nonspace line = true -> ends_nonspace line = true ->
  columns_unstripped line = columns_of line.
Proof.
  intros Hs He. unfold columns_unstripped, columns_of.
  by rewrite (strip_fix line Hs He).
Qed.

(** A blank line adds nothing. *)
Lemma process_line_blank (system_serial line : string) (data : dimm_data) :
  truthy (strip line) = false ->
  process_line system_serial line data = Ok data.
Proof. intros H. unfold process_line. by rewrite H. Qed.

(** No line makes the loop raise. *)
Lemma process_line_returns (system_serial line : string) (data : dimm_data) :
  exists data', process_line system_serial line data = Ok data'.
Proof.
  unfold process_line. destruct (truthy (strip line)); [| by eexists].
  destruct (6 <=? length (columns_of line))%nat eqn:Hlen; [| by eexists].
  apply Nat.leb_le in Hlen.
  destruct (lookup_lt_is_Some_2 (columns_of line) 2 ltac:(lia)) as [c2 H2].
  destruct (lookup_lt_is_Some_2 (columns_of line) 3 ltac:(lia)) as [c3 H3].
  destruct (lookup_lt_is_Some_2 (columns_of line) 4 ltac:(lia)) as [c4 H4].
  rewrite (py_index_lookup _ _ _ H2), (py_index_lookup _ _ _ H3),
    (py_index_lookup _ _ _ H4). by eexists.
Qed.

(** The header line is skipped, the DIMM line gives its row, the blank line
    and the short line give none. *)
Example process_file_example :
  process_file "A1-102049" dimm_file empty_data
  = Ok (mk_dimm_data ["A1-102049"] ["000123456"] ["SAMSUNG-MFG"]
          ["PARTNUM123"]).
Proof. reflexivity. Qed.

Lemma dimm_line_parsing_witness :
  truthy (strip dimm_line) = true
  /\ process_line "A1-102049" dimm_line empty_data
     = Ok (mk_dimm_data ["A1-102049"] ["000123456"] ["SAMSUNG-MFG"]
             ["PARTNUM123"]).
Proof.
  split; [reflexivity |].
  destruct (dimm_line_parsing "A1-102049" dimm_line empty_data eq_refl)
    as [Hyes _].
  destruct (Hyes ltac:(vm_compute; lia))
    as (mfg & part & ser & H2 & H3 & H4 & Hp & _).
  vm_compute in H2, H3, H4.
  injection H2 as <-. injection H3 as <-. injection H4 as <-.
  exact Hp.
Defined.

(** ** Lenovo_Redfish.py: reading KEY.txt *)

Lemma rstrip_nonspace_head (c : ascii) (r : string) :
  isspace c = false -> rstrip (String c r) <> EmptyString.
Proof.
  intros Hc. simpl. destruct (rstrip r); [by rewrite Hc | done].
Qed.

Lemma strip_empty_not_comment (line : string) :
  strip line = EmptyString -> is_comment line = false.
Proof.
  destruct line as [|c r]; [done |].
  simpl. destruct (Ascii.eqb c "#") eqn:E; [| done].
  apply Ascii.eqb_eq in E as ->. unfold strip.
  change (lstrip (String "#" r)) with (String "#" r).
  intros H. by apply rstrip_nonspace_head in H.
Qed.

Lemma parse_input_file_outcome (lines ips sers : list string) :
  (exists r, parse_input_file lines ips sers = Ok r)
  \/ parse_input_file lines ips sers = Raise (SystemExit (Some 1)).
Proof.
  revert ips sers. induction lines as [|line rest IH]; intros ips sers.
  - left. by eexists.
  - cbn [parse_input_file]. destruct (is_comment line); [apply IH |].
    destruct (py_split (strip line)) as [|ip [|ser [|x tokens]]];
      try (by right).
    apply IH.
Qed.

Lemma parse_input_file_blank (before : list string) :
  forall (line : string) (rest ips sers : list string),
    strip line = EmptyString ->
    parse_input_file (before ++ line :: rest) ips sers
    = Raise (SystemExit (Some 1)).
Proof.
  induction before as [|l before IH]; intros line rest ips sers Hblank.
  - cbn [app parse_input_file].
    rewrite (strip_empty_not_comment line Hblank), Hblank. done.
  - cbn [app parse_input_file]. destruct (is_comment l); [by apply IH |].
    destruct (py_split (strip l)) as [|ip [|ser [|x tokens]]]; try done.
    by apply IH.
Qed.

(** C10: a line of KEY.txt is a comment exactly when its first raw character
    is '#', and a comment is skipped.  Any other line either splits into
    exactly two tokens, which are appended to the two lists, or aborts the
    run with exit status 1.  A blank or whitespace-only line is no comment
    and has no token, so a file that holds one aborts, whatever comes before
    and after it. *)
Theorem input_file_edge_cases (line : string) (rest ips sers : list string) :
  (is_comment line = true <-> exists r, line = String "#" r)
  /\ (is_comment line = true ->
      parse_input_file (line :: rest) ips sers
      = parse_input_file rest ips sers)
  /\ (is_comment line = false ->
      match py_split (strip line) with
      | [ip; ix_serial] =>
          parse_input_file (line :: rest) ips sers
          = parse_input_file rest (ips ++ [ip]) (sers ++ [ix_serial])
      | _ =>
          parse_input_file (line :: rest) ips sers
          = Raise (SystemExit (Some 1))
      end)
  /\ (strip line = EmptyString ->
      is_comment line = false
      /\ py_split (strip line) = []
      /\ forall before,
          parse_input_file (before ++ line :: rest) ips sers
          = Raise (SystemExit (Some 1))).
Proof.
  repeat split.
  - destruct line as [|c r]; [done |]. simpl.
    intros H. apply Ascii.eqb_eq in H as ->. by exists r.
  - intros [r ->]. done.
  - intros H. cbn [parse_input_file]. by rewrite H.
  - intros H. cbn [parse_input_file]. rewrite H.
    by destruct (py_split (strip line)) as [|ip [|ser [|x tokens]]].
  - by apply strip_empty_not_comment.
  - by rewrite H.
  - intros before. by apply parse_input_file_blank.
Qed.

Lemma input_file_edge_cases_witness :
  strip (String "010" EmptyString) = EmptyString
  /\ parse_input_file
       ["10.48.143.80 A1-102049"; String "010" EmptyString;
        "10.48.133.155 A1-102050"] [] []
     = Raise (SystemExit (Some 1))
  /\ parse_input_file ["#10.48.143.80 A1-102049"; "10.48.133.155 A1-102050"]
       [] []
     = Ok (["10.48.133.155"], ["A1-102050"]).
Proof.
  split; [reflexivity |]. split.
  - destruct (input_file_edge_cases (String "010" EmptyString)
                ["10.48.133.155 A1-102050"] [] [])
      as (_ & _ & _ & Hblank).
    destruct (Hblank eq_refl) as (_ & _ & Habort).
    exact (Habort ["10.48.143.80 A1-102049"]).
  - destruct (input_file_edge_cases "#10.48.143.80 A1-102049"
                ["10.48.133.155 A1-102050"] [] [])
      as (_ & Hskip & _).
    rewrite (Hskip eq_refl). reflexivity.
Defined.

(** ** Lenovo_Redfish.py: the Redfish reader *)

Lemma field_null_spec (kvs : list (string * pyval)) (key : string) :
  field_null kvs key = is_None (field_or_empty kvs key).
Proof.
  unfold field_null, field_or_empty. by destruct (assoc key kvs) as [[]|].
Qed.

Lemma memory_record_entries (kvs : list (string * pyval))
  (acc : list part_info) :
  memory_record (PDict kvs) acc = Ok (acc ++ memory_entries kvs).
Proof.
  unfold memory_record, memory_entries. rewrite !field_null_spec.
  unfold dict_get, field_or_empty.
  destruct (assoc "Manufacturer" kvs), (assoc "PartNumber" kvs) as [pn|],
    (assoc "SerialNumber" kvs) as [sn|]; simpl;
    try destruct (is_None pn); try destruct (is_None sn); simpl;
    by rewrite ?app_nil_r.
Qed.

Lemma memory_step_entries (requests_get : string -> result response)
  (base_url link : string) (member : pyval) (kvs : list (string * pyval))
  (acc : list part_info) :
  dict_get member "@odata.id" empty_str = Ok (PStr link) ->
  get_http_response_body requests_get (base_url +:+ link) = Ok (PDict kvs) ->
  memory_step requests_get base_url member acc
  = Ok (acc ++ memory_entries kvs).
Proof.
  intros Hl Hb. unfold memory_step. rewrite Hl. simpl. rewrite Hb. simpl.
  apply memory_record_entries.
Qed.

(** The memory loop, when every member carries a link and every link is
    answered with a JSON object. *)
Lemma memory_loop_entries (requests_get : string -> result response)
  (base_url : string) (members : list pyval)
  (bodies : list (list (string * pyval))) :
  Forall2 (fun member kvs =>
             exists link,
               dict_get member "@odata.id" empty_str = Ok (PStr link)
               /\ get_http_response_body requests_get (base_url +:+ link)
                  = Ok (PDict kvs))
          members bodies ->
  forall acc,
    for_each (memory_step requests_get base_url) members acc
    = Ok (acc ++ concat (map memory_entries bodies)).
Proof.
  induction 1 as [|member kvs members bodies (link & Hl & Hb) _ IH];
    intros acc.
  - simpl. by rewrite app_nil_r.
  - cbn [for_each map concat].
    rewrite (memory_step_entries _ _ _ _ _ _ Hl Hb). simpl. rewrite IH.
    by rewrite <- app_assoc.
Qed.

(** C3, as the code has it: a memory body is skipped exactly when its part
    number and its serial are both there and both JSON null; then it adds no
    record, and in every other case exactly one, with the empty string for
    a key that is missing.  The memory list of a system is these records,
    body after body. *)
Theorem memory_slot_skip (requests_get : string -> result response)
  (base_url : string) (members : list pyval)
  (bodies : list (list (string * pyval))) (acc : list part_info) :
  Forall2 (fun member kvs =>
             exists link,
               dict_get member "@odata.id" empty_str = Ok (PStr link)
               /\ get_http_response_body requests_get (base_url +:+ link)
                  = Ok (PDict kvs))
          members bodies ->
  Forall (fun kvs =>
            memory_record (PDict kvs) acc = Ok (acc ++ memory_entries kvs)
            /\ length (memory_entries kvs)
               = (if field_null kvs "PartNumber"
                     && field_null kvs "SerialNumber"
                  then 0 else 1)%nat)
         bodies
  /\ for_each (memory_step requests_get base_url) members acc
     = Ok (acc ++ concat (map memory_entries bodies)).
Proof.
  intros H. split.
  - apply Forall_forall. intros kvs _. split.
    + apply memory_record_entries.
    + unfold memory_entries.
      by destruct (field_null kvs "PartNumber"
                   && field_null kvs "SerialNumber").
  - by apply memory_loop_entries.
Qed.

Lemma memory_slot_skip_witness :
  for_each (memory_step world_two_slots "https://10.48.143.80")
    [PDict [("@odata.id", PStr "/redfish/v1/Systems/1/Memory/1")];
     PDict [("@odata.id", PStr "/redfish/v1/Systems/1/Memory/2")]] []
  = Ok [mk_part_info (PStr "Samsung") (PStr "M321R4GA3BB6-CQKET")
          (PStr "00C1A2B3")].
Proof.
  refine (proj2 (memory_slot_skip world_two_slots "https://10.48.143.80"
    [PDict [("@odata.id", PStr "/redfish/v1/Systems/1/Memory/1")];
     PDict [("@odata.id", PStr "/redfish/v1/Systems/1/Memory/2")]]
    [ [("Manufacturer", PStr "Samsung");
       ("PartNumber", PStr "M321R4GA3BB6-CQKET");
       ("SerialNumber", PStr "00C1A2B3")];
      [("Manufacturer", PNone); ("PartNumber", PNone);
       ("SerialNumber", PNone)] ] [] _)).
  repeat constructor.
  - exists "/redfish/v1/Systems/1/Memory/1". split; reflexivity.
  - exists "/redfish/v1/Systems/1/Memory/2". split; reflexivity.
Defined.

(** C3 as stated fails: a body from which part number and serial are both
    missing, such as the empty dict that stands for a failed request or an
    object with other keys only, adds a record of empty strings. *)
Lemma memory_slot_skip_counterexample :
  field_absent (PDict []) "PartNumber" = true
  /\ field_absent (PDict []) "SerialNumber" = true
  /\ memory_record (PDict []) []
     = Ok [mk_part_info empty_str empty_str empty_str]
  /\ memory_step world_error_status "https://10.48.143.80"
       (PDict [("@odata.id", PStr "/redfish/v1/Systems/1/Memory/1")]) []
     = Ok [mk_part_info empty_str empty_str empty_str]
  /\ field_absent (PDict [("Id", PStr "2"); ("Name", PStr "DIMM 2")])
       "PartNumber" = true
  /\ field_absent (PDict [("Id", PStr "2"); ("Name", PStr "DIMM 2")])
       "SerialNumber" = true
  /\ memory_record (PDict [("Id", PStr "2"); ("Name", PStr "DIMM 2")]) []
     = Ok [mk_part_info empty_str empty_str empty_str].
Proof. repeat split. Qed.

(** What [get_http_response_body] returns for a request that is answered:
    the decoded body of an answer with a success status, the empty dict for
    an error status or a body that does not decode. *)
Lemma get_http_response_body_answered
  (requests_get : string -> result response) (url : string) (r : response) :
  requests_get url = Ok r ->
  get_http_response_body requests_get url
  = Ok (if ok r then match json r with Some body => body | None => PDict [] end
        else PDict []).
Proof.
  intros H. unfold get_http_response_body. rewrite H. simpl.
  destruct (ok r); [| done]. by destruct (json r).
Qed.

(** C5 at its failing inputs: a request that gets no answer makes
    [requests.get], and with it [get_http_response_body], raise; a request
    answered with status 200 and a JSON text that is not an object makes
    [get_http_response_body] return a value that is no dict; either way
    [parse_system_components] raises. *)
Theorem http_leniency_fails :
  get_http_response_body world_unreachable
    "https://10.48.143.80/redfish/v1/Chassis/1" = Raise RequestException
  /\ parse_system_components world_unreachable "10.48.143.80"
     = Raise RequestException
  /\ get_http_response_body world_json_list
       "https://10.48.143.80/redfish/v1/Chassis/1" = Ok (PList [])
  /\ parse_system_components world_json_list "10.48.143.80"
     = Raise (AttributeError "get").
Proof. repeat split. Qed.

Example nic_mac_name_examples :
  nic_mac_name 1 = "NIC 1 MAC" /\ nic_mac_name 12 = "NIC 12 MAC".
Proof. split; reflexivity. Qed.

Lemma mac_step_kept (requests_get : string -> result response)
  (base_url link : string) (member : pyval) (kvs : list (string * pyval))
  (n : nat) (macs : list mac_info) :
  dict_get member "@odata.id" empty_str = Ok (PStr link) ->
  str_contains "NIC" link = true ->
  get_http_response_body requests_get (base_url +:+ link) = Ok (PDict kvs) ->
  mac_step requests_get base_url member (n, macs)
  = Ok (S n,
        macs ++ [mk_mac_info (nic_mac_name n)
                   (permanent_mac requests_get (base_url +:+ link))]).
Proof.
  intros Hl Hc Hb. unfold mac_step, permanent_mac. rewrite Hl. simpl.
  rewrite Hc. simpl. rewrite Hb. simpl.
  unfold field_or_empty. by destruct (assoc "PermanentMACAddress" kvs).
Qed.

Lemma mac_step_skipped (requests_get : string -> result response)
  (base_url link : string) (member : pyval) (n : nat)
  (macs : list mac_info) :
  dict_get member "@odata.id" empty_str = Ok (PStr link) ->
  str_contains "NIC" link = false ->
  mac_step requests_get base_url member (n, macs) = Ok (n, macs).
Proof.
  intros Hl Hc. unfold mac_step. rewrite Hl. simpl. by rewrite Hc.
Qed.

Lemma nic_macs_kept (requests_get : string -> result response)
  (base_url link : string) (n : nat) (links : list string) :
  str_contains "NIC" link = true ->
  nic_macs requests_get base_url n (link :: links)
  = mk_mac_info (nic_mac_name n)
      (permanent_mac requests_get (base_url +:+ link))
    :: nic_macs requests_get base_url (S n) links.
Proof. intros H. unfold nic_macs. simpl. rewrite H. done. Qed.

Lemma nic_macs_skipped (requests_get : string -> result response)
  (base_url link : string) (n : nat) (links : list string) :
  str_contains "NIC" link = false ->
  nic_macs requests_get base_url n (link :: links)
  = nic_macs requests_get base_url n links.
Proof. intros H. unfold nic_macs. simpl. rewrite H. done. Qed.

(** The interface loop: the counter advances once for every link that is
    kept. *)
Lemma mac_loop_numbered (requests_get : string -> result response)
  (base_url : string) (members : list pyval) (links : list string) :
  Forall2 (fun member link =>
             dict_get member "@odata.id" empty_str = Ok (PStr link)
             /\ (str_contains "NIC" link = true ->
                 exists kvs,
                   get_http_response_body requests_get (base_url +:+ link)
                   = Ok (PDict kvs)))
          members links ->
  forall (n : nat) (macs : list mac_info),
    for_each (mac_step requests_get base_url) members (n, macs)
    = Ok ((n + length (List.filter (str_contains "NIC") links))%nat,
          macs ++ nic_macs requests_get base_url n links).
Proof.
  induction 1 as [|member link members links [Hl Hb] _ IH]; intros n macs.
  - simpl. rewrite app_nil_r. do 2 f_equal. lia.
  - cbn [for_each List.filter]. destruct (str_contains "NIC" link) eqn:Hc.
    + destruct (Hb eq_refl) as [kvs Hk].
      rewrite (mac_step_kept _ _ _ _ _ _ _ Hl Hc Hk). simpl. rewrite IH.
      rewrite (nic_macs_kept _ _ _ _ _ Hc), <- app_assoc. simpl.
      do 2 f_equal. lia.
    + rewrite (mac_step_skipped _ _ _ _ _ _ Hl Hc). simpl. rewrite IH.
      by rewrite (nic_macs_skipped _ _ _ _ _ Hc).
Qed.

Lemma nic_macs_names (requests_get : string -> result response)
  (base_url : string) (links : list string) (n : nat) :
  map name (nic_macs requests_get base_url n links)
  = map nic_mac_name
      (seq n (length (List.filter (str_contains "NIC") links))).
Proof.
  unfold nic_macs.
  generalize (List.filter (str_contains "NIC") links) as kept.
  intros kept. revert n. induction kept as [|link kept IH]; intros n.
  - done.
  - simpl. by rewrite IH.
Qed.

(** C8: of the ethernet interfaces the system endpoint lists, those whose
    link does not hold "NIC" (the link to the management controller) are
    left out, and the others get, in the order of the list, the names
    "NIC 1 MAC", "NIC 2 MAC", ... without a gap, whatever was left out in
    between. *)
Theorem nic_mac_enumeration (requests_get : string -> result response)
  (base_url : string) (top : list (string * pyval)) (members : list pyval)
  (links : list string) :
  get_http_response_body requests_get
    (base_url +:+ "/redfish/v1/Systems/1/EthernetInterfaces")
  = Ok (PDict top) ->
  assoc "Members" top = Some (PList members) ->
  Forall2 (fun member link =>
             dict_get member "@odata.id" empty_str = Ok (PStr link)
             /\ (str_contains "NIC" link = true ->
                 exists kvs,
                   get_http_response_body requests_get (base_url +:+ link)
                   = Ok (PDict kvs)))
          members links ->
  let kept := List.filter (str_contains "NIC") links in
  nic_mac_block requests_get base_url
  = Ok (nic_macs requests_get base_url 1 links)
  /\ map name (nic_macs requests_get base_url 1 links)
     = map nic_mac_name (seq 1 (length kept))
  /\ map mac_value (nic_macs requests_get base_url 1 links)
     = map (fun link => permanent_mac requests_get (base_url +:+ link)) kept
  /\ nic_mac_name 1 = "NIC 1 MAC" /\ nic_mac_name 2 = "NIC 2 MAC"
  /\ nic_mac_name 10 = "NIC 10 MAC".
Proof.
  intros Htop Hmem Hall kept. split; [| split; [| split]].
  - unfold nic_mac_block. rewrite Htop. simpl. rewrite Hmem. simpl.
    unfold loop_unless_empty. simpl.
    destruct members as [|member members].
    + apply Forall2_nil_inv_l in Hall as ->. done.
    + simpl length. cbn [Nat.eqb]. cbn [py_iter]. simpl mbind at 1.
      change (for_each (mac_step requests_get base_url)
                (member :: members) (1%nat, [])
              ≫= (fun st => Ok (snd st))
              = Ok (nic_macs requests_get base_url 1 links)).
      rewrite (mac_loop_numbered _ _ _ _ Hall). done.
  - apply nic_macs_names.
  - unfold nic_macs. fold kept. generalize 1%nat as n.
    induction kept as [|link kept' IH]; intros n; [done |].
    simpl. by rewrite IH.
  - done.
Qed.

Lemma nic_mac_enumeration_witness :
  nic_mac_block world_three_links "https://10.48.143.80"
  = Ok [mk_mac_info "NIC 1 MAC" (PStr "7c:8c:09:a5:00:01");
        mk_mac_info "NIC 2 MAC" (PStr "7c:8c:09:a5:00:02")].
Proof.
  refine (proj1 (nic_mac_enumeration world_three_links "https://10.48.143.80"
    [("Members", PList
        [PDict [("@odata.id",
                 PStr "/redfish/v1/Systems/1/EthernetInterfaces/NIC1")];
         PDict [("@odata.id",
                 PStr "/redfish/v1/Systems/1/EthernetInterfaces/ToHost")];
         PDict [("@odata.id",
                 PStr "/redfish/v1/Systems/1/EthernetInterfaces/NIC2")]])]
    _
    ["/redfish/v1/Systems/1/EthernetInterfaces/NIC1";
     "/redfish/v1/Systems/1/EthernetInterfaces/ToHost";
     "/redfish/v1/Systems/1/EthernetInterfaces/NIC2"]
    eq_refl eq_refl _)).
  repeat constructor.
  - intros _. by eexists.
  - intros H. discriminate H.
  - intros _. by eexists.
Defined.

(** ** Lenovo_Redfish.py: the STD database *)

Lemma query_healthy (stmt : statement) (st : StdDatabase) :
  healthy st ->
  query stmt st
  = match execute stmt (add_event (EvExecute stmt) st) with
    | Some (rows, st2) => (Ok rows, st2)
    | None =>
        (_ ← close false; sys_exit (Some 1)) (add_event (EvExecute stmt) st)
    end.
Proof.
  intros [Hc He]. unfold query. by rewrite Hc, He.
Qed.

Lemma healthy_add_event (ev : event) (st : StdDatabase) :
  healthy st -> healthy (add_event ev st).
Proof. by intros [? ?]. Qed.

Lemma select_part_matching (system_id : Z) (part_model part_serial : string)
  (t : tables) :
  select_part system_id part_model part_serial (production_part t)
  = map col_id (matching_parts system_id part_model part_serial t).
Proof. done. Qed.

Lemma part_matches_new_row (id system_id : Z)
  (part_model part_serial : string) (type_id manufacturer_id : Z) :
  part_matches system_id part_model part_serial
    (new_part_row id system_id part_model part_serial type_id
       manufacturer_id) = true.
Proof.
  unfold part_matches. simpl.
  by rewrite Z.eqb_refl, !String.eqb_refl.
Qed.

(** [insert_part] when a matching row is there: one select, nothing else. *)
Lemma insert_part_found (st : StdDatabase) (system_id : Z)
  (part_model part_serial : string) (type_id manufacturer_id : Z)
  (row : part_row) (rows : list part_row) :
  healthy st ->
  matching_parts system_id part_model part_serial (working st)
  = row :: rows ->
  insert_part system_id (PStr part_model) (PStr part_serial) type_id
    manufacturer_id st
  = (Ok (col_id row),
     add_event
       (EvExecute (SelectPart system_id (PStr part_model) (PStr part_serial)))
       st).
Proof.
  intros Hh Hm. unfold insert_part.
  unfold mbind at 1, dbm_bind. rewrite (query_healthy _ _ Hh).
  cbn [execute text_of add_event working]. rewrite select_part_matching, Hm.
  reflexivity.
Qed.

Lemma log_insert_logged (key : string) (id : Z) (st : StdDatabase) :
  log_insert key id st
  = (Ok tt,
     set_insert_log (<[key := logged key st ++ [id]]> (insert_log st)) st).
Proof.
  unfold log_insert, logged. by destruct (insert_log st !! key).
Qed.

(** [insert_part] when no matching row is there: a select, then the
    insert. *)
Lemma insert_part_new (st : StdDatabase) (system_id : Z)
  (part_model part_serial : string) (type_id manufacturer_id : Z) :
  healthy st ->
  matching_parts system_id part_model part_serial (working st) = [] ->
  insert_part system_id (PStr part_model) (PStr part_serial) type_id
    manufacturer_id st
  = (Ok (part_seq st),
     after_insert_part st system_id part_model part_serial type_id
       manufacturer_id).
Proof.
  intros Hh Hm. unfold insert_part.
  unfold mbind at 1, dbm_bind. rewrite (query_healthy _ _ Hh).
  cbn [execute text_of add_event working]. rewrite select_part_matching, Hm.
  cbn [map length Nat.eqb].
  unfold mbind at 1, dbm_bind. unfold mbind at 1, dbm_bind.
  rewrite (query_healthy _ _ (healthy_add_event _ _ Hh)).
  cbn [execute text_of]. unfold mbind at 1, dbm_bind.
  cbn [lift py_index lookup list_lookup]. unfold mbind at 1, dbm_bind.
  rewrite log_insert_logged. cbn [mret dbm_ret lift py_index].
  unfold lift, set_insert_log, bump_part_seq, set_working, add_event,
    after_insert_part, logged, new_part_row. simpl.
  by rewrite <- app_assoc.
Qed.

Lemma matching_parts_after_insert (st : StdDatabase) (system_id : Z)
  (part_model part_serial : string) (type_id manufacturer_id : Z) :
  matching_parts system_id part_model part_serial
    (working (after_insert_part st system_id part_model part_serial type_id
                manufacturer_id))
  = matching_parts system_id part_model part_serial (working st)
    ++ [new_part_row (part_seq st) system_id part_model part_serial type_id
          manufacturer_id].
Proof.
  unfold matching_parts. simpl. rewrite List.filter_app. simpl.
  by rewrite part_matches_new_row.
Qed.

(** C1: with a healthy connection, [insert_part] on a store that holds a
    matching row sends one select, inserts nothing, logs nothing and returns
    the id of the first matching row; on a store that holds none it appends
    exactly one row, made of the given attributes and the fixed defaults,
    logs its id and returns it.  A second call with the same input, on any
    object that sees the tables the first call left, changes neither the
    tables nor the insert log, so a log that starts empty stays empty, and
    returns the same id; a store that had at most one matching row then has
    exactly one. *)
Theorem upserter_idempotence (st : StdDatabase) (system_id : Z)
  (part_model part_serial : string) (type_id manufacturer_id : Z) :
  healthy st ->
  let call :=
    insert_part system_id (PStr part_model) (PStr part_serial) type_id
      manufacturer_id in
  let hits := matching_parts system_id part_model part_serial in
  (forall row rows,
     hits (working st) = row :: rows ->
     (call st).1 = Ok (col_id row)
     /\ working (call st).2 = working st
     /\ committed (call st).2 = committed st
     /\ insert_log (call st).2 = insert_log st
     /\ List.filter is_execute (drop (length (events st)) (events (call st).2))
        = [EvExecute
             (SelectPart system_id (PStr part_model) (PStr part_serial))])
  /\ (hits (working st) = [] ->
      (call st).1 = Ok (part_seq st)
      /\ working (call st).2
         = add_part (new_part_row (part_seq st) system_id part_model
                       part_serial type_id manufacturer_id) (working st)
      /\ committed (call st).2 = committed st
      /\ insert_log (call st).2
         = <["production_part" :=
              logged "production_part" st ++ [part_seq st]]> (insert_log st)
      /\ hits (working (call st).2)
         = [new_part_row (part_seq st) system_id part_model part_serial
              type_id manufacturer_id])
  /\ (forall st2,
       healthy st2 -> working st2 = working (call st).2 ->
       (call st2).1 = (call st).1
       /\ working (call st2).2 = working st2
       /\ insert_log (call st2).2 = insert_log st2
       /\ (insert_log st2 = ∅ -> insert_log (call st2).2 = ∅)
       /\ length (hits (working (call st2).2))
          = Nat.max 1 (length (hits (working st)))
       /\ ((length (hits (working st)) <= 1)%nat ->
           length (hits (working (call st2).2)) = 1%nat)).
Proof.
  intros Hh call hits.
  assert (hits (working st) = [] ->
          hits (working (call st).2)
          = [new_part_row (part_seq st) system_id part_model part_serial
               type_id manufacturer_id]) as Hone.
  { intros Hm. unfold call. rewrite (insert_part_new _ _ _ _ _ _ Hh Hm).
    cbn [snd]. unfold hits. rewrite matching_parts_after_insert.
    fold hits. by rewrite Hm. }
  split; [| split].
  - intros row rows Hm. unfold call.
    rewrite (insert_part_found _ _ _ _ _ _ _ _ Hh Hm). cbn [fst snd].
    repeat split; try done.
    cbn [events add_event]. by rewrite drop_app_length.
  - intros Hm. split; [| split; [| split; [| split]]]; [..| by apply Hone];
      unfold call; by rewrite (insert_part_new _ _ _ _ _ _ Hh Hm).
  - intros st2 Hh2 Hw.
    destruct (hits (working st)) as [|row rows] eqn:Hm.
    + specialize (Hone eq_refl). rewrite <- Hw in Hone.
      assert (call st2
              = (Ok (part_seq st),
                 add_event
                   (EvExecute (SelectPart system_id (PStr part_model)
                                 (PStr part_serial))) st2)) as Hc2.
      { unfold call. by rewrite (insert_part_found _ _ _ _ _ _ _ _ Hh2 Hone). }
      assert ((call st).1 = Ok (part_seq st)) as Hc1.
      { unfold call. by rewrite (insert_part_new _ _ _ _ _ _ Hh Hm). }
      rewrite Hc2, Hc1. cbn [fst snd working add_event insert_log].
      fold hits. rewrite Hone. by split_and!.
    + assert (hits (working st2) = row :: rows) as Hm2.
      { rewrite Hw. unfold call.
        by rewrite (insert_part_found _ _ _ _ _ _ _ _ Hh Hm). }
      assert (call st2
              = (Ok (col_id row),
                 add_event
                   (EvExecute (SelectPart system_id (PStr part_model)
                                 (PStr part_serial))) st2)) as Hc2.
      { unfold call. by rewrite (insert_part_found _ _ _ _ _ _ _ _ Hh2 Hm2). }
      assert ((call st).1 = Ok (col_id row)) as Hc1.
      { unfold call. by rewrite (insert_part_found _ _ _ _ _ _ _ _ Hh Hm). }
      rewrite Hc2, Hc1. cbn [fst snd working add_event insert_log].
      fold hits. rewrite Hm2. split_and!; try done; simpl; lia.
Qed.

Lemma sample_std_healthy : healthy sample_std.
Proof. by split. Qed.

Lemma upserter_idempotence_witness :
  healthy sample_std
  /\ (insert_part 7 (PStr "Intel(R) Xeon(R) Gold 6430") (PStr "CPU0001") 10 2
        sample_std).1 = Ok 100
  /\ working
       (insert_part 7 (PStr "Intel(R) Xeon(R) Gold 6430") (PStr "CPU0001")
          10 2 sample_std).2 = sample_tables
  /\ (insert_part 7 (PStr "M321R4GA3BB6-CQKET") (PStr "00C1A2B3") 11 4
        sample_std).1 = Ok 101.
Proof.
  split; [exact sample_std_healthy |].
  destruct (upserter_idempotence sample_std 7 "Intel(R) Xeon(R) Gold 6430"
              "CPU0001" 10 2 sample_std_healthy) as (Hfound & _ & _).
  destruct (Hfound (new_part_row 100 7 "Intel(R) Xeon(R) Gold 6430"
                      "CPU0001" 10 2) [] eq_refl) as (H1 & H2 & _).
  destruct (upserter_idempotence sample_std 7 "M321R4GA3BB6-CQKET"
              "00C1A2B3" 11 4 sample_std_healthy) as (_ & Hnew & _).
  destruct (Hnew eq_refl) as (H3 & _).
  split; [exact H1 |]. split; [exact H2 | exact H3].
Defined.

(** ** Lenovo_Redfish.py: what a method can do to the transaction *)

Lemma dbm_bind_unfold {A B} (m : dbm A) (k : A -> dbm B) (st : StdDatabase) :
  (m ≫= k) st
  = match m st with
    | (Ok a, st') => k a st'
    | (Raise e, st') => (Raise e, st')
    end.
Proof. reflexivity. Qed.

Lemma dbm_bind_ok {A B} (m : dbm A) (k : A -> dbm B) (st st' : StdDatabase)
  (b : B) :
  (m ≫= k) st = (Ok b, st') ->
  exists a st1, m st = (Ok a, st1) /\ k a st1 = (Ok b, st').
Proof.
  rewrite dbm_bind_unfold. destruct (m st) as [[a|e] st1]; [| done].
  intros H. by exists a, st1.
Qed.

Lemma no_commit_since_refl (st : StdDatabase) : no_commit_since st st.
Proof. by split_and!. Qed.

Lemma no_commit_since_trans (st0 st1 st2 : StdDatabase) :
  no_commit_since st0 st1 -> no_commit_since st1 st2 ->
  no_commit_since st0 st2.
Proof.
  intros (H1 & H2 & H3) (H4 & H5 & H6). split_and!; [congruence.. | auto].
Qed.

Lemma quiet_ret {A} (a : A) : quiet (mret a : dbm A).
Proof. intros st. apply no_commit_since_refl. Qed.

Lemma quiet_raise {A} (e : exn) : quiet (raise e : dbm A).
Proof. intros st. apply no_commit_since_refl. Qed.

Lemma quiet_lift {A} (r : result A) : quiet (lift r).
Proof. intros st. apply no_commit_since_refl. Qed.

Lemma quiet_bind {A B} (m : dbm A) (k : A -> dbm B) :
  quiet m -> (forall a, quiet (k a)) -> quiet (m ≫= k).
Proof.
  intros Hm Hk st. rewrite dbm_bind_unfold.
  specialize (Hm st). destruct (m st) as [[a|e] st1]; [| done].
  eapply no_commit_since_trans; [exact Hm | apply Hk].
Qed.

Lemma quiet_if {A} (c : bool) (m1 m2 : dbm A) :
  quiet m1 -> quiet m2 -> quiet (if c then m1 else m2).
Proof. by destruct c. Qed.

Lemma quiet_for_each_db {A} (f : A -> dbm unit) (l : list A) :
  (forall x, quiet (f x)) -> quiet (for_each_db f l).
Proof.
  intros Hf. induction l as [|x l IH]; simpl.
  - apply quiet_ret.
  - apply quiet_bind; [apply Hf | intros _; apply IH].
Qed.

Lemma filter_is_commit_snoc (evs : list event) (ev : event) :
  is_commit ev = false ->
  List.filter is_commit (evs ++ [ev]) = List.filter is_commit evs.
Proof.
  intros H. rewrite List.filter_app. simpl. rewrite H. apply app_nil_r.
Qed.

Lemma quiet_rollback : quiet rollback.
Proof.
  intros st. unfold rollback. destruct (closed st); simpl.
  - apply no_commit_since_refl.
  - split_and!; [done | by apply filter_is_commit_snoc |].
    by intros _ _.
Qed.

Lemma quiet_connection_close : quiet connection_close.
Proof.
  intros st. split_and!; [done | by apply filter_is_commit_snoc |].
  by intros _ _.
Qed.

Lemma quiet_close : quiet (close false).
Proof.
  apply quiet_bind; [apply quiet_rollback |].
  intros _. apply quiet_connection_close.
Qed.

Lemma quiet_sys_exit {A} (code : option Z) : quiet (sys_exit code : dbm A).
Proof. apply quiet_raise. Qed.

Lemma quiet_fatal {A} (code : option Z) :
  quiet (_ ← close false; (sys_exit code : dbm A)).
Proof.
  apply quiet_bind; [apply quiet_close | intros _; apply quiet_sys_exit].
Qed.

Lemma execute_quiet (stmt : statement) (st st' : StdDatabase)
  (rows : list Z) :
  execute stmt st = Some (rows, st') ->
  committed st' = committed st /\ events st' = events st
  /\ closed st' = closed st /\ insert_log st' = insert_log st
  /\ extends (working st) (working st').
Proof.
  assert (extends (working st) (working st)) as Hrefl.
  { unfold extends. split_and!; try done; exists []; by rewrite app_nil_r. }
  destruct stmt as [s | s | s | sid pm ps | sid ps pm tid mid isn sn r rv prv
                   | sid mn | sid mn ma]; simpl;
    try (intros [= <- <-]; split_and!; done).
  - destruct (text_of pm), (text_of ps); try done.
    intros [= <- <-]. split_and!; done.
  - destruct (text_of pm), (text_of ps); try done.
    intros [= <- <-]. simpl. split_and!; try done.
    unfold extends. simpl. split_and!; try done; [by eexists |].
    exists []. by rewrite app_nil_r.
  - intros [= <- <-]. simpl. split_and!; try done.
    unfold extends. simpl. split_and!; try done; [| by eexists].
    exists []. by rewrite app_nil_r.
Qed.

Lemma quiet_query (stmt : statement) : quiet (query stmt).
Proof.
  intros st. unfold query.
  assert (no_commit_since st (add_event (EvExecute stmt) st)) as Hev.
  { split_and!; [done | by apply filter_is_commit_snoc | done]. }
  destruct (closed st || db_error st (length (events st))) eqn:Hopen.
  - eapply no_commit_since_trans; [exact Hev | apply quiet_fatal].
  - destruct (execute stmt (add_event (EvExecute stmt) st))
      as [[rows st2]|] eqn:He.
    + apply execute_quiet in He as (Hc & Hevs & Hcl & _).
      apply orb_false_iff in Hopen as [Hopen _].
      simpl. destruct Hev as (H1 & H2 & _). split_and!; [congruence | |].
      * by rewrite Hevs.
      * intros _ Hclosed. rewrite Hcl in Hclosed. simpl in Hclosed.
        congruence.
    + eapply no_commit_since_trans; [exact Hev | apply quiet_fatal].
Qed.

Lemma quiet_log_insert (key : string) (id : Z) : quiet (log_insert key id).
Proof. intros st. by split_and!. Qed.

Create HintDb quiet.

#[local] Hint Resolve quiet_ret quiet_raise quiet_lift quiet_rollback
  quiet_connection_close quiet_close quiet_sys_exit quiet_fatal quiet_query
  quiet_log_insert : quiet.

Ltac quiet_steps :=
  repeat first
    [ apply quiet_bind; [| intros ?]
    | apply quiet_if
    | apply quiet_for_each_db; intros ? ];
  eauto with quiet.

Lemma quiet_get_system_id (system_serial : string) :
  quiet (get_system_id system_serial).
Proof. unfold get_system_id. quiet_steps. Qed.

Lemma quiet_get_manufacturer_id (manufacturer_name : string) :
  quiet (get_manufacturer_id manufacturer_name).
Proof. unfold get_manufacturer_id. quiet_steps. Qed.

Lemma quiet_get_part_type_id (part_type_name : string) :
  quiet (get_part_type_id part_type_name).
Proof. unfold get_part_type_id. quiet_steps. Qed.

Lemma quiet_insert_part (system_id : Z) (part_model part_serial : pyval)
  (type_id manufacturer_id : Z) :
  quiet (insert_part system_id part_model part_serial type_id manufacturer_id).
Proof. unfold insert_part. quiet_steps. Qed.

Lemma quiet_insert_mac (system_id : Z) (mac_name mac_address : string) :
  quiet (insert_mac system_id mac_name mac_address).
Proof. unfold insert_mac. quiet_steps. Qed.

#[local] Hint Resolve quiet_get_system_id quiet_get_manufacturer_id
  quiet_get_part_type_id quiet_insert_part quiet_insert_mac : quiet.

Section UpdateStdQuiet.

Variable rows_inserted : StdDatabase -> result Z.

Lemma quiet_read_rows_inserted : quiet (read_rows_inserted rows_inserted).
Proof. intros st. apply no_commit_since_refl. Qed.

Lemma quiet_insert_component (system_id part_type_id : Z)
  (part : part_info) :
  quiet (insert_component system_id part_type_id part).
Proof. unfold insert_component. quiet_steps. Qed.

Lemma quiet_insert_typed (type_key : string) (system_id : Z)
  (part : part_info) :
  quiet (insert_typed type_key system_id part).
Proof. unfold insert_typed. quiet_steps. Qed.

Lemma quiet_insert_all (type_key : string) (system_id : Z)
  (parts : list part_info) :
  quiet (insert_all type_key system_id parts).
Proof. unfold insert_all. quiet_steps. Qed.

Lemma quiet_insert_password (system_id : Z) :
  quiet (insert_password system_id).
Proof. unfold insert_password. quiet_steps. Qed.

Lemma quiet_insert_mac_info (system_id : Z) (m : mac_info) :
  quiet (insert_mac_info system_id m).
Proof. unfold insert_mac_info. quiet_steps. Qed.

Lemma quiet_update_system (entry : string * components) :
  quiet (update_system rows_inserted entry).
Proof.
  destruct entry as [ix_serial c]. unfold update_system.
  quiet_steps; apply quiet_read_rows_inserted.
Qed.

Lemma quiet_systems_loop (systems : list (string * components)) :
  quiet (for_each_db (update_system rows_inserted) systems).
Proof. apply quiet_for_each_db. apply quiet_update_system. Qed.

(** The body of the [with] statement: it returns only after the loop over
    the systems returned, and then has committed what the transaction
    saw at that point; when it raises nothing was committed. *)
Lemma update_std_body_outcome (systems : list (string * components))
  (st : StdDatabase) :
  match (update_std_body rows_inserted systems st).1 with
  | Ok _ =>
      exists st1,
        for_each_db (update_system rows_inserted) systems st = (Ok tt, st1)
        /\ closed st1 = false
        /\ (update_std_body rows_inserted systems st).2
           = add_event EvCommit (set_committed (working st1) st1)
  | Raise _ =>
      no_commit_since st (update_std_body rows_inserted systems st).2
  end.
Proof.
  unfold update_std_body. rewrite dbm_bind_unfold.
  pose proof (quiet_systems_loop systems st) as Hq.
  destruct (for_each_db (update_system rows_inserted) systems st)
    as [[[]|e] st1]; [| exact Hq].
  rewrite dbm_bind_unfold. unfold read_rows_inserted.
  destruct (rows_inserted st1) as [n|e]; [| exact Hq].
  unfold commit. destruct (closed st1) eqn:Hc; [exact Hq |].
  cbn [fst snd]. by exists st1.
Qed.

(** The whole of [update_std]. *)
Lemma update_std_outcome (systems : list (string * components))
  (st : StdDatabase) :
  match (update_std rows_inserted systems st).1 with
  | Ok _ =>
      exists st1,
        for_each_db (update_system rows_inserted) systems st = (Ok tt, st1)
        /\ committed (update_std rows_inserted systems st).2 = working st1
        /\ events (update_std rows_inserted systems st).2
           = events st1 ++ [EvCommit; EvRollback; EvClose]
        /\ List.filter is_commit (events st1)
           = List.filter is_commit (events st)
  | Raise _ =>
      no_commit_since st (update_std rows_inserted systems st).2
  end
  /\ closed (update_std rows_inserted systems st).2 = true
  /\ (settled st ->
      working (update_std rows_inserted systems st).2
      = committed (update_std rows_inserted systems st).2).
Proof.
  unfold update_std, with_std.
  pose proof (update_std_body_outcome systems st) as Hb.
  destruct (update_std_body rows_inserted systems st) as [r stb].
  cbn [fst snd] in Hb.
  pose proof (quiet_close stb) as Hq.
  destruct r as [[]|e].
  - destruct Hb as (st1 & Hloop & Hc & ->).
    pose proof (quiet_systems_loop systems st) as Hl.
    rewrite Hloop in Hl. destruct Hl as (_ & Hl & _).
    unfold close, rollback, connection_close.
    rewrite dbm_bind_unfold. cbn [closed add_event set_committed].
    rewrite Hc. cbn [fst snd].
    split_and!; [| done | done].
    exists st1. split_and!; try done.
    cbn [events add_event set_closed set_working set_committed].
    by rewrite <- !app_assoc.
  - unfold close, rollback, connection_close in *.
    rewrite dbm_bind_unfold in *.
    destruct (closed stb) eqn:Hcl; cbn [fst snd] in *.
    + split_and!; [done | done |].
      intros Hs. destruct Hb as (_ & _ & Hb). by apply Hb.
    + split_and!; [by eapply no_commit_since_trans | done | done].
Qed.

End UpdateStdQuiet.

(** ** Lenovo_Redfish.py: what a method that returns has done *)

Lemma extends_refl (t : tables) : extends t t.
Proof.
  unfold extends. split_and!; try done; exists []; by rewrite app_nil_r.
Qed.

Lemma extends_trans (t1 t2 t3 : tables) :
  extends t1 t2 -> extends t2 t3 -> extends t1 t3.
Proof.
  intros (H1 & H2 & H3 & [p1 H4] & [m1 H5]) (G1 & G2 & G3 & [p2 G4] & [m2 G5]).
  unfold extends. split_and!; try congruence.
  - exists (p1 ++ p2). by rewrite G4, H4, <- app_assoc.
  - exists (m1 ++ m2). by rewrite G5, H5, <- app_assoc.
Qed.

Lemma fatal_raises {A} (code : option Z) (st : StdDatabase) :
  exists e, ((_ ← close false; (sys_exit code : dbm A)) st).1 = Raise e.
Proof.
  unfold close, rollback, connection_close, sys_exit, raise.
  rewrite !dbm_bind_unfold. destruct (closed st); by eexists.
Qed.

Lemma fatal_not_ok {A} (code : option Z) (st st' : StdDatabase) (a : A) :
  (_ ← close false; (sys_exit code : dbm A)) st <> (Ok a, st').
Proof.
  intros H. destruct (fatal_raises (A := A) code st) as [e He].
  rewrite H in He. done.
Qed.

Lemma query_ok_inv (stmt : statement) (st st' : StdDatabase)
  (rows : list Z) :
  query stmt st = (Ok rows, st') ->
  execute stmt (add_event (EvExecute stmt) st) = Some (rows, st').
Proof.
  unfold query.
  destruct (closed st || db_error st (length (events st))).
  - intros H. by apply fatal_not_ok in H.
  - destruct (execute stmt (add_event (EvExecute stmt) st)) as [[r s]|].
    + by intros [= -> ->].
    + intros H. by apply fatal_not_ok in H.
Qed.

Lemma grows_ret {A} (a : A) : grows (mret a : dbm A).
Proof. intros st a' st' [= _ <-]. apply extends_refl. Qed.

Lemma grows_lift {A} (r : result A) : grows (lift r).
Proof. intros st a st' [= _ <-]. apply extends_refl. Qed.

Lemma grows_bind {A B} (m : dbm A) (k : A -> dbm B) :
  grows m -> (forall a, grows (k a)) -> grows (m ≫= k).
Proof.
  intros Hm Hk st b st' H.
  apply dbm_bind_ok in H as (a & st1 & H1 & H2).
  eapply extends_trans; [by eapply Hm | by eapply Hk].
Qed.

Lemma grows_if {A} (c : bool) (m1 m2 : dbm A) :
  grows m1 -> grows m2 -> grows (if c then m1 else m2).
Proof. by destruct c. Qed.

Lemma grows_for_each_db {A} (f : A -> dbm unit) (l : list A) :
  (forall x, grows (f x)) -> grows (for_each_db f l).
Proof.
  intros Hf. induction l as [|x l IH]; simpl.
  - apply grows_ret.
  - apply grows_bind; [apply Hf | intros _; apply IH].
Qed.

Lemma grows_fatal {A} (code : option Z) :
  grows (_ ← close false; (sys_exit code : dbm A)).
Proof. intros st a st' H. by apply fatal_not_ok in H. Qed.

Lemma grows_query (stmt : statement) : grows (query stmt).
Proof.
  intros st rows st' H. apply query_ok_inv in H.
  by apply execute_quiet in H as (_ & _ & _ & _ & H).
Qed.

Lemma grows_log_insert (key : string) (id : Z) : grows (log_insert key id).
Proof. intros st a st' [= _ <-]. apply extends_refl. Qed.

Create HintDb grows.

#[local] Hint Resolve grows_ret grows_lift grows_fatal grows_query
  grows_log_insert : grows.

Ltac grows_steps :=
  repeat first
    [ apply grows_fatal
    | apply grows_bind; [| intros ?]
    | apply grows_if
    | apply grows_for_each_db; intros ? ];
  eauto with grows.

Lemma grows_get_system_id (system_serial : string) :
  grows (get_system_id system_serial).
Proof. unfold get_system_id. grows_steps. Qed.

Lemma grows_insert_part (system_id : Z) (part_model part_serial : pyval)
  (type_id manufacturer_id : Z) :
  grows (insert_part system_id part_model part_serial type_id manufacturer_id).
Proof. unfold insert_part. grows_steps. Qed.

Lemma grows_insert_mac (system_id : Z) (mac_name mac_address : string) :
  grows (insert_mac system_id mac_name mac_address).
Proof. unfold insert_mac. grows_steps. Qed.

Lemma grows_insert_component (system_id part_type_id : Z)
  (part : part_info) :
  grows (insert_component system_id part_type_id part).
Proof.
  unfold insert_component, get_manufacturer_id, insert_part. grows_steps.
Qed.

Lemma grows_insert_typed (type_key : string) (system_id : Z)
  (part : part_info) :
  grows (insert_typed type_key system_id part).
Proof.
  unfold insert_typed, get_part_type_id.
  apply grows_bind; [grows_steps | intros ?].
  apply grows_bind; [grows_steps | intros ?].
  apply grows_insert_component.
Qed.

Lemma grows_insert_all (type_key : string) (system_id : Z)
  (parts : list part_info) :
  grows (insert_all type_key system_id parts).
Proof.
  unfold insert_all, get_part_type_id.
  apply grows_bind; [grows_steps | intros ?].
  apply grows_bind; [grows_steps | intros ?].
  apply grows_for_each_db. intros ?. apply grows_insert_component.
Qed.

Lemma grows_insert_password (system_id : Z) :
  grows (insert_password system_id).
Proof.
  unfold insert_password, get_part_type_id, get_manufacturer_id, insert_part.
  grows_steps.
Qed.

Lemma grows_insert_mac_info (system_id : Z) (m : mac_info) :
  grows (insert_mac_info system_id m).
Proof. unfold insert_mac_info, insert_mac. grows_steps. Qed.

Lemma grows_read_rows_inserted (rows_inserted : StdDatabase -> result Z) :
  grows (read_rows_inserted rows_inserted).
Proof. intros st a st' [= _ <-]. apply extends_refl. Qed.

Lemma grows_update_system (rows_inserted : StdDatabase -> result Z)
  (entry : string * components) :
  grows (update_system rows_inserted entry).
Proof.
  destruct entry as [ix_serial c]. unfold update_system.
  grows_steps; apply grows_read_rows_inserted.
Qed.

Lemma text_of_Some (v : pyval) (s : string) : text_of v = Some s -> v = PStr s.
Proof. destruct v; simpl; congruence. Qed.

Lemma lift_ok_inv {A} (r : result A) (st st' : StdDatabase) (a : A) :
  lift r st = (Ok a, st') -> r = Ok a /\ st' = st.
Proof. unfold lift. by intros [= -> ->]. Qed.

Lemma mret_ok_inv {A} (x a : A) (st st' : StdDatabase) :
  (mret x : dbm A) st = (Ok a, st') -> x = a /\ st' = st.
Proof. by intros [= -> ->]. Qed.

Lemma matching_parts_extends (system_id : Z) (part_model part_serial : string)
  (t t' : tables) :
  extends t t' ->
  matching_parts system_id part_model part_serial t <> [] ->
  matching_parts system_id part_model part_serial t' <> [].
Proof.
  intros (_ & _ & _ & [more H] & _). unfold matching_parts.
  rewrite H, List.filter_app.
  destruct (List.filter _ (production_part t)); [done |]. by intros _.
Qed.

Lemma matching_macs_extends (system_id : Z) (mac_name : string)
  (t t' : tables) :
  extends t t' ->
  matching_macs system_id mac_name t <> [] ->
  matching_macs system_id mac_name t' <> [].
Proof.
  intros (_ & _ & _ & _ & [more H]). unfold matching_macs.
  rewrite H, List.filter_app.
  destruct (List.filter _ (production_mac t)); [done |]. by intros _.
Qed.

Lemma part_imported_extends (t t' : tables) (system_id : Z)
  (part : part_info) :
  extends t t' -> part_imported t system_id part ->
  part_imported t' system_id part.
Proof.
  intros He (m & s & Hm & Hs & H). exists m, s. split_and!; try done.
  by eapply matching_parts_extends.
Qed.

Lemma mac_imported_extends (t t' : tables) (system_id : Z) (m : mac_info) :
  extends t t' -> mac_imported t system_id m -> mac_imported t' system_id m.
Proof. intros He H. by eapply matching_macs_extends. Qed.

(** A call of [insert_part] that returns leaves a matching row. *)
Lemma insert_part_ok (system_id : Z) (vm vs : pyval)
  (type_id manufacturer_id id : Z) (st st' : StdDatabase) :
  insert_part system_id vm vs type_id manufacturer_id st = (Ok id, st') ->
  exists part_model part_serial,
    vm = PStr part_model /\ vs = PStr part_serial
    /\ matching_parts system_id part_model part_serial (working st') <> [].
Proof.
  intros H. unfold insert_part in H.
  apply dbm_bind_ok in H as (rows & st1 & Hq & H).
  apply query_ok_inv in Hq. cbn [execute] in Hq.
  destruct (text_of vm) as [m|] eqn:Em; [| done].
  destruct (text_of vs) as [s|] eqn:Es; [| done].
  injection Hq as <- <-.
  exists m, s. split; [by apply text_of_Some |].
  split; [by apply text_of_Some |].
  apply dbm_bind_ok in H as (rows2 & st2 & H & Hidx).
  apply lift_ok_inv in Hidx as [_ ->].
  rewrite select_part_matching in H.
  cbn [working add_event] in H.
  destruct (matching_parts system_id m s (working st))
    as [|row rows] eqn:Hm.
  - cbn [map length Nat.eqb] in H.
    apply dbm_bind_ok in H as (r3 & st3 & Hq2 & H).
    apply query_ok_inv in Hq2. cbn [execute] in Hq2.
    rewrite Em, Es in Hq2. injection Hq2 as <- <-.
    apply dbm_bind_ok in H as (id3 & st4 & Hl & H).
    apply lift_ok_inv in Hl as [_ ->].
    apply dbm_bind_ok in H as ([] & st5 & Hlog & H).
    apply mret_ok_inv in H as [_ ->].
    unfold log_insert in Hlog. injection Hlog as <-.
    unfold matching_parts. cbn [working set_insert_log bump_part_seq
      set_working add_event add_part production_part].
    rewrite List.filter_app. cbn [List.filter].
    pose proof (part_matches_new_row (part_seq st) system_id m s type_id
                  manufacturer_id) as Hn.
    unfold new_part_row in Hn. cbn [part_seq add_event]. rewrite Hn.
    by destruct (List.filter _ _).
  - cbn [map length Nat.eqb] in H. apply mret_ok_inv in H as [_ ->].
    cbn [working add_event]. by rewrite Hm.
Qed.

(** A call of [insert_mac] that returns leaves a matching row. *)
Lemma insert_mac_ok (system_id id : Z) (mac_name mac_address : string)
  (st st' : StdDatabase) :
  insert_mac system_id mac_name mac_address st = (Ok id, st') ->
  (String.length mac_address <= 17)%nat
  /\ matching_macs system_id mac_name (working st') <> [].
Proof.
  intros H. unfold insert_mac in H.
  destruct (17 <? String.length mac_address)%nat eqn:Hlen.
  { by apply fatal_not_ok in H. }
  apply Nat.ltb_ge in Hlen. split; [done |].
  apply dbm_bind_ok in H as (rows & st1 & Hq & H).
  apply query_ok_inv in Hq. cbn [execute] in Hq. injection Hq as <- <-.
  apply dbm_bind_ok in H as (rows2 & st2 & H & Hidx).
  apply lift_ok_inv in Hidx as [_ ->].
  cbn [working add_event] in H. unfold select_mac in H.
  fold (matching_macs system_id mac_name (working st)) in H.
  destruct (matching_macs system_id mac_name (working st))
    as [|row rows] eqn:Hm.
  - cbn [map length Nat.eqb] in H.
    apply dbm_bind_ok in H as (r3 & st3 & Hq2 & H).
    apply query_ok_inv in Hq2. cbn [execute] in Hq2.
    injection Hq2 as <- <-.
    apply dbm_bind_ok in H as (id3 & st4 & Hl & H).
    apply lift_ok_inv in Hl as [_ ->].
    apply dbm_bind_ok in H as ([] & st5 & Hlog & H).
    apply mret_ok_inv in H as [_ ->].
    unfold log_insert in Hlog. injection Hlog as <-.
    unfold matching_macs. cbn [working set_insert_log bump_mac_seq
      set_working add_event add_mac production_mac].
    rewrite List.filter_app. cbn [List.filter].
    unfold mac_matches at 2. cbn [mac_col_system_id mac_col_name].
    rewrite Z.eqb_refl, String.eqb_refl. cbn [andb].
    by destruct (List.filter _ _).
  - cbn [map length Nat.eqb] in H. apply mret_ok_inv in H as [_ ->].
    cbn [working add_event]. by rewrite Hm.
Qed.

(** A call of [get_system_id] that returns gives the id of the first system
    row with the serial. *)
Lemma get_system_id_ok (system_serial : string) (id : Z)
  (st st' : StdDatabase) :
  get_system_id system_serial st = (Ok id, st') ->
  head (select_system system_serial (production_system (working st)))
  = Some id.
Proof.
  intros H. unfold get_system_id in H.
  apply dbm_bind_ok in H as (rows & st1 & Hq & H).
  apply query_ok_inv in Hq. cbn [execute] in Hq. injection Hq as <- <-.
  cbn [working add_event] in H.
  destruct (select_system system_serial (production_system (working st)))
    as [|x xs].
  - cbn in H. by apply fatal_not_ok in H.
  - cbn in H. apply lift_ok_inv in H as [H _]. by injection H as ->.
Qed.

(** What a loop that returns has established for each of its items, when
    later passes only add rows. *)
Lemma for_each_db_ok {A} (f : A -> dbm unit) (Q : A -> tables -> Prop)
  (l : list A) :
  (forall x, grows (f x)) ->
  (forall x st st', f x st = (Ok tt, st') -> Q x (working st')) ->
  (forall x t t', extends t t' -> Q x t -> Q x t') ->
  forall st st',
    for_each_db f l st = (Ok tt, st') ->
    Forall (fun x => Q x (working st')) l.
Proof.
  intros Hg Hq Hs. induction l as [|x l IH]; intros st st' H; [done |].
  cbn [for_each_db] in H. apply dbm_bind_ok in H as ([] & st1 & H1 & H2).
  constructor; [| by eapply IH].
  eapply Hs; [| by eapply Hq].
  by eapply (grows_for_each_db f l Hg).
Qed.

Lemma insert_component_ok (system_id part_type_id : Z) (part : part_info)
  (st st' : StdDatabase) :
  insert_component system_id part_type_id part st = (Ok tt, st') ->
  part_imported (working st') system_id part.
Proof.
  intros H. unfold insert_component in H.
  apply dbm_bind_ok in H as (key & st1 & _ & H).
  apply dbm_bind_ok in H as (mf & st2 & _ & H).
  apply dbm_bind_ok in H as (mid & st3 & _ & H).
  apply dbm_bind_ok in H as (id & st4 & Hi & H).
  apply mret_ok_inv in H as [_ ->].
  apply insert_part_ok in Hi as (m & s & Hm & Hs & Hi). by exists m, s.
Qed.

Lemma insert_typed_ok (type_key : string) (system_id : Z) (part : part_info)
  (st st' : StdDatabase) :
  insert_typed type_key system_id part st = (Ok tt, st') ->
  part_imported (working st') system_id part.
Proof.
  intros H. unfold insert_typed in H.
  apply dbm_bind_ok in H as (pt & st1 & _ & H).
  apply dbm_bind_ok in H as (ptid & st2 & _ & H).
  by eapply insert_component_ok.
Qed.

Lemma insert_all_ok (type_key : string) (system_id : Z)
  (parts : list part_info) (st st' : StdDatabase) :
  insert_all type_key system_id parts st = (Ok tt, st') ->
  Forall (part_imported (working st') system_id) parts.
Proof.
  intros H. unfold insert_all in H.
  apply dbm_bind_ok in H as (pt & st1 & _ & H).
  apply dbm_bind_ok in H as (ptid & st2 & _ & H).
  eapply (for_each_db_ok _ (fun part t => part_imported t system_id part));
    [| | | exact H].
  - intros part. apply grows_insert_component.
  - intros part s s'. apply insert_component_ok.
  - intros part t t'. apply part_imported_extends.
Qed.

Lemma typed_loop_ok (type_key : string) (system_id : Z)
  (parts : list part_info) (st st' : StdDatabase) :
  for_each_db (insert_typed type_key system_id) parts st = (Ok tt, st') ->
  Forall (part_imported (working st') system_id) parts.
Proof.
  apply (for_each_db_ok _ (fun part t => part_imported t system_id part)).
  - intros part. apply grows_insert_typed.
  - intros part s s'. apply insert_typed_ok.
  - intros part t t'. apply part_imported_extends.
Qed.

Lemma mac_loop_ok (system_id : Z) (macs : list mac_info)
  (st st' : StdDatabase) :
  for_each_db (insert_mac_info system_id) macs st = (Ok tt, st') ->
  Forall (mac_imported (working st') system_id) macs.
Proof.
  apply (for_each_db_ok _ (fun m t => mac_imported t system_id m)).
  - intros m. apply grows_insert_mac_info.
  - intros m s s' H. unfold insert_mac_info in H.
    apply dbm_bind_ok in H as (addr & st1 & _ & H).
    apply dbm_bind_ok in H as (id & st2 & Hi & H).
    apply mret_ok_inv in H as [_ ->].
    by apply insert_mac_ok in Hi as [_ Hi].
  - intros m t t'. apply mac_imported_extends.
Qed.

Lemma insert_password_ok (system_id : Z) (st st' : StdDatabase) :
  insert_password system_id st = (Ok tt, st') ->
  matching_parts system_id "IPMI Password" "Password123" (working st') <> [].
Proof.
  intros H. unfold insert_password in H.
  apply dbm_bind_ok in H as (pt & st1 & _ & H).
  apply dbm_bind_ok in H as (ptid & st2 & _ & H).
  apply dbm_bind_ok in H as (mf & st3 & _ & H).
  apply dbm_bind_ok in H as (mid & st4 & _ & H).
  apply dbm_bind_ok in H as (id & st5 & Hi & H).
  apply mret_ok_inv in H as [_ ->].
  apply insert_part_ok in Hi as (m & s & [= <-] & [= <-] & Hi). done.
Qed.

Lemma Forall_part_imported_extends (t t' : tables) (system_id : Z)
  (parts : list part_info) :
  extends t t' -> Forall (part_imported t system_id) parts ->
  Forall (part_imported t' system_id) parts.
Proof.
  intros He H. eapply Forall_impl; [exact H |].
  intros part. by apply part_imported_extends.
Qed.

(** One more step of a method that returned: the first call, and that what
    follows only added rows. *)
Ltac ok_step H a st1 Hop Hext :=
  apply dbm_bind_ok in H as (a & st1 & Hop & H);
  match type of H with
  | ?m _ = (Ok _, ?st') =>
      assert (extends (working st1) (working st')) as Hext
        by (assert (grows m) as Hgrows
              by (grows_steps; apply grows_read_rows_inserted);
            eapply Hgrows; exact H)
  end.

Lemma update_system_ok (rows_inserted : StdDatabase -> result Z)
  (entry : string * components) (st st' : StdDatabase) :
  update_system rows_inserted entry st = (Ok tt, st') ->
  system_imported (working st') entry.
Proof.
  destruct entry as [ix_serial c]. intros H. unfold update_system in H.
  assert (grows (update_system rows_inserted (ix_serial, c))) as Hall
    by apply grows_update_system.
  pose proof (Hall _ _ _ H) as Hwhole.
  ok_step H pre st1 Hpre E1.
  assert (st1 = st) as -> by (by injection Hpre).
  ok_step H system_id st2 Hsys E2.
  ok_step H u3 st3 Hmb E3.
  ok_step H u4 st4 Hcpu E4.
  ok_step H u5 st5 Hmem E5.
  ok_step H u6 st6 Hpsu E6.
  ok_step H u7 st7 Hssd E7.
  ok_step H u8 st8 Hnic E8.
  ok_step H u9 st9 Hpw E9.
  ok_step H u10 st10 Hmac E10.
  destruct u3, u4, u5, u6, u7, u8, u9, u10.
  exists system_id. cbn [fst snd]. split_and!.
  - apply get_system_id_ok in Hsys.
    destruct Hwhole as (-> & _). exact Hsys.
  - unfold all_parts. constructor; [| rewrite !Forall_app; split_and!].
    + eapply part_imported_extends; [exact E3 |]. by eapply insert_typed_ok.
    + eapply Forall_part_imported_extends; [exact E4 |].
      by eapply typed_loop_ok.
    + eapply Forall_part_imported_extends; [exact E5 |].
      by eapply typed_loop_ok.
    + eapply Forall_part_imported_extends; [exact E6 |].
      by eapply insert_all_ok.
    + eapply Forall_part_imported_extends; [exact E7 |].
      by eapply insert_all_ok.
    + eapply Forall_part_imported_extends; [exact E8 |].
      by eapply insert_all_ok.
  - eapply matching_parts_extends; [exact E9 |]. by eapply insert_password_ok.
  - eapply Forall_impl; [by eapply mac_loop_ok |].
    intros m. by apply mac_imported_extends.
Qed.

Lemma system_imported_extends (t t' : tables) (entry : string * components) :
  extends t t' -> system_imported t entry -> system_imported t' entry.
Proof.
  intros He (sid & Hs & Hp & Hpw & Hm). exists sid. split_and!.
  - destruct He as (-> & _). exact Hs.
  - by eapply Forall_part_imported_extends.
  - by eapply matching_parts_extends.
  - eapply Forall_impl; [exact Hm |]. intros m. by apply mac_imported_extends.
Qed.

Lemma systems_loop_ok (rows_inserted : StdDatabase -> result Z)
  (systems : list (string * components)) (st st' : StdDatabase) :
  for_each_db (update_system rows_inserted) systems st = (Ok tt, st') ->
  Forall (system_imported (working st')) systems.
Proof.
  apply (for_each_db_ok _ (fun entry t => system_imported t entry)).
  - intros entry. apply grows_update_system.
  - intros entry s s'. apply update_system_ok.
  - intros entry t t'. apply system_imported_extends.
Qed.

(** ** Lenovo_Redfish.py: records that stop the batch *)

Lemma insert_component_unmapped (system_id part_type_id : Z)
  (part : part_info) (s : string) (st : StdDatabase) :
  manufacturer part = PStr s ->
  assoc (lower s) MANUFACTURER_DICT = None ->
  insert_component system_id part_type_id part st
  = (Raise (KeyError (lower s)), st).
Proof.
  intros Hm Hk. unfold insert_component. rewrite Hm.
  rewrite dbm_bind_unfold. cbn [lift py_lower].
  rewrite dbm_bind_unfold. unfold dict_item. by rewrite Hk.
Qed.

Lemma insert_component_mapped (system_id part_type_id : Z)
  (part : part_info) (st st' : StdDatabase) :
  insert_component system_id part_type_id part st = (Ok tt, st') ->
  ~ unmapped part.
Proof.
  intros H (s & Hm & Hk).
  by rewrite (insert_component_unmapped _ _ _ _ _ Hm Hk) in H.
Qed.

Lemma length_map_string (f : ascii -> ascii) (s : string) :
  String.length (map_string f s) = String.length s.
Proof. induction s as [|c s IH]; simpl; [done | by rewrite IH]. Qed.

Lemma insert_mac_oversized (system_id : Z) (mac_name mac_address : string)
  (st : StdDatabase) :
  (17 < String.length mac_address)%nat ->
  insert_mac system_id mac_name mac_address st
  = (_ ← close false; sys_exit (Some 1)) st.
Proof.
  intros H. unfold insert_mac. apply Nat.ltb_lt in H. by rewrite H.
Qed.

Lemma insert_mac_info_sized (system_id : Z) (m : mac_info)
  (st st' : StdDatabase) :
  insert_mac_info system_id m st = (Ok tt, st') -> ~ oversized m.
Proof.
  intros H (s & Hv & Hlen). unfold insert_mac_info in H. rewrite Hv in H.
  apply dbm_bind_ok in H as (addr & st1 & Hup & H).
  apply lift_ok_inv in Hup as [[= <-] ->].
  apply dbm_bind_ok in H as (id & st2 & Hi & _).
  apply insert_mac_ok in Hi as [Hi _].
  unfold upper in Hi. rewrite length_map_string in Hi. lia.
Qed.

(** What a loop that returns has checked for each of its items. *)
Lemma for_each_db_checked {A} (f : A -> dbm unit) (Q : A -> Prop)
  (l : list A) :
  (forall x st st', f x st = (Ok tt, st') -> Q x) ->
  forall st st', for_each_db f l st = (Ok tt, st') -> Forall Q l.
Proof.
  intros Hq. induction l as [|x l IH]; intros st st' H; [done |].
  cbn [for_each_db] in H. apply dbm_bind_ok in H as ([] & st1 & H1 & H2).
  constructor; [by eapply Hq | by eapply IH].
Qed.

Lemma insert_typed_mapped (type_key : string) (system_id : Z)
  (part : part_info) (st st' : StdDatabase) :
  insert_typed type_key system_id part st = (Ok tt, st') -> ~ unmapped part.
Proof.
  intros H. unfold insert_typed in H.
  apply dbm_bind_ok in H as (pt & st1 & _ & H).
  apply dbm_bind_ok in H as (ptid & st2 & _ & H).
  by eapply insert_component_mapped.
Qed.

Lemma insert_all_mapped (type_key : string) (system_id : Z)
  (parts : list part_info) (st st' : StdDatabase) :
  insert_all type_key system_id parts st = (Ok tt, st') ->
  Forall (fun part => ~ unmapped part) parts.
Proof.
  intros H. unfold insert_all in H.
  apply dbm_bind_ok in H as (pt & st1 & _ & H).
  apply dbm_bind_ok in H as (ptid & st2 & _ & H).
  eapply for_each_db_checked; [| exact H].
  intros part s s'. apply insert_component_mapped.
Qed.

(** A system that was processed to the end had no record that stops the
    batch. *)
Lemma update_system_accepts (rows_inserted : StdDatabase -> result Z)
  (entry : string * components) (st st' : StdDatabase) :
  update_system rows_inserted entry st = (Ok tt, st') ->
  Forall (fun part => ~ unmapped part) (all_parts entry.2)
  /\ Forall (fun m => ~ oversized m) (mac entry.2).
Proof.
  destruct entry as [ix_serial c]. intros H. unfold update_system in H.
  apply dbm_bind_ok in H as (pre & st1 & _ & H).
  apply dbm_bind_ok in H as (system_id & st2 & _ & H).
  apply dbm_bind_ok in H as ([] & st3 & Hmb & H).
  apply dbm_bind_ok in H as ([] & st4 & Hcpu & H).
  apply dbm_bind_ok in H as ([] & st5 & Hmem & H).
  apply dbm_bind_ok in H as ([] & st6 & Hpsu & H).
  apply dbm_bind_ok in H as ([] & st7 & Hssd & H).
  apply dbm_bind_ok in H as ([] & st8 & Hnic & H).
  apply dbm_bind_ok in H as ([] & st9 & _ & H).
  apply dbm_bind_ok in H as ([] & st10 & Hmac & _).
  cbn [fst snd]. split.
  - unfold all_parts. constructor; [| rewrite !Forall_app; split_and!].
    + by eapply insert_typed_mapped.
    + eapply for_each_db_checked; [| exact Hcpu].
      intros part s s'. apply insert_typed_mapped.
    + eapply for_each_db_checked; [| exact Hmem].
      intros part s s'. apply insert_typed_mapped.
    + by eapply insert_all_mapped.
    + by eapply insert_all_mapped.
    + by eapply insert_all_mapped.
  - eapply for_each_db_checked; [| exact Hmac].
    intros m s s'. apply insert_mac_info_sized.
Qed.

Lemma systems_loop_accepts (rows_inserted : StdDatabase -> result Z)
  (systems : list (string * components)) (st st' : StdDatabase) :
  for_each_db (update_system rows_inserted) systems st = (Ok tt, st') ->
  Forall (fun entry =>
            Forall (fun part => ~ unmapped part) (all_parts entry.2)
            /\ Forall (fun m => ~ oversized m) (mac entry.2))
         systems.
Proof.
  apply for_each_db_checked. intros entry s s'. apply update_system_accepts.
Qed.

(** A batch with a record that stops it ends in an exception, with nothing
    committed. *)
Lemma update_std_rejects (rows_inserted : StdDatabase -> result Z)
  (systems : list (string * components)) (entry : string * components)
  (st : StdDatabase) :
  entry ∈ systems ->
  (exists part, part ∈ all_parts entry.2 /\ unmapped part)
  \/ (exists m, m ∈ mac entry.2 /\ oversized m) ->
  (exists e, (update_std rows_inserted systems st).1 = Raise e)
  /\ no_commit_since st (update_std rows_inserted systems st).2.
Proof.
  intros Hin Hbad.
  pose proof (update_std_outcome rows_inserted systems st) as (Hout & _).
  destruct (update_std rows_inserted systems st) as [[[]|e] stf];
    cbn [fst snd] in *; [| by eauto].
  destruct Hout as (st1 & Hloop & _). exfalso.
  apply systems_loop_accepts in Hloop.
  rewrite Forall_forall in Hloop. destruct (Hloop _ Hin) as [Hp Hm].
  rewrite Forall_forall in Hp. rewrite Forall_forall in Hm.
  destruct Hbad as [(part & Hpin & Hu) | (m & Hmin & Ho)].
  - by apply (Hp part).
  - by apply (Hm m).
Qed.

(** ** Lenovo_Redfish.py: the batch *)

(** C2: [update_std] on a fresh connection either returns, and then every
    system of the batch was processed to the end, every record of every
    bundle has its row in what is committed, and the one commit of the run
    comes after everything the loop over the systems did; or it raises, and
    then no commit was issued and what is committed is what it was before
    the run.  Either way the connection ends closed with nothing pending.
    This holds whatever reading [std.rows_inserted] gives, and whichever
    statements the server refuses. *)
Theorem batch_atomicity (rows_inserted : StdDatabase -> result Z)
  (systems : list (string * components)) (db : tables)
  (part_seq mac_seq : Z) (db_error : nat -> bool) :
  let std := StdDatabase_init db part_seq mac_seq db_error in
  let out := update_std rows_inserted systems std in
  match out.1 with
  | Ok _ =>
      Forall (system_imported (committed out.2)) systems
      /\ (exists st1,
            for_each_db (update_system rows_inserted) systems std
            = (Ok tt, st1)
            /\ committed out.2 = working st1
            /\ events out.2 = events st1 ++ [EvCommit; EvRollback; EvClose]
            /\ List.filter is_commit (events st1) = [])
      /\ List.filter is_commit (events out.2) = [EvCommit]
  | Raise _ =>
      committed out.2 = db /\ List.filter is_commit (events out.2) = []
  end
  /\ closed out.2 = true
  /\ working out.2 = committed out.2.
Proof.
  intros std out. subst out.
  pose proof (update_std_outcome rows_inserted systems std) as (H & Hc & Hw).
  split_and!; [| exact Hc | by apply Hw].
  destruct (update_std rows_inserted systems std) as [[[]|e] stf];
    cbn [fst snd] in *.
  - destruct H as (st1 & Hloop & Hcm & Hev & Hf).
    split_and!.
    + rewrite Hcm. by eapply systems_loop_ok.
    + by exists st1.
    + rewrite Hev, List.filter_app, Hf. done.
  - by destruct H as (-> & -> & _).
Qed.

(** A pass that raises ends the loop: what comes after it in the list is
    not looked at. *)
Lemma for_each_db_stops {A} (f : A -> dbm unit) (before after : list A)
  (x : A) (e : exn) :
  forall st st1 st2,
    for_each_db f before st = (Ok tt, st1) ->
    f x st1 = (Raise e, st2) ->
    for_each_db f (before ++ x :: after) st = (Raise e, st2).
Proof.
  induction before as [|y before IH]; intros st st1 st2 Hb Hx.
  - injection Hb as <-. cbn [app for_each_db].
    rewrite dbm_bind_unfold. by rewrite Hx.
  - cbn [app for_each_db] in *. rewrite dbm_bind_unfold in *.
    destruct (f y st) as [[[]|e'] st']; [| done]. by eapply IH.
Qed.

(** C4: a part record whose manufacturer, once lowered, is missing from the
    translation table raises [KeyError] the moment the batch reaches it,
    before a statement is sent for it, and the records after it in its list
    are not processed; a batch that holds such a record anywhere ends in an
    exception, with no commit issued and nothing changed in what is
    committed. *)
Theorem normalizer_fatal_abort (rows_inserted : StdDatabase -> result Z)
  (systems : list (string * components)) (entry : string * components)
  (part : part_info) (db : tables) (part_seq mac_seq : Z)
  (db_error : nat -> bool) :
  entry ∈ systems -> part ∈ all_parts entry.2 -> unmapped part ->
  let out :=
    update_std rows_inserted systems
      (StdDatabase_init db part_seq mac_seq db_error) in
  (exists e, out.1 = Raise e)
  /\ committed out.2 = db
  /\ List.filter is_commit (events out.2) = []
  /\ (exists key,
        (forall system_id part_type_id st,
           insert_component system_id part_type_id part st
           = (Raise (KeyError key), st))
        /\ (forall system_id part_type_id before after st st1,
              for_each_db (insert_component system_id part_type_id)
                before st = (Ok tt, st1) ->
              for_each_db (insert_component system_id part_type_id)
                (before ++ part :: after) st
              = (Raise (KeyError key), st1))).
Proof.
  intros Hin Hpart Hu out.
  destruct (update_std_rejects rows_inserted systems entry
              (StdDatabase_init db part_seq mac_seq db_error) Hin)
    as (He & Hc & Hev & _); [left; by exists part |].
  split_and!; try done.
  destruct Hu as (s & Hm & Hk). exists (lower s). split.
  - intros system_id part_type_id st. by apply insert_component_unmapped.
  - intros system_id part_type_id before after st st1 Hb.
    eapply for_each_db_stops; [exact Hb |].
    by apply insert_component_unmapped.
Qed.

Lemma normalizer_fatal_abort_witness :
  exists e,
    (update_std (fun st => Ok (logged_rows st))
       [("A1-102049", unmapped_components)] sample_std).1 = Raise e.
Proof.
  refine (proj1 (normalizer_fatal_abort (fun st => Ok (logged_rows st))
    [("A1-102049", unmapped_components)] ("A1-102049", unmapped_components)
    (mk_part_info (PStr "AMD") (PStr "EPYC 9354") (PStr "CPU0002"))
    sample_tables 101 1 (fun _ => false) _ _ _)).
  - apply list_elem_of_here.
  - apply list_elem_of_further, list_elem_of_here.
  - exists "AMD". split; reflexivity.
Defined.

Lemma insert_mac_found (st : StdDatabase) (system_id : Z)
  (mac_name mac_address : string) (row : mac_row) (rows : list mac_row) :
  healthy st ->
  (String.length mac_address <= 17)%nat ->
  matching_macs system_id mac_name (working st) = row :: rows ->
  insert_mac system_id mac_name mac_address st
  = (Ok (mac_col_id row),
     add_event (EvExecute (SelectMac system_id mac_name)) st).
Proof.
  intros Hh Hlen Hm. unfold insert_mac.
  apply Nat.ltb_ge in Hlen. rewrite Hlen.
  unfold mbind at 1, dbm_bind. rewrite (query_healthy _ _ Hh).
  cbn [execute add_event working]. unfold select_mac.
  fold (matching_macs system_id mac_name (working st)). rewrite Hm.
  reflexivity.
Qed.

Lemma insert_mac_new (st : StdDatabase) (system_id : Z)
  (mac_name mac_address : string) :
  healthy st ->
  (String.length mac_address <= 17)%nat ->
  matching_macs system_id mac_name (working st) = [] ->
  insert_mac system_id mac_name mac_address st
  = (Ok (mac_seq st), after_insert_mac st system_id mac_name mac_address).
Proof.
  intros Hh Hlen Hm. unfold insert_mac.
  apply Nat.ltb_ge in Hlen. rewrite Hlen.
  unfold mbind at 1, dbm_bind. rewrite (query_healthy _ _ Hh).
  cbn [execute add_event working]. unfold select_mac.
  fold (matching_macs system_id mac_name (working st)). rewrite Hm.
  cbn [map length Nat.eqb].
  unfold mbind at 1, dbm_bind. unfold mbind at 1, dbm_bind.
  rewrite (query_healthy _ _ (healthy_add_event _ _ Hh)).
  cbn [execute]. unfold mbind at 1, dbm_bind.
  cbn [lift py_index lookup list_lookup]. unfold mbind at 1, dbm_bind.
  rewrite log_insert_logged. cbn [mret dbm_ret lift py_index].
  unfold lift, set_insert_log, bump_mac_seq, set_working, add_event,
    after_insert_mac, logged. simpl.
  by rewrite <- app_assoc.
Qed.

(** The object after a fatal error on an open connection. *)
Lemma fatal_open {A} (code : option Z) (st : StdDatabase) :
  closed st = false ->
  (_ ← close false; (sys_exit code : dbm A)) st
  = (Raise (SystemExit code),
     add_event EvClose
       (set_closed true
          (set_working (committed st)
             (add_event EvRollback (set_working (committed st) st))))).
Proof.
  intros Hc. unfold close, rollback, connection_close, sys_exit, raise.
  rewrite !dbm_bind_unfold. by rewrite Hc.
Qed.

(** The object after a fatal error on a closed connection: the rollback
    itself raises. *)
Lemma fatal_closed {A} (code : option Z) (st : StdDatabase) :
  closed st = true ->
  (_ ← close false; (sys_exit code : dbm A)) st = (Raise PsycopgError, st).
Proof.
  intros Hc. unfold close, rollback, connection_close, sys_exit, raise.
  rewrite !dbm_bind_unfold. by rewrite Hc.
Qed.

(** C7: [insert_mac] with an address of more than 17 characters raises
    without sending a statement, and commits and logs nothing; on an open
    connection it rolls back, closes the connection and exits with status 1.
    With an address of at most 17 characters, on a healthy connection, it
    sends the select keyed on (system, name), returns the id of the first
    matching row when there is one, and otherwise inserts the row and
    returns its id.  A batch that holds an address of more than 17
    characters ends in an exception with nothing committed. *)
Theorem mac_validation (st : StdDatabase) (system_id : Z)
  (mac_name mac_address : string) :
  let call := insert_mac system_id mac_name mac_address in
  ((17 < String.length mac_address)%nat ->
     (exists e, (call st).1 = Raise e)
     /\ List.filter is_execute
          (drop (length (events st)) (events (call st).2)) = []
     /\ committed (call st).2 = committed st
     /\ insert_log (call st).2 = insert_log st
     /\ (closed st = false ->
         (call st).1 = Raise (SystemExit (Some 1))
         /\ events (call st).2 = events st ++ [EvRollback; EvClose]
         /\ closed (call st).2 = true
         /\ working (call st).2 = committed st))
  /\ ((String.length mac_address <= 17)%nat -> healthy st ->
      match matching_macs system_id mac_name (working st) with
      | row :: _ =>
          call st
          = (Ok (mac_col_id row),
             add_event (EvExecute (SelectMac system_id mac_name)) st)
      | [] =>
          call st
          = (Ok (mac_seq st),
             after_insert_mac st system_id mac_name mac_address)
      end)
  /\ (forall rows_inserted systems entry m,
        entry ∈ systems -> m ∈ mac entry.2 -> oversized m ->
        (exists e, (update_std rows_inserted systems st).1 = Raise e)
        /\ no_commit_since st (update_std rows_inserted systems st).2).
Proof.
  intros call. split_and!.
  - intros Hlen. unfold call.
    rewrite (insert_mac_oversized _ _ _ _ Hlen).
    destruct (closed st) eqn:Hc.
    + rewrite (fatal_closed _ _ Hc). cbn [fst snd].
      split_and!; try done; [by eexists |].
      by rewrite drop_all.
    + rewrite (fatal_open _ _ Hc). cbn [fst snd].
      assert (events
                (add_event EvClose
                   (set_closed true
                      (set_working (committed st)
                         (add_event EvRollback
                            (set_working (committed st) st)))))
              = events st ++ [EvRollback; EvClose]) as Hev.
      { cbn [events add_event set_closed set_working].
        by rewrite <- app_assoc. }
      rewrite Hev. split_and!; try done; [by eexists |].
      by rewrite drop_app_length.
  - intros Hlen Hh.
    destruct (matching_macs system_id mac_name (working st)) as [|row rows]
      eqn:Hm.
    + by apply insert_mac_new.
    + by eapply insert_mac_found.
  - intros rows_inserted systems entry m Hin Hm Ho.
    apply (update_std_rejects rows_inserted systems entry st Hin).
    right. by exists m.
Qed.

Lemma mac_validation_witness :
  healthy sample_std
  /\ (insert_mac 7 "NIC 1 MAC" "7C:8C:09:A5:00:01:" sample_std).1
     = Raise (SystemExit (Some 1))
  /\ insert_mac 7 "NIC 1 MAC" "7C:8C:09:A5:00:01" sample_std
     = (Ok 1,
        after_insert_mac sample_std 7 "NIC 1 MAC" "7C:8C:09:A5:00:01")
  /\ exists e,
       (update_std (fun st => Ok (logged_rows st))
          [("A1-102049", oversized_components)] sample_std).1 = Raise e.
Proof.
  split; [exact sample_std_healthy |].
  destruct (mac_validation sample_std 7 "NIC 1 MAC" "7C:8C:09:A5:00:01:")
    as (Hlong & _ & Hbatch).
  destruct (mac_validation sample_std 7 "NIC 1 MAC" "7C:8C:09:A5:00:01")
    as (_ & Hshort & _).
  split_and!.
  - destruct (Hlong ltac:(simpl; lia)) as (_ & _ & _ & _ & Hopen).
    exact (proj1 (Hopen eq_refl)).
  - exact (Hshort ltac:(simpl; lia) sample_std_healthy).
  - refine (proj1 (Hbatch (fun st => Ok (logged_rows st))
                     [("A1-102049", oversized_components)]
                     ("A1-102049", oversized_components)
                     (mk_mac_info "NIC 1 MAC" (PStr "7c:8c:09:a5:00:01:"))
                     _ _ _)).
    + apply list_elem_of_here.
    + apply list_elem_of_here.
    + exists "7c:8c:09:a5:00:01:". split; [reflexivity | simpl; lia].
Defined.

(** With the count of the insert log for [std.rows_inserted], the sample
    batch is committed: the CPU that was there is kept, the other records
    get their rows. *)
Example update_std_sample_commits :
  let out :=
    update_std (fun st => Ok (logged_rows st))
      [("A1-102049", sample_components)] sample_std in
  out.1 = Ok tt
  /\ map col_id (production_part (committed out.2)) = [100; 101; 102; 103]
  /\ map mac_col_name (production_mac (committed out.2))
     = ["NIC 1 MAC"; "IPMI 1 MAC"]
  /\ logged "production_part" out.2 = [101; 102; 103].
Proof. vm_compute. repeat split. Qed.

(** With the class as it stands, reading [std.rows_inserted] raises, and
    the batch ends there. *)
Example update_std_missing_attribute :
  let out :=
    update_std (fun _ => Raise (AttributeError "rows_inserted"))
      [("A1-102049", sample_components)] sample_std in
  out.1 = Raise (AttributeError "rows_inserted")
  /\ committed out.2 = sample_tables
  /\ events out.2 = [EvRollback; EvClose].
Proof. vm_compute. repeat split. Qed.

(* ================================================================== *)
(** * Part III: further properties of the two scripts *)
(* ================================================================== *)

(** ** A2Z_Dimm_Pull.py: reading a data file *)


(** What one line does to the four columns: nothing, or one entry each. *)
Lemma process_line_shape (system_serial line : string) (data : dimm_data) :
  process_line system_serial line data = Ok data
  \/ exists ser mfg part,
       long_field ser /\ long_field mfg /\ long_field part
       /\ process_line system_serial line data
          = Ok {| System_Serial := System_Serial data ++ [system_serial];
                  DIMM_Serial := DIMM_Serial data ++ [ser];
                  DIMM_Manufacturer := DIMM_Manufacturer data ++ [mfg];
                  DIMM_Part_Number := DIMM_Part_Number data ++ [part] |}.
Proof.
  unfold process_line. destruct (truthy (strip line)) eqn:Hline; [| by left].
  destruct (6 <=? length (columns_of line))%nat eqn:Hlen; [| by left].
  right. apply Nat.leb_le in Hlen.
  pose proof (columns_of_stripped line Hline) as Hstrip.
  assert (Forall (fun t => (5 < String.length t)%nat) (columns_of line))
    as Hlong.
  { unfold columns_of. apply Forall_forall. intros t Ht.
    apply list_elem_of_filter in Ht as [Ht _]. exact Ht. }
  destruct (lookup_lt_is_Some_2 (columns_of line) 2 ltac:(lia)) as [c2 H2].
  destruct (lookup_lt_is_Some_2 (columns_of line) 3 ltac:(lia)) as [c3 H3].
  destruct (lookup_lt_is_Some_2 (columns_of line) 4 ltac:(lia)) as [c4 H4].
  exists c4, c2, c3.
  rewrite (py_index_lookup _ _ _ H2), (py_index_lookup _ _ _ H3),
    (py_index_lookup _ _ _ H4). simpl.
  pose proof (Forall_lookup_1 _ _ _ _ Hstrip H2) as S2.
  pose proof (Forall_lookup_1 _ _ _ _ Hstrip H3) as S3.
  pose proof (Forall_lookup_1 _ _ _ _ Hstrip H4) as S4.
  simpl in S2, S3, S4. rewrite S2, S3, S4.
  split_and!; try done; split; try done.
  - exact (Forall_lookup_1 _ _ _ _ Hlong H4).
  - exact (Forall_lookup_1 _ _ _ _ Hlong H2).
  - exact (Forall_lookup_1 _ _ _ _ Hlong H3).
Qed.

Lemma result_bind_ret {A B} (a : A) (k : A -> result B) : Ok a ≫= k = k a.
Proof. reflexivity. Qed.

(** The loop over the lines: it returns, and has added the same number of
    entries, at most one per line, to each of the four columns. *)
Lemma process_lines_shape (system_serial : string) (lines : list string) :
  forall data : dimm_data,
    exists sers mfgs parts : list string,
      process_lines system_serial lines data
      = Ok {| System_Serial :=
                System_Serial data ++ replicate (length sers) system_serial;
              DIMM_Serial := DIMM_Serial data ++ sers;
              DIMM_Manufacturer := DIMM_Manufacturer data ++ mfgs;
              DIMM_Part_Number := DIMM_Part_Number data ++ parts |}
      /\ length mfgs = length sers /\ length parts = length sers
      /\ (length sers <= length lines)%nat
      /\ Forall long_field sers /\ Forall long_field mfgs
      /\ Forall long_field parts.
Proof.
  induction lines as [|line rest IH]; intros data.
  - exists [], [], []. simpl. rewrite !app_nil_r. by destruct data.
  - cbn [process_lines].
    destruct (process_line_shape system_serial line data)
      as [-> | (ser & mfg & part & Ls & Lm & Lp & ->)].
    + rewrite result_bind_ret.
      destruct (IH data) as (sers & mfgs & parts & -> & H).
      exists sers, mfgs, parts. split; [done |].
      destruct H as (? & ? & ? & ? & ? & ?). split_and!; try done.
      simpl. lia.
    + rewrite result_bind_ret.
      match goal with
      | |- context [process_lines _ _ ?d] => destruct (IH d)
          as (sers & mfgs & parts & Hrest & H1 & H2 & H3 & F1 & F2 & F3)
      end.
      exists (ser :: sers), (mfg :: mfgs), (part :: parts).
      rewrite Hrest.
      cbn [System_Serial DIMM_Serial DIMM_Manufacturer DIMM_Part_Number].
      rewrite <- !app_assoc. simpl.
      split_and!; try done; try lia; by constructor.
Qed.

(** [process_file]: the header line is dropped, the other lines go through
    the loop. *)
Lemma split_on_go_sep (sep : ascii) (header body cur : string) :
  count_char sep header = 0%nat ->
  split_on_go sep cur (header +:+ String sep body)
  = (cur +:+ header) :: split_on_go sep EmptyString body.
Proof.
  revert cur. induction header as [|c header IH]; intros cur Hc.
  - rewrite app_nil_l_str, app_empty_r. cbn [split_on_go].
    by rewrite Ascii.eqb_refl.
  - simpl in Hc. rewrite app_cons_str. cbn [split_on_go].
    destruct (Ascii.eqb c sep); [done |].
    rewrite IH by done. by rewrite app_assoc_str.
Qed.

Lemma split_on_go_plain (sep : ascii) (s cur : string) :
  count_char sep s = 0%nat -> split_on_go sep cur s = [cur +:+ s].
Proof.
  revert cur. induction s as [|c s IH]; intros cur Hc.
  - by rewrite app_empty_r.
  - simpl in Hc. cbn [split_on_go]. destruct (Ascii.eqb c sep); [done |].
    rewrite IH by done. by rewrite app_assoc_str.
Qed.

(** [s.split(sep)] gives one piece more than [s] holds separators. *)
Lemma length_split_on_go (sep : ascii) (s cur : string) :
  length (split_on_go sep cur s) = S (count_char sep s).
Proof.
  revert cur. induction s as [|c r IH]; intros cur; [done |].
  cbn [split_on_go count_char]. destruct (Ascii.eqb c sep).
  - cbn [length]. by rewrite IH.
  - apply IH.
Qed.

Lemma length_tail_split_on (sep : ascii) (s : string) :
  length (tail (split_on sep s)) = count_char sep s.
Proof.
  pose proof (length_split_on_go sep s EmptyString) as H.
  unfold split_on. destruct (split_on_go sep EmptyString s); simpl in *; lia.
Qed.


(** X2: every field the loop adds to the serial, manufacturer and part
    number columns is longer than five characters and has no whitespace at
    either end. *)
Theorem dimm_fields_long (system_serial dimm_contents : string)
  (data out : dimm_data) :
  process_file system_serial dimm_contents data = Ok out ->
  Forall long_field (drop (length (DIMM_Serial data)) (DIMM_Serial out))
  /\ Forall long_field
       (drop (length (DIMM_Manufacturer data)) (DIMM_Manufacturer out))
  /\ Forall long_field
       (drop (length (DIMM_Part_Number data)) (DIMM_Part_Number out)).
Proof.
  unfold process_file. intros H.
  destruct (process_lines_shape system_serial
              (tail (split_on "010" dimm_contents)) data)
    as (sers & mfgs & parts & Hp & _ & _ & _ & F1 & F2 & F3).
  rewrite Hp in H. injection H as <-.
  cbn [DIMM_Serial DIMM_Manufacturer DIMM_Part_Number].
  by rewrite !drop_app_length.
Qed.

Lemma dimm_fields_long_witness :
  Forall long_field ["000123456"]
  /\ Forall long_field ["SAMSUNG-MFG"] /\ Forall long_field ["PARTNUM123"].
Proof.
  exact (dimm_fields_long "A1-102049" dimm_file empty_data
           (mk_dimm_data ["A1-102049"] ["000123456"] ["SAMSUNG-MFG"]
              ["PARTNUM123"]) eq_refl).
Defined.

(** X3: the first line of a data file is never read as a record, whatever it
    holds: the file gives what its lines after the first line end give; a
    file without a line end gives nothing. *)
Theorem header_line_skipped (system_serial header body : string)
  (data : dimm_data) :
  count_char "010" header = 0%nat ->
  process_file system_serial (header +:+ String "010" body) data
  = process_lines system_serial (split_on "010" body) data
  /\ process_file system_serial header data = Ok data.
Proof.
  intros Hc. unfold process_file, split_on. split.
  - by rewrite (split_on_go_sep _ _ _ _ Hc).
  - by rewrite (split_on_go_plain _ _ _ Hc).
Qed.

Lemma header_line_skipped_witness :
  process_file "A1-102049" (dimm_line +:+ String "010" dimm_line) empty_data
  = process_lines "A1-102049" [dimm_line] empty_data
  /\ process_file "A1-102049" dimm_line empty_data = Ok empty_data.
Proof.
  exact (header_line_skipped "A1-102049" dimm_line dimm_line empty_data
           eq_refl).
Defined.

(** ** A2Z_Dimm_Pull.py: the loop over the serials *)

(** The order of [str]: character codes, then length. *)
Lemma ascii_compare_lt_trans (a b c : ascii) :
  Ascii.compare a b = Lt -> Ascii.compare b c = Lt -> Ascii.compare a c = Lt.
Proof.
  unfold Ascii.compare. rewrite !N.compare_lt_iff. lia.
Qed.

Lemma ascii_compare_eq (a b : ascii) : Ascii.compare a b = Eq -> a = b.
Proof.
  unfold Ascii.compare. intros H. apply N.compare_eq in H.
  rewrite <- (ascii_N_embedding a), <- (ascii_N_embedding b). by rewrite H.
Qed.

Lemma string_compare_lt_trans (a : string) :
  forall b c : string,
    String.compare a b = Lt -> String.compare b c = Lt ->
    String.compare a c = Lt.
Proof.
  induction a as [|x a IH]; intros [|y b] [|z c]; simpl; try done.
  destruct (Ascii.compare x y) eqn:Exy; try done;
    destruct (Ascii.compare y z) eqn:Eyz; try done; intros Hab Hbc.
  - apply ascii_compare_eq in Exy as ->. apply ascii_compare_eq in Eyz as ->.
    assert (Ascii.compare z z = Eq) as -> by apply N.compare_refl.
    by eapply IH.
  - apply ascii_compare_eq in Exy as ->. by rewrite Eyz.
  - apply ascii_compare_eq in Eyz as <-. by rewrite Exy.
  - by rewrite (ascii_compare_lt_trans _ _ _ Exy Eyz).
Qed.

Lemma string_leb_trans (a b c : string) :
  String.leb a b = true -> String.leb b c = true -> String.leb a c = true.
Proof.
  unfold String.leb.
  destruct (String.compare a b) eqn:Eab; try done;
    destruct (String.compare b c) eqn:Ebc; try done; intros _ _.
  - apply String.compare_eq_iff in Eab as ->. by rewrite Ebc.
  - apply String.compare_eq_iff in Eab as ->. by rewrite Ebc.
  - apply String.compare_eq_iff in Ebc as <-. by rewrite Eab.
  - by rewrite (string_compare_lt_trans _ _ _ Eab Ebc).
Qed.

Lemma string_leb_refl (a : string) : String.leb a a = true.
Proof. by destruct (String.leb_total a a). Qed.

(** The first item of [sorted(l, reverse=True)] is an item of [l] that no
    item of [l] is greater than. *)
Lemma sorted_reverse_first (x : string) (l : list string) :
  exists first rest,
    sorted_reverse (x :: l) = first :: rest
    /\ first ∈ x :: l
    /\ forall e, e ∈ x :: l -> String.leb e first = true.
Proof.
  revert x. induction l as [|y l IH]; intros x.
  - exists x, []. split_and!; [done | apply list_elem_of_here |].
    intros e He. apply list_elem_of_singleton in He as ->.
    apply string_leb_refl.
  - destruct (IH y) as (f & r & Hs & Hin & Hmax).
    change (sorted_reverse (x :: y :: l))
      with (insert_desc x (sorted_reverse (y :: l))).
    rewrite Hs. cbn [insert_desc]. destruct (String.leb f x) eqn:Hfx.
    + exists x, (f :: r). split_and!; [done | apply list_elem_of_here |].
      intros e He. apply elem_of_cons in He as [-> | He].
      * apply string_leb_refl.
      * eapply string_leb_trans; [by apply Hmax | done].
    + exists f, (insert_desc x r).
      split_and!; [done | by apply list_elem_of_further |].
      intros e He. apply elem_of_cons in He as [-> | He].
      * destruct (String.leb_total x f) as [H | H]; [done | congruence].
      * by apply Hmax.
Qed.

(** What one pass does to [data]: it adds the same number of entries to
    each column, and only the serial of the pass to the first. *)
Lemma try_block_data (fs : file_system) (system_serial : string)
  (st : pull_state) :
  let d := data (try_block fs system_serial st).2 in
  exists sers mfgs parts : list string,
    System_Serial d
    = System_Serial (data st) ++ replicate (length sers) system_serial
    /\ DIMM_Serial d = DIMM_Serial (data st) ++ sers
    /\ DIMM_Manufacturer d = DIMM_Manufacturer (data st) ++ mfgs
    /\ DIMM_Part_Number d = DIMM_Part_Number (data st) ++ parts
    /\ length mfgs = length sers /\ length parts = length sers.
Proof.
  assert (exists sers mfgs parts : list string,
            System_Serial (data st)
            = System_Serial (data st) ++ replicate (length sers) system_serial
            /\ DIMM_Serial (data st) = DIMM_Serial (data st) ++ sers
            /\ DIMM_Manufacturer (data st) = DIMM_Manufacturer (data st) ++ mfgs
            /\ DIMM_Part_Number (data st) = DIMM_Part_Number (data st) ++ parts
            /\ length mfgs = length sers /\ length parts = length sers)
    as Hsame.
  { exists [], [], []. simpl. by rewrite !app_nil_r. }
  cbv zeta. unfold try_block.
  destruct (listdir fs (directory_path system_serial)) as [entries|e];
    [| exact Hsame].
  destruct (sorted_reverse entries) as [|first rest]; [exact Hsame |].
  destruct (path_exists fs _); [| exact Hsame].
  destruct (read_text fs _) as [dimm_contents|e]; [| exact Hsame].
  cbn [data]. unfold process_file.
  destruct (process_lines_shape system_serial
              (tail (split_on "010" dimm_contents)) (data st))
    as (sers & mfgs & parts & -> & H1 & H2 & _).
  exists sers, mfgs, parts. by split_and!.
Qed.

Lemma pull_serial_data (fs : file_system) (system_serial : string)
  (st : pull_state) :
  data (pull_serial fs system_serial st).2
  = data (try_block fs system_serial st).2.
Proof.
  unfold pull_serial.
  by destruct (try_block fs system_serial st) as [[?|[]] ?].
Qed.

(** The columns stay aligned over the loop, and the first column only gets
    serials of the list. *)
Lemma pull_serials_data (fs : file_system) (serials : list string) :
  forall st : pull_state,
    aligned (data st) ->
    aligned (data (pull_serials fs serials st).2)
    /\ exists added,
         System_Serial (data (pull_serials fs serials st).2)
         = System_Serial (data st) ++ added
         /\ Forall (fun s => s ∈ serials) added.
Proof.
  induction serials as [|s rest IH]; intros st Hal.
  - split; [done |]. exists []. by rewrite app_nil_r.
  - destruct (try_block_data fs s st)
      as (sers & mfgs & parts & E1 & E2 & E3 & E4 & L1 & L2).
    rewrite <- !pull_serial_data in *.
    assert (aligned (data (pull_serial fs s st).2)) as Hal1.
    { destruct Hal as (A1 & A2 & A3). unfold aligned.
      rewrite E1, E2, E3, E4, !length_app, length_replicate. lia. }
    assert (exists added,
              System_Serial (data (pull_serial fs s st).2)
              = System_Serial (data st) ++ added
              /\ Forall (fun x => x ∈ s :: rest) added) as Hadd1.
    { exists (replicate (length sers) s). split; [done |].
      apply Forall_replicate. apply list_elem_of_here. }
    cbn [pull_serials].
    destruct (pull_serial fs s st) as [[[]|e] st1]; cbn [fst snd] in *.
    + destruct (IH st1 Hal1) as (Hal2 & added2 & E5 & F2).
      split; [done |]. destruct Hadd1 as (added1 & E6 & F1).
      exists (added1 ++ added2). rewrite E5, E6, <- app_assoc.
      split; [done |]. apply Forall_app. split; [done |].
      eapply Forall_impl; [exact F2 |]. intros x Hx.
      by apply list_elem_of_further.
    + by split.
Qed.

(** One pass when the serial has a log directory that is not empty. *)
Lemma try_block_listed (fs : file_system) (system_serial first : string)
  (entries rest : list string) (st : pull_state) :
  listdir fs (directory_path system_serial) = Done entries ->
  sorted_reverse entries = first :: rest ->
  let dimm_data_path :=
    path_join fs (path_join fs (directory_path system_serial) first)
      "DIMM_MemoryChipData.txt" in
  let st1 := mk_pull_state (burn_in_directory st ++ [first]) (data st) in
  try_block fs system_serial st
  = if path_exists fs dimm_data_path then
      match read_text fs dimm_data_path with
      | Done dimm_contents =>
          match process_file system_serial dimm_contents (data st) with
          | Ok data' =>
              (Done tt, mk_pull_state (burn_in_directory st ++ [first]) data')
          | Raise e => (Failed (LineError e), st1)
          end
      | Failed e => (Failed e, st1)
      end
    else (Done tt, st1).
Proof.
  intros Hl Hs. unfold try_block. rewrite Hl, Hs. done.
Qed.

(** X4: the directory a pass reads is the one with the greatest name. Of the
    entries of the log directory of the serial, the pass takes one that no
    entry is greater than in the order of [str], notes it, and looks for the
    data file in it. Without the file only the note is left; with it the
    pass returns and the lines of the file are added to what [data] held. *)
Theorem newest_directory_read (fs : file_system) (system_serial : string)
  (entries : list string) (st : pull_state) :
  listdir fs (directory_path system_serial) = Done entries ->
  entries <> [] ->
  exists first,
    first ∈ entries
    /\ (forall e, e ∈ entries -> String.leb e first = true)
    /\ burn_in_directory (pull_serial fs system_serial st).2
       = burn_in_directory st ++ [first]
    /\ let dimm_data_path :=
         path_join fs (path_join fs (directory_path system_serial) first)
           "DIMM_MemoryChipData.txt" in
       let noted := burn_in_directory st ++ [first] in
       (path_exists fs dimm_data_path = false ->
        pull_serial fs system_serial st
        = (Done tt, mk_pull_state noted (data st)))
       /\ (forall dimm_contents,
             path_exists fs dimm_data_path = true ->
             read_text fs dimm_data_path = Done dimm_contents ->
             exists data',
               process_file system_serial dimm_contents (data st) = Ok data'
               /\ pull_serial fs system_serial st
                  = (Done tt, mk_pull_state noted data')).
Proof.
  intros Hl Hne. destruct entries as [|x l]; [done |].
  destruct (sorted_reverse_first x l) as (first & rest & Hs & Hin & Hmax).
  exists first. split; [done |]. split; [done |].
  pose proof (try_block_listed fs system_serial first (x :: l) rest st Hl Hs)
    as Htry. cbv zeta in *. unfold pull_serial. rewrite Htry.
  split_and!.
  - destruct (path_exists fs _); [| done].
    destruct (read_text fs _) as [dimm_contents|[]]; try done.
    unfold process_file.
    destruct (process_lines_shape system_serial
                (tail (split_on "010" dimm_contents)) (data st))
      as (sers & mfgs & parts & -> & _). done.
  - by intros ->.
  - intros dimm_contents -> ->. unfold process_file.
    destruct (process_lines_shape system_serial
                (tail (split_on "010" dimm_contents)) (data st))
      as (sers & mfgs & parts & -> & _). by eexists.
Qed.

(** X5: serials without logs add nothing and do not stop the loop. The loop
    over a list of serials ends as the loop over the serials of the list
    whose log directory is there and holds an entry, with the same notes and
    the same [data]. *)
Theorem serials_without_logs_skipped (fs : file_system)
  (serials : list string) :
  forall st : pull_state,
    pull_serials fs serials st
    = pull_serials fs (List.filter (fun s => negb (no_logs fs s)) serials) st.
Proof.
  induction serials as [|s rest IH]; intros st; [done |].
  cbn [List.filter]. destruct (no_logs fs s) eqn:Hno; cbn [negb].
  - assert (pull_serial fs s st = (Done tt, st)) as Hp.
    { unfold no_logs in Hno. unfold pull_serial, try_block.
      by destruct (listdir fs (directory_path s)) as [[|x l]|[| |e]]. }
    cbn [pull_serials]. rewrite Hp. apply IH.
  - cbn [pull_serials].
    destruct (pull_serial fs s st) as [[[]|e] st1]; [apply IH | done].
Qed.


(** X7: whatever the file system holds and however the run ends, the four
    columns the CSV file is written from have the same length, and every
    entry of the system serial column is one of the serials the query gave,
    cleaned of its asterisks. *)
Theorem pulled_columns_aligned (fs : file_system) (sql_list : list string) :
  let out := pull_dimm_data fs sql_list in
  aligned (data out.2)
  /\ Forall (fun s => s ∈ map clean_serial sql_list
                      /\ count_char "*" s = 0%nat)
            (System_Serial (data out.2)).
Proof.
  intros out. subst out. unfold pull_dimm_data.
  destruct (pull_serials_data fs (serial_list sql_list)
              (mk_pull_state [] empty_data))
    as (Hal & added & -> & Hadd); [done |].
  split; [done |]. cbn [data System_Serial empty_data app].
  eapply Forall_impl; [exact Hadd |]. intros s Hs. cbv beta in Hs.
  unfold serial_list, cleaned_sql_list in Hs.
  rewrite concat_singletons in Hs. split; [done |].
  apply list_elem_of_fmap in Hs as (raw & -> & _).
  unfold clean_serial. rewrite re_sub_char_empty, count_without_char.
  done.
Qed.

Lemma newest_directory_read_witness :
  exists first,
    first ∈ ["2023-01-05"; "2023-01-17"]
    /\ (forall e, e ∈ ["2023-01-05"; "2023-01-17"] ->
        String.leb e first = true)
    /\ burn_in_directory
         (pull_serial sample_fs "A1-102049" (mk_pull_state [] empty_data)).2
       = [first].
Proof.
  destruct (newest_directory_read sample_fs "A1-102049"
              ["2023-01-05"; "2023-01-17"] (mk_pull_state [] empty_data)
              eq_refl ltac:(done))
    as (first & Hin & Hmax & Hnote & _).
  exists first. split; [exact Hin |]. split; [exact Hmax | exact Hnote].
Defined.


(** ** Lenovo_Redfish.py: more on the Redfish reader *)

Lemma get_http_response_body_failed
  (requests_get : string -> result response) (url : string) :
  (exists r, requests_get url = Ok r /\ (ok r = false \/ json r = None)) ->
  get_http_response_body requests_get url = Ok (PDict []).
Proof.
  intros (r & Hr & Hbad).
  rewrite (get_http_response_body_answered _ _ _ Hr).
  destruct Hbad as [-> | ->]; [done | by destruct (ok r)].
Qed.



(** X9: the motherboard record. Its manufacturer is fixed, its model is the
    SKU of the chassis, the empty string when the chassis has none, and its
    serial is read two objects deep: it is the empty string when the chassis
    has no "Oem" key, but a chassis whose "Oem" key holds anything but an
    object (JSON null, say) makes the whole reading of the system raise. *)
Theorem motherboard_record (requests_get : string -> result response)
  (ip : string) (kvs : list (string * pyval)) :
  get_http_response_body requests_get
    (("https://" +:+ ip) +:+ "/redfish/v1/Chassis/1") = Ok (PDict kvs) ->
  (forall v,
     assoc "Oem" kvs = Some v -> (forall o, v <> PDict o) ->
     parse_system_components requests_get ip = Raise (AttributeError "get"))
  /\ (forall c,
        parse_system_components requests_get ip = Ok c ->
        manufacturer (motherboard c) = PStr "Lenovo"
        /\ model (motherboard c) = field_or_empty kvs "SKU"
        /\ (assoc "Oem" kvs = None -> serial (motherboard c) = empty_str)
        /\ (forall o l,
              assoc "Oem" kvs = Some (PDict o) ->
              assoc "Lenovo" o = Some (PDict l) ->
              serial (motherboard c)
              = field_or_empty l "SystemBoardSerialNumber")).
Proof.
  intros Hbody. split.
  - intros v Hv Hno. unfold parse_system_components. rewrite Hbody.
    rewrite result_bind_ret. cbn [dict_get].
    destruct (assoc "SKU" kvs); rewrite result_bind_ret, Hv, result_bind_ret;
      destruct v as [| | | | |o]; try done; by destruct (Hno o).
  - intros c H. unfold parse_system_components in H. rewrite Hbody in H.
    rewrite result_bind_ret in H.
    apply result_bind_ok in H as (mb_model & Hmodel & H).
    apply result_bind_ok in H as (oem & Hoem & H).
    apply result_bind_ok in H as (lenovo & Hlenovo & H).
    apply result_bind_ok in H as (mb_serial & Hserial & H).
    apply result_bind_ok in H as (ssds & _ & H).
    apply result_bind_ok in H as (cpus & _ & H).
    apply result_bind_ok in H as (memories & _ & H).
    apply result_bind_ok in H as (psus & _ & H).
    apply result_bind_ok in H as (nics & _ & H).
    apply result_bind_ok in H as (nic_list & _ & H).
    apply result_bind_ok in H as (macs & _ & H).
    injection H as <-. cbn [motherboard manufacturer model serial].
    cbn [dict_get] in Hmodel, Hoem. unfold field_or_empty.
    split_and!.
    + done.
    + destruct (assoc "SKU" kvs); by injection Hmodel.
    + intros Hnone. rewrite Hnone in Hoem. injection Hoem as <-.
      cbn in Hlenovo. injection Hlenovo as <-. cbn in Hserial.
      by injection Hserial.
    + intros o l Ho Hl. rewrite Ho in Hoem. injection Hoem as <-.
      cbn [dict_get] in Hlenovo. rewrite Hl in Hlenovo.
      injection Hlenovo as <-. cbn [dict_get] in Hserial.
      destruct (assoc "SystemBoardSerialNumber" l); by injection Hserial.
Qed.

Lemma motherboard_record_witness :
  parse_system_components
    (fun _ => Ok (mk_response true (Some (PDict [("Oem", PNone)]))))
    "10.48.143.80"
  = Raise (AttributeError "get").
Proof.
  refine (proj1 (motherboard_record
                   (fun _ => Ok (mk_response true
                                   (Some (PDict [("Oem", PNone)]))))
                   "10.48.143.80" [("Oem", PNone)] eq_refl)
            PNone eq_refl _).
  intros o H. discriminate H.
Defined.

(** A loop whose pass adds one record adds one record for every item. *)
Lemma for_each_length {A B} (step : A -> list B -> result (list B))
  (l : list A) :
  (forall x acc out, step x acc = Ok out -> length out = S (length acc)) ->
  forall acc out,
    for_each step l acc = Ok out ->
    length out = (length acc + length l)%nat.
Proof.
  intros Hstep. induction l as [|x l IH]; intros acc out H.
  - injection H as <-. simpl. lia.
  - cbn [for_each] in H. apply result_bind_ok in H as (acc' & H1 & H2).
    apply Hstep in H1. apply IH in H2. simpl. lia.
Qed.

Lemma for_each_length_le {A B} (step : A -> list B -> result (list B))
  (l : list A) :
  (forall x acc out,
     step x acc = Ok out -> (length out <= S (length acc))%nat) ->
  forall acc out,
    for_each step l acc = Ok out ->
    (length out <= length acc + length l)%nat.
Proof.
  intros Hstep. induction l as [|x l IH]; intros acc out H.
  - injection H as <-. simpl. lia.
  - cbn [for_each] in H. apply result_bind_ok in H as (acc' & H1 & H2).
    apply Hstep in H1. apply IH in H2. simpl. lia.
Qed.

Lemma loop_unless_empty_list {S} (items : list pyval)
  (step : pyval -> S -> result S) (acc : S) :
  loop_unless_empty (PList items) step acc = for_each step items acc.
Proof. by destruct items. Qed.

Lemma ssd_step_adds (requests_get : string -> result response)
  (base_url : string) (drive : pyval) (acc out : list part_info) :
  ssd_step requests_get base_url drive acc = Ok out ->
  length out = S (length acc).
Proof.
  intros H. unfold ssd_step in H.
  repeat (apply result_bind_ok in H as (? & _ & H)).
  injection H as <-. rewrite length_app. simpl. lia.
Qed.

Lemma cpu_step_adds (requests_get : string -> result response)
  (base_url : string) (cpu : pyval) (acc out : list part_info) :
  cpu_step requests_get base_url cpu acc = Ok out ->
  length out = S (length acc).
Proof.
  intros H. unfold cpu_step in H.
  repeat (apply result_bind_ok in H as (? & _ & H)).
  injection H as <-. rewrite length_app. simpl. lia.
Qed.

Lemma nic_step_adds (requests_get : string -> result response)
  (base_url : string) (nic : pyval) (acc out : list part_info) :
  nic_step requests_get base_url nic acc = Ok out ->
  length out = S (length acc).
Proof.
  intros H. unfold nic_step in H.
  repeat (apply result_bind_ok in H as (? & _ & H)).
  injection H as <-. rewrite length_app. simpl. lia.
Qed.

Lemma psu_step_adds (psu_body : pyval) (acc out : list part_info) :
  psu_step psu_body acc = Ok out -> length out = S (length acc).
Proof.
  intros H. unfold psu_step in H.
  repeat (apply result_bind_ok in H as (? & _ & H)).
  injection H as <-. rewrite length_app. simpl. lia.
Qed.

Lemma memory_step_adds (requests_get : string -> result response)
  (base_url : string) (memory : pyval) (acc out : list part_info) :
  memory_step requests_get base_url memory acc = Ok out ->
  (length out <= S (length acc))%nat.
Proof.
  intros H. unfold memory_step, memory_record in H.
  repeat (apply result_bind_ok in H as (? & _ & H)).
  destruct (_ && _); injection H as <-; [lia |].
  rewrite length_app. simpl. lia.
Qed.

(** X10: drives, processors, power supplies and network adapters give one
    record for every item the controller lists, in a reading that returns:
    nothing is skipped, so an item whose own request failed is there with
    empty strings. Memory alone can give fewer records than items. *)
Theorem one_record_per_member (requests_get : string -> result response)
  (base_url : string) (members : list pyval) :
  (forall kvs links ssds,
     assoc "Links" kvs = Some (PDict links) ->
     assoc "Drives" links = Some (PList members) ->
     ssd_block requests_get base_url (PDict kvs) = Ok ssds ->
     length ssds = length members)
  /\ (forall top cpus,
        get_http_response_body requests_get
          (base_url +:+ "/redfish/v1/Systems/1/Processors") = Ok (PDict top) ->
        assoc "Members" top = Some (PList members) ->
        cpu_block requests_get base_url = Ok cpus ->
        length cpus = length members)
  /\ (forall top psus,
        get_http_response_body requests_get
          (base_url +:+ "/redfish/v1/Chassis/1/Power") = Ok (PDict top) ->
        assoc "PowerSupplies" top = Some (PList members) ->
        psu_block requests_get base_url = Ok psus ->
        length psus = length members)
  /\ (forall top nics,
        get_http_response_body requests_get
          (base_url +:+ "/redfish/v1/Chassis/1/NetworkAdapters")
        = Ok (PDict top) ->
        assoc "Members" top = Some (PList members) ->
        nic_block requests_get base_url = Ok nics ->
        length nics = length members)
  /\ (forall top memories,
        get_http_response_body requests_get
          (base_url +:+ "/redfish/v1/Systems/1/Memory") = Ok (PDict top) ->
        assoc "Members" top = Some (PList members) ->
        memory_block requests_get base_url = Ok memories ->
        (length memories <= length members)%nat).
Proof.
  split_and!.
  - intros kvs links ssds Hl Hd H. unfold ssd_block in H. cbn [dict_get] in H.
    rewrite Hl, result_bind_ret in H. cbn [dict_get] in H.
    rewrite Hd, result_bind_ret, loop_unless_empty_list in H.
    apply for_each_length in H; [done |]. apply ssd_step_adds.
  - intros top cpus Hb Hm H. unfold cpu_block in H.
    rewrite Hb, result_bind_ret in H. cbn [dict_get] in H.
    rewrite Hm, result_bind_ret, loop_unless_empty_list in H.
    apply for_each_length in H; [done |]. apply cpu_step_adds.
  - intros top psus Hb Hm H. unfold psu_block in H.
    rewrite Hb, result_bind_ret in H. cbn [dict_get] in H.
    rewrite Hm, result_bind_ret, loop_unless_empty_list in H.
    apply for_each_length in H; [done |]. apply psu_step_adds.
  - intros top nics Hb Hm H. unfold nic_block in H.
    rewrite Hb, result_bind_ret in H. cbn [dict_get] in H.
    rewrite Hm, result_bind_ret, loop_unless_empty_list in H.
    apply for_each_length in H; [done |]. apply nic_step_adds.
  - intros top memories Hb Hm H. unfold memory_block in H.
    rewrite Hb, result_bind_ret in H. cbn [dict_get] in H.
    rewrite Hm, result_bind_ret, loop_unless_empty_list in H.
    apply for_each_length_le in H; [done |]. apply memory_step_adds.
Qed.
(** [str(n)] tells numbers apart. *)
Lemma str_of_nat_inj (n m : nat) : str_of_nat n = str_of_nat m -> n = m.
Proof.
  unfold str_of_nat. intros H.
  assert (forall k, Nat.to_uint k <> Decimal.Nil) as Hnn.
  { intros k. rewrite <- (DecimalNat.Unsigned.of_to k) at 1.
    rewrite DecimalNat.Unsigned.to_of. apply DecimalFacts.unorm_nonnil. }
  apply DecimalNat.Unsigned.to_uint_inj.
  pose proof (NilZero.usu _ (Hnn n)) as Hn.
  pose proof (NilZero.usu _ (Hnn m)) as Hm.
  rewrite H in Hn. congruence.
Qed.

Lemma length_app_str (a b : string) :
  String.length (a +:+ b) = (String.length a + String.length b)%nat.
Proof.
  induction a as [|c a IH]; [done |]. rewrite app_cons_str. simpl.
  by rewrite IH.
Qed.

Lemma app_inv_tail_str (a b c : string) : a +:+ c = b +:+ c -> a = b.
Proof.
  revert b. induction a as [|x a IH]; intros [|y b] H.
  - done.
  - apply (f_equal String.length) in H.
    rewrite !length_app_str in H. simpl in H. lia.
  - apply (f_equal String.length) in H.
    rewrite !length_app_str in H. simpl in H. lia.
  - rewrite !app_cons_str in H. injection H as -> H. f_equal. by apply IH.
Qed.

Lemma nic_mac_name_inj (n m : nat) : nic_mac_name n = nic_mac_name m -> n = m.
Proof.
  unfold nic_mac_name. rewrite !app_cons_str, !app_nil_l_str.
  intros H. injection H as H. apply app_inv_tail_str in H.
  by apply str_of_nat_inj.
Qed.

(** The interface loop on any list of items: a pass leaves the state as it
    is or adds one record, named after the counter, and advances the
    counter. *)
Lemma mac_loop_names (requests_get : string -> result response)
  (base_url : string) (items : list pyval) :
  forall (n n' : nat) (macs macs' : list mac_info),
    for_each (mac_step requests_get base_url) items (n, macs)
    = Ok (n', macs') ->
    exists k,
      map name macs' = map name macs ++ map nic_mac_name (seq n k).
Proof.
  induction items as [|item items IH]; intros n n' macs macs' H.
  - injection H as <- <-. exists 0%nat. by rewrite app_nil_r.
  - cbn [for_each] in H. apply result_bind_ok in H as ([n1 macs1] & H1 & H2).
    apply IH in H2 as (k & ->).
    unfold mac_step in H1.
    apply result_bind_ok in H1 as (mac_link & _ & H1).
    apply result_bind_ok in H1 as (found & _ & H1).
    destruct (negb found).
    + injection H1 as <- <-. by exists k.
    + apply result_bind_ok in H1 as (url & _ & H1).
      apply result_bind_ok in H1 as (body & _ & H1).
      apply result_bind_ok in H1 as (mac_address & _ & H1).
      injection H1 as <- <-. exists (S k).
      rewrite map_app, <- app_assoc. done.
Qed.



(** ** Lenovo_Redfish.py: from KEY.txt to the dict of the systems *)

Lemma no_space_app (a b : string) :
  no_space (a +:+ b) = no_space a && no_space b.
Proof.
  induction a as [|c a IH]; [done |]. rewrite app_cons_str. simpl.
  rewrite IH. by destruct (isspace c).
Qed.

Lemma truthy_app_r (a b : string) : truthy b = true -> truthy (a +:+ b) = true.
Proof. by destruct a. Qed.

(** The pieces [split()] returns are tokens. *)
Lemma split_go_tokens (s : string) :
  forall cur : string,
    no_space cur = true -> Forall (fun t => is_token t = true) (split_go cur s).
Proof.
  induction s as [|c r IH]; intros cur Hcur; cbn [split_go].
  - destruct (truthy cur) eqn:Ht; [| done].
    constructor; [| done]. unfold is_token. by rewrite Ht, Hcur.
  - destruct (isspace c) eqn:Hc.
    + destruct (truthy cur) eqn:Ht; [| by apply IH].
      constructor; [| by apply IH]. unfold is_token. by rewrite Ht, Hcur.
    + apply IH. rewrite no_space_app, Hcur. simpl. by rewrite Hc.
Qed.

(** X12: a file that parses gives two lists of the same length, one entry
    each for every line that is no comment, so the [zip] of the two loses
    nothing; every entry is a token: not empty, no whitespace in it. *)
Theorem key_file_lists_aligned (lines ip_list ix_serial_list : list string) :
  parse_input_file lines [] [] = Ok (ip_list, ix_serial_list) ->
  length ip_list = length ix_serial_list
  /\ length ip_list = length (List.filter (fun l => negb (is_comment l)) lines)
  /\ Forall (fun t => is_token t = true) (ip_list ++ ix_serial_list).
Proof.
  enough (forall ips sers ips' sers',
            parse_input_file lines ips sers = Ok (ips', sers') ->
            exists new_ips new_sers,
              ips' = ips ++ new_ips /\ sers' = sers ++ new_sers
              /\ length new_ips = length new_sers
              /\ length new_ips
                 = length (List.filter (fun l => negb (is_comment l)) lines)
              /\ Forall (fun t => is_token t = true) (new_ips ++ new_sers))
    as Hgen.
  { intros H. apply Hgen in H as (ni & ns & -> & -> & H). exact H. }
  induction lines as [|line rest IH]; intros ips sers ips' sers' H.
  - injection H as <- <-. exists [], []. by rewrite !app_nil_r.
  - cbn [parse_input_file List.filter] in *.
    destruct (is_comment line); cbn [negb]; [by apply IH |].
    pose proof (split_go_tokens (strip line) EmptyString eq_refl) as Htok.
    fold (py_split (strip line)) in Htok.
    destruct (py_split (strip line)) as [|ip [|ser [|x tokens]]]; try done.
    cbn in H. apply IH in H as (ni & ns & -> & -> & L1 & L2 & F).
    exists (ip :: ni), (ser :: ns). rewrite <- !app_assoc. cbn [app length].
    split_and!; try done; try lia.
    apply Forall_app in F as [F1 F2].
    apply Forall_cons in Htok as [Hip Htok].
    apply Forall_cons in Htok as [Hser _].
    apply Forall_cons. split; [done |]. apply Forall_app. split; [done |].
    by apply Forall_cons.
Qed.

Lemma key_file_lists_aligned_witness :
  Forall (fun t => is_token t = true) (["10.48.133.155"] ++ ["A1-102050"]).
Proof.
  exact (proj2 (proj2 (key_file_lists_aligned
    ["#10.48.143.80 A1-102049"; "10.48.133.155 A1-102050"]
    ["10.48.133.155"] ["A1-102050"] eq_refl))).
Defined.

Lemma split_go_token (tok : string) :
  forall cur rest : string,
    no_space tok = true ->
    split_go cur (tok +:+ rest) = split_go (cur +:+ tok) rest.
Proof.
  induction tok as [|c tok IH]; intros cur rest H.
  - by rewrite app_nil_l_str, app_empty_r.
  - simpl in H. apply andb_true_iff in H as [Hc H].
    apply negb_true_iff in Hc. rewrite app_cons_str. cbn [split_go].
    rewrite Hc, IH by done. by rewrite app_assoc_str.
Qed.

Lemma py_split_two (ip ix_serial : string) :
  is_token ip = true -> is_token ix_serial = true ->
  py_split (ip +:+ " " +:+ ix_serial) = [ip; ix_serial].
Proof.
  unfold is_token. intros [Ti Hi]%andb_true_iff [Ts Hs]%andb_true_iff.
  unfold py_split. rewrite (split_go_token ip) by done.
  rewrite app_nil_l_str, app_cons_str, app_nil_l_str. cbn [split_go].
  change (isspace " ") with true. cbv iota. rewrite Ti.
  rewrite <- (app_empty_r ix_serial) at 1.
  rewrite (split_go_token ix_serial) by done.
  rewrite app_nil_l_str. cbn [split_go]. by rewrite Ts.
Qed.

Lemma token_starts (s : string) : is_token s = true -> starts_nonspace s = true.
Proof.
  destruct s as [|c r]; [done |]. unfold is_token. simpl.
  by intros [H _]%andb_true_iff.
Qed.

Lemma token_ends (s : string) : is_token s = true -> ends_nonspace s = true.
Proof.
  unfold is_token. destruct s as [|c r]; [done |]. cbn [truthy andb].
  revert c. induction r as [|d r IH]; intros c; simpl.
  - by intros [Hc _]%andb_true_iff.
  - intros [_ Hr]%andb_true_iff. by apply IH.
Qed.

Lemma ends_nonspace_app (a b : string) :
  ends_nonspace b = true -> ends_nonspace (a +:+ b) = true.
Proof.
  intros Hb. induction a as [|c a IH]; [done |].
  rewrite app_cons_str. rewrite ends_nonspace_tail; [done |].
  destruct a; [by destruct b | done].
Qed.

Lemma rstrip_line_end (s : string) (c : ascii) :
  isspace c = true -> ends_nonspace s = true ->
  rstrip (s +:+ String c EmptyString) = s.
Proof.
  intros Hc. induction s as [|x s IH]; [done |]. intros Hs.
  rewrite app_cons_str. destruct s as [|y s'].
  - simpl in *. rewrite Hc. apply negb_true_iff in Hs. by rewrite Hs.
  - change (ends_nonspace (String y s') = true) in Hs. specialize (IH Hs).
    change (rstrip (String x (String y s' +:+ String c EmptyString)))
      with (match rstrip (String y s' +:+ String c EmptyString) with
            | EmptyString =>
                if isspace x then EmptyString else String x EmptyString
            | r0 => String x r0
            end).
    by rewrite IH.
Qed.

Lemma strip_key_line (ip ix_serial : string) :
  is_token ip = true -> is_token ix_serial = true ->
  strip (key_line ip ix_serial) = ip +:+ " " +:+ ix_serial.
Proof.
  intros Hi Hs. unfold strip, key_line.
  rewrite lstrip_fix by (apply starts_nonspace_app; by apply token_starts).
  rewrite <- !app_assoc_str.
  rewrite (rstrip_line_end ((ip +:+ " ") +:+ ix_serial) "010" eq_refl).
  - by rewrite !app_assoc_str.
  - apply (ends_nonspace_app (ip +:+ " ") ix_serial). by apply token_ends.
Qed.

Lemma is_comment_key_line (ip ix_serial : string) :
  truthy ip = true -> is_comment (key_line ip ix_serial) = is_comment ip.
Proof. by destruct ip. Qed.

(** X13: writing and reading KEY.txt: a file with one line for every system,
    made of the address, a space and the serial, parses to the addresses and
    the serials in the order of the lines, when addresses and serials are
    tokens and no address starts with '#'; the systems are then read in that
    order, each under its own serial. *)
Theorem key_file_round_trip (pairs : list (string * string)) :
  Forall (fun p => is_token p.1 = true /\ is_token p.2 = true
                   /\ is_comment p.1 = false) pairs ->
  parse_input_file (map (fun p => key_line p.1 p.2) pairs) [] []
  = Ok (pairs.*1, pairs.*2)
  /\ forall requests_get,
       scan_systems requests_get (map (fun p => key_line p.1 p.2) pairs)
       = collect_systems requests_get pairs [].
Proof.
  intros Hall.
  enough (forall ips sers,
            parse_input_file (map (fun p => key_line p.1 p.2) pairs) ips sers
            = Ok (ips ++ pairs.*1, sers ++ pairs.*2)) as Hgen.
  { split; [apply (Hgen [] []) |]. intros requests_get.
    unfold scan_systems. rewrite (Hgen [] []), result_bind_ret.
    cbn [fst snd app]. by rewrite zip_fst_snd. }
  induction Hall as [|[ip ser] pairs (Hi & Hs & Hc) _ IH]; intros ips sers.
  - by rewrite !app_nil_r.
  - cbn [map fmap list_fmap fst snd parse_input_file] in *.
    rewrite is_comment_key_line
      by (unfold is_token in Hi; by apply andb_true_iff in Hi as [? _]).
    rewrite Hc, (strip_key_line ip ser Hi Hs), (py_split_two ip ser Hi Hs).
    cbn. rewrite IH, <- !app_assoc. done.
Qed.

Lemma key_file_round_trip_witness :
  parse_input_file
    [key_line "10.48.143.80" "A1-102049"; key_line "10.48.133.155" "A1-102050"]
    [] []
  = Ok (["10.48.143.80"; "10.48.133.155"], ["A1-102049"; "A1-102050"]).
Proof.
  refine (proj1 (key_file_round_trip
    [("10.48.143.80", "A1-102049"); ("10.48.133.155", "A1-102050")] _)).
  repeat constructor.
Defined.
Lemma assoc_dict_set_eq {V} (key : string) (v : V) (d : list (string * V)) :
  assoc key (dict_set key v d) = Some v.
Proof.
  induction d as [|[k x] d IH]; simpl.
  - by rewrite String.eqb_refl.
  - destruct (String.eqb k key) eqn:E; simpl; by rewrite E.
Qed.

Lemma assoc_dict_set_ne {V} (k key : string) (v : V) (d : list (string * V)) :
  k <> key -> assoc k (dict_set key v d) = assoc k d.
Proof.
  intros Hne. induction d as [|[k' x] d IH]; simpl.
  - apply String.eqb_neq in Hne. by rewrite String.eqb_sym, Hne.
  - destruct (String.eqb k' key) eqn:E; simpl.
    + apply String.eqb_eq in E as ->.
      assert (String.eqb key k = false) as ->; [| done].
      apply String.eqb_neq. congruence.
    + by rewrite IH.
Qed.

Lemma dict_set_keys {V} (key : string) (v : V) (d : list (string * V)) :
  (dict_set key v d).*1 = if decide (key ∈ d.*1) then d.*1 else d.*1 ++ [key].
Proof.
  induction d as [|[k x] d IH]; cbn [dict_set fmap list_fmap fst].
  - destruct (decide (key ∈ [])) as [H | _]; [| done].
    by apply elem_of_nil in H.
  - destruct (String.eqb k key) eqn:E; cbn [fmap list_fmap fst].
    + apply String.eqb_eq in E as ->.
      destruct (decide (key ∈ key :: d.*1)) as [_ | H]; [done |].
      destruct H. apply list_elem_of_here.
    + apply String.eqb_neq in E. rewrite IH.
      destruct (decide (key ∈ d.*1)) as [H | H];
        destruct (decide (key ∈ k :: d.*1)) as [H' | H']; try done.
      * destruct H'. by apply list_elem_of_further.
      * apply elem_of_cons in H' as [-> | H']; done.
Qed.

Lemma collect_systems_spec (requests_get : string -> result response)
  (pairs : list (string * string)) :
  forall acc systems : list (string * components),
    collect_systems requests_get pairs acc = Ok systems ->
    (NoDup acc.*1 -> NoDup systems.*1)
    /\ (forall serial,
          serial ∈ systems.*1 <-> serial ∈ acc.*1 \/ serial ∈ pairs.*2)
    /\ (forall serial,
          serial ∉ pairs.*2 -> assoc serial systems = assoc serial acc)
    /\ (forall before ip serial after,
          pairs = before ++ (ip, serial) :: after -> serial ∉ after.*2 ->
          exists c,
            parse_system_components requests_get ip = Ok c
            /\ assoc serial systems = Some c).
Proof.
  induction pairs as [|[ip0 s0] rest IH]; intros acc systems H.
  - injection H as <-. split_and!; try done.
    + intros serial. split; [by left |]. intros [H | H]; [done |].
      by apply elem_of_nil in H.
    + intros [|b before] ip serial after Heq; discriminate Heq.
  - cbn [collect_systems] in H. apply result_bind_ok in H as (c0 & Hc0 & H).
    apply IH in H as (Hnd & Hkeys & Hkeep & Hlast).
    assert (forall serial,
              serial ∈ (dict_set s0 c0 acc).*1
              <-> serial ∈ acc.*1 \/ serial = s0) as Hset.
    { intros serial. rewrite dict_set_keys.
      destruct (decide (s0 ∈ acc.*1)) as [Hin | Hin].
      - split; [by left |]. by intros [? | ->].
      - rewrite elem_of_app, list_elem_of_singleton. done. }
    split_and!.
    + intros Hacc. apply Hnd. rewrite dict_set_keys.
      destruct (decide (s0 ∈ acc.*1)) as [Hin | Hin]; [done |].
      apply NoDup_app. split_and!; [done | | apply NoDup_singleton].
      intros x Hx Hx'. apply list_elem_of_singleton in Hx' as ->. done.
    + intros serial. rewrite Hkeys, Hset. cbn [fmap list_fmap snd].
      rewrite elem_of_cons. tauto.
    + intros serial Hno. cbn [fmap list_fmap snd] in Hno.
      apply not_elem_of_cons in Hno as [Hne Hno].
      rewrite (Hkeep _ Hno). by apply assoc_dict_set_ne.
    + intros [|b before] ip serial after Heq Hno.
      * injection Heq as <- <- <-. exists c0. split; [done |].
        rewrite (Hkeep _ Hno). apply assoc_dict_set_eq.
      * injection Heq as _ ->. by eapply Hlast.
Qed.

(** X14: the dict of the systems has one entry for every serial of KEY.txt:
    a serial that is listed on several lines is stored once, with the bundle
    read for the last of its lines, so the bundles read for the earlier
    lines never reach the database. *)
Theorem duplicate_serial_last_wins
  (requests_get : string -> result response)
  (pairs : list (string * string)) (systems : list (string * components)) :
  collect_systems requests_get pairs [] = Ok systems ->
  NoDup systems.*1
  /\ (forall serial, serial ∈ systems.*1 <-> serial ∈ pairs.*2)
  /\ (forall before ip serial after,
        pairs = before ++ (ip, serial) :: after -> serial ∉ after.*2 ->
        exists c,
          parse_system_components requests_get ip = Ok c
          /\ assoc serial systems = Some c).
Proof.
  intros H. apply collect_systems_spec in H as (Hnd & Hkeys & _ & Hlast).
  split_and!.
  - apply Hnd. apply NoDup_nil_2.
  - intros serial. rewrite Hkeys. split; [| by right].
    intros [H | H]; [| done]. by apply elem_of_nil in H.
  - exact Hlast.
Qed.

Lemma duplicate_serial_last_wins_witness :
  exists systems,
    collect_systems world_error_status
      [("10.48.143.80", "A1-102049"); ("10.48.133.155", "A1-102049")] []
    = Ok systems
    /\ NoDup systems.*1.
Proof.
  exists [("A1-102049", empty_bundle)]. split; [reflexivity |].
  exact (proj1 (duplicate_serial_last_wins world_error_status
                  [("10.48.143.80", "A1-102049");
                   ("10.48.133.155", "A1-102049")]
                  [("A1-102049", empty_bundle)] eq_refl)).
Defined.

(** ** Lenovo_Redfish.py: lookups and fatal errors *)

Lemma fatal_after_statement {A} (code : option Z) (stmt : statement)
  (st : StdDatabase) :
  closed st = false ->
  (_ ← close false; (sys_exit code : dbm A)) (add_event (EvExecute stmt) st)
  = (Raise (SystemExit code), ended_at stmt st).
Proof.
  intros Hc. rewrite fatal_open by done. f_equal.
  unfold ended_at, add_event, set_closed, set_working. simpl.
  by rewrite <- !app_assoc.
Qed.

(** X15: a statement the server refuses ends the run with exit status 1: the
    connection is rolled back and closed, what the transaction had written
    is lost, and nothing is committed. On a connection that is closed
    already the rollback itself raises. *)
Theorem query_refused_aborts (stmt : statement) (st : StdDatabase) :
  (closed st = false -> db_error st (length (events st)) = true ->
   query stmt st = (Raise (SystemExit (Some 1)), ended_at stmt st))
  /\ (closed st = true ->
      query stmt st
      = (Raise PsycopgError, add_event (EvExecute stmt) st)).
Proof.
  split.
  - intros Hc He. unfold query. rewrite Hc, He. cbn [orb].
    by apply fatal_after_statement.
  - intros Hc. unfold query. rewrite Hc. cbn [orb].
    by rewrite fatal_closed.
Qed.

(** X16: the three lookups on a healthy connection, when a row is there:
    each returns the id of the first matching row and changes nothing but
    the record of the statements sent. The part type is looked up by its
    lowered name, the manufacturer and the system by the name as given. *)
Theorem lookups_read_only (st : StdDatabase) :
  healthy st ->
  (forall system_serial id ids,
     select_system system_serial (production_system (working st)) = id :: ids ->
     get_system_id system_serial st
     = (Ok id, add_event (EvExecute (SelectSystem system_serial)) st))
  /\ (forall manufacturer_name id ids,
        select_named manufacturer_name (production_manufacturer (working st))
        = id :: ids ->
        get_manufacturer_id manufacturer_name st
        = (Ok id,
           add_event (EvExecute (SelectManufacturer manufacturer_name)) st))
  /\ (forall part_type_name id ids,
        select_named (lower part_type_name) (production_type (working st))
        = id :: ids ->
        get_part_type_id part_type_name st
        = (Ok id,
           add_event (EvExecute (SelectType (lower part_type_name))) st)).
Proof.
  intros Hh. split_and!.
  - intros system_serial id ids Hsel. unfold get_system_id.
    rewrite dbm_bind_unfold, (query_healthy _ _ Hh).
    cbn [execute working add_event]. by rewrite Hsel.
  - intros manufacturer_name id ids Hsel. unfold get_manufacturer_id.
    rewrite dbm_bind_unfold, (query_healthy _ _ Hh).
    cbn [execute working add_event]. by rewrite Hsel.
  - intros part_type_name id ids Hsel. unfold get_part_type_id.
    rewrite dbm_bind_unfold, (query_healthy _ _ Hh).
    cbn [execute working add_event]. by rewrite Hsel.
Qed.

Lemma lookups_read_only_witness :
  get_system_id "A1-102049" sample_std
  = (Ok 7, add_event (EvExecute (SelectSystem "A1-102049")) sample_std)
  /\ get_part_type_id "CPU" sample_std
     = (Ok 10, add_event (EvExecute (SelectType "cpu")) sample_std).
Proof.
  destruct (lookups_read_only sample_std sample_std_healthy)
    as (Hsys & _ & Htype).
  split.
  - exact (Hsys "A1-102049" 7 [] eq_refl).
  - exact (Htype "CPU" 10 [] eq_refl).
Defined.

(** X17: the three lookups on a healthy connection, when no row is there:
    the select is sent, the connection is rolled back and closed, so that
    what the transaction had written is lost, and the run ends with
    [sys.exit()], which carries no exit status. *)
Theorem lookup_missing_exits (st : StdDatabase) :
  healthy st ->
  (forall system_serial,
     select_system system_serial (production_system (working st)) = [] ->
     get_system_id system_serial st
     = (Raise (SystemExit None), ended_at (SelectSystem system_serial) st))
  /\ (forall manufacturer_name,
        select_named manufacturer_name (production_manufacturer (working st))
        = [] ->
        get_manufacturer_id manufacturer_name st
        = (Raise (SystemExit None),
           ended_at (SelectManufacturer manufacturer_name) st))
  /\ (forall part_type_name,
        select_named (lower part_type_name) (production_type (working st))
        = [] ->
        get_part_type_id part_type_name st
        = (Raise (SystemExit None),
           ended_at (SelectType (lower part_type_name)) st)).
Proof.
  intros Hh. pose proof Hh as [Hc _]. split_and!.
  - intros system_serial Hsel. unfold get_system_id.
    rewrite dbm_bind_unfold, (query_healthy _ _ Hh).
    cbn [execute working add_event]. rewrite Hsel. cbn [take length Nat.eqb].
    by apply fatal_after_statement.
  - intros manufacturer_name Hsel. unfold get_manufacturer_id.
    rewrite dbm_bind_unfold, (query_healthy _ _ Hh).
    cbn [execute working add_event]. rewrite Hsel. cbn [take length Nat.eqb].
    by apply fatal_after_statement.
  - intros part_type_name Hsel. unfold get_part_type_id.
    rewrite dbm_bind_unfold, (query_healthy _ _ Hh).
    cbn [execute working add_event]. rewrite Hsel. cbn [length Nat.eqb].
    by apply fatal_after_statement.
Qed.

Lemma lookup_missing_exits_witness :
  get_system_id "A1-999999" sample_std
  = (Raise (SystemExit None), ended_at (SelectSystem "A1-999999") sample_std).
Proof.
  exact (proj1 (lookup_missing_exits sample_std sample_std_healthy)
           "A1-999999" eq_refl).
Defined.


(** ** Lenovo_Redfish.py: the batch as the class stands *)

(** X19: with the class as it stands, [update_std] never gets to a
    statement: the first reading of [std.rows_inserted] raises
    [AttributeError], for a batch with systems at the top of the first pass
    and for an empty batch after the loop, and the [with] statement rolls
    back and closes. Nothing is sent to the server, nothing is committed. *)
Theorem update_std_as_written (systems : list (string * components))
  (st : StdDatabase) :
  closed st = false ->
  let out := update_std rows_inserted_missing systems st in
  out.1 = Raise (AttributeError "rows_inserted")
  /\ events out.2 = events st ++ [EvRollback; EvClose]
  /\ committed out.2 = committed st
  /\ working out.2 = committed st
  /\ insert_log out.2 = insert_log st
  /\ closed out.2 = true.
Proof.
  intros Hc out. subst out.
  assert (update_std_body rows_inserted_missing systems st
          = (Raise (AttributeError "rows_inserted"), st)) as Hbody.
  { unfold update_std_body. destruct systems as [|[ix_serial c] rest]; [done |].
    rewrite dbm_bind_unfold. cbn [for_each_db]. rewrite dbm_bind_unfold.
    unfold update_system. by rewrite dbm_bind_unfold. }
  unfold update_std, with_std. rewrite Hbody.
  unfold close, rollback, connection_close. rewrite dbm_bind_unfold, Hc.
  cbn [fst snd events add_event set_closed set_working committed working
       insert_log closed].
  by rewrite <- app_assoc.
Qed.

Lemma update_std_as_written_witness :
  (update_std rows_inserted_missing [("A1-102049", sample_components)]
     sample_std).1
  = Raise (AttributeError "rows_inserted")
  /\ events
       (update_std rows_inserted_missing [("A1-102049", sample_components)]
          sample_std).2
     = [] ++ [EvRollback; EvClose].
Proof.
  destruct (update_std_as_written [("A1-102049", sample_components)]
              sample_std eq_refl) as (H1 & H2 & _).
  split; [exact H1 | exact H2].
Defined.

(** X20: insert, then close. After [insert_part] wrote a new row, closing
    with [commit=True] makes the row permanent; closing the default way
    drops it, yet its id stays in the insert log: after a rollback the log
    lists rows that do not exist. *)
Theorem insert_then_close (st : StdDatabase) (system_id : Z)
  (part_model part_serial : string) (type_id manufacturer_id : Z) :
  healthy st ->
  matching_parts system_id part_model part_serial (working st) = [] ->
  let st1 :=
    (insert_part system_id (PStr part_model) (PStr part_serial) type_id
       manufacturer_id st).2 in
  matching_parts system_id part_model part_serial
    (committed (close true st1).2)
  = [new_part_row (part_seq st) system_id part_model part_serial type_id
       manufacturer_id]
  /\ committed (close false st1).2 = committed st
  /\ working (close false st1).2 = committed st
  /\ logged "production_part" (close false st1).2
     = logged "production_part" st ++ [part_seq st].
Proof.
  intros Hh Hm st1. subst st1.
  rewrite (insert_part_new _ _ _ _ _ _ Hh Hm). cbn [snd].
  destruct Hh as [Hc _].
  unfold close, commit, rollback, connection_close.
  rewrite !dbm_bind_unfold. cbn [closed after_insert_part]. rewrite Hc.
  cbn [snd committed working add_event set_closed set_working set_committed
       after_insert_part].
  split_and!; try done.
  - pose proof (matching_parts_after_insert st system_id part_model
                  part_serial type_id manufacturer_id) as Hafter.
    rewrite Hm in Hafter. exact Hafter.
  - unfold logged at 1.
    cbn [insert_log add_event set_closed set_working after_insert_part].
    by rewrite lookup_insert_eq.
Qed.

Lemma insert_then_close_witness :
  committed
    (close false
       (insert_part 7 (PStr "M321R4GA3BB6-CQKET") (PStr "00C1A2B3") 11 4
          sample_std).2).2
  = sample_tables
  /\ logged "production_part"
       (close false
          (insert_part 7 (PStr "M321R4GA3BB6-CQKET") (PStr "00C1A2B3") 11 4
             sample_std).2).2
     = [] ++ [101].
Proof.
  destruct (insert_then_close sample_std 7 "M321R4GA3BB6-CQKET" "00C1A2B3"
              11 4 sample_std_healthy eq_refl) as (_ & H1 & _ & H2).
  split; [exact H1 | exact H2].
Defined.

(** ** Lenovo_Redfish.py: the insert log of a batch *)

Lemma more_rows_nil (t : tables) : more_rows t [] [] = t.
Proof. destruct t. unfold more_rows. simpl. by rewrite !app_nil_r. Qed.

Lemma more_rows_more (t : tables) (p1 p2 : list part_row)
  (m1 m2 : list mac_row) :
  more_rows (more_rows t p1 m1) p2 m2 = more_rows t (p1 ++ p2) (m1 ++ m2).
Proof. unfold more_rows. simpl. by rewrite !app_assoc. Qed.

Lemma logs_new_rows_same (st st' : StdDatabase) :
  working st' = working st -> insert_log st' = insert_log st ->
  logs_new_rows st st'.
Proof.
  intros Hw Hl. exists [], []. unfold logged.
  rewrite Hw, Hl, more_rows_nil, !app_nil_r. done.
Qed.

Lemma logs_new_rows_trans (st0 st1 st2 : StdDatabase) :
  logs_new_rows st0 st1 -> logs_new_rows st1 st2 -> logs_new_rows st0 st2.
Proof.
  intros (p1 & m1 & W1 & P1 & M1) (p2 & m2 & W2 & P2 & M2).
  exists (p1 ++ p2), (m1 ++ m2).
  rewrite W2, W1, more_rows_more, P2, P1, M2, M1, !map_app, !app_assoc.
  done.
Qed.

Lemma tracked_ret {A} (a : A) : tracked (mret a : dbm A).
Proof. intros st a' st' [= _ <-]. by apply logs_new_rows_same. Qed.

Lemma tracked_lift {A} (r : result A) : tracked (lift r).
Proof. intros st a st' [= _ <-]. by apply logs_new_rows_same. Qed.

Lemma tracked_bind {A B} (m : dbm A) (k : A -> dbm B) :
  tracked m -> (forall a, tracked (k a)) -> tracked (m ≫= k).
Proof.
  intros Hm Hk st b st' H.
  apply dbm_bind_ok in H as (a & st1 & H1 & H2).
  eapply logs_new_rows_trans; [by eapply Hm | by eapply Hk].
Qed.

Lemma tracked_if {A} (c : bool) (m1 m2 : dbm A) :
  tracked m1 -> tracked m2 -> tracked (if c then m1 else m2).
Proof. by destruct c. Qed.

Lemma tracked_for_each_db {A} (f : A -> dbm unit) (l : list A) :
  (forall x, tracked (f x)) -> tracked (for_each_db f l).
Proof.
  intros Hf. induction l as [|x l IH]; simpl.
  - apply tracked_ret.
  - apply tracked_bind; [apply Hf | intros _; apply IH].
Qed.

Lemma tracked_fatal {A} (code : option Z) :
  tracked (_ ← close false; (sys_exit code : dbm A)).
Proof. intros st a st' H. by apply fatal_not_ok in H. Qed.

(** A lookup that returns has written nothing. *)
Lemma tracked_get_system_id (system_serial : string) :
  tracked (get_system_id system_serial).
Proof.
  intros st id st' H. unfold get_system_id in H.
  apply dbm_bind_ok in H as (rows & st1 & Hq & H).
  apply query_ok_inv in Hq. cbn [execute] in Hq. injection Hq as <- <-.
  destruct (length _ =? 0)%nat; [by apply fatal_not_ok in H |].
  apply lift_ok_inv in H as [_ ->]. by apply logs_new_rows_same.
Qed.

Lemma tracked_get_manufacturer_id (manufacturer_name : string) :
  tracked (get_manufacturer_id manufacturer_name).
Proof.
  intros st id st' H. unfold get_manufacturer_id in H.
  apply dbm_bind_ok in H as (rows & st1 & Hq & H).
  apply query_ok_inv in Hq. cbn [execute] in Hq. injection Hq as <- <-.
  destruct (length _ =? 0)%nat; [by apply fatal_not_ok in H |].
  apply lift_ok_inv in H as [_ ->]. by apply logs_new_rows_same.
Qed.

Lemma tracked_get_part_type_id (part_type_name : string) :
  tracked (get_part_type_id part_type_name).
Proof.
  intros st id st' H. unfold get_part_type_id in H.
  apply dbm_bind_ok in H as (rows & st1 & Hq & H).
  apply query_ok_inv in Hq. cbn [execute] in Hq. injection Hq as <- <-.
  destruct (length _ =? 0)%nat; [by apply fatal_not_ok in H |].
  apply lift_ok_inv in H as [_ ->]. by apply logs_new_rows_same.
Qed.

(** [insert_part] that returns has written nothing, or one row whose id it
    logged. *)
Lemma tracked_insert_part (system_id : Z) (vm vs : pyval)
  (type_id manufacturer_id : Z) :
  tracked (insert_part system_id vm vs type_id manufacturer_id).
Proof.
  intros st id st' H. unfold insert_part in H.
  apply dbm_bind_ok in H as (rows & st1 & Hq & H).
  apply query_ok_inv in Hq. cbn [execute] in Hq.
  destruct (text_of vm) as [m|] eqn:Em; [| done].
  destruct (text_of vs) as [s|] eqn:Es; [| done].
  injection Hq as <- <-.
  apply dbm_bind_ok in H as (rows2 & st2 & H & Hidx).
  apply lift_ok_inv in Hidx as [_ ->].
  destruct (length _ =? 0)%nat.
  - apply dbm_bind_ok in H as (r3 & st3 & Hq2 & H).
    apply query_ok_inv in Hq2. cbn [execute] in Hq2.
    rewrite Em, Es in Hq2. injection Hq2 as <- <-.
    apply dbm_bind_ok in H as (id3 & st4 & Hl & H).
    apply lift_ok_inv in Hl as [[= <-] ->].
    apply dbm_bind_ok in H as ([] & st5 & Hlog & H).
    apply mret_ok_inv in H as [_ ->].
    rewrite log_insert_logged in Hlog. injection Hlog as <-.
    eexists [_], []. unfold logged.
    cbn [working insert_log set_insert_log bump_part_seq set_working
         add_event part_seq].
    rewrite lookup_insert_eq, lookup_insert_ne by done.
    split; [unfold more_rows, add_part; by rewrite app_nil_r |].
    split; [done | by rewrite app_nil_r].
  - apply mret_ok_inv in H as [_ ->]. by apply logs_new_rows_same.
Qed.

Lemma tracked_insert_mac (system_id : Z) (mac_name mac_address : string) :
  tracked (insert_mac system_id mac_name mac_address).
Proof.
  intros st id st' H. unfold insert_mac in H.
  destruct (17 <? String.length mac_address)%nat.
  { by apply fatal_not_ok in H. }
  apply dbm_bind_ok in H as (rows & st1 & Hq & H).
  apply query_ok_inv in Hq. cbn [execute] in Hq. injection Hq as <- <-.
  apply dbm_bind_ok in H as (rows2 & st2 & H & Hidx).
  apply lift_ok_inv in Hidx as [_ ->].
  destruct (length _ =? 0)%nat.
  - apply dbm_bind_ok in H as (r3 & st3 & Hq2 & H).
    apply query_ok_inv in Hq2. cbn [execute] in Hq2.
    injection Hq2 as <- <-.
    apply dbm_bind_ok in H as (id3 & st4 & Hl & H).
    apply lift_ok_inv in Hl as [[= <-] ->].
    apply dbm_bind_ok in H as ([] & st5 & Hlog & H).
    apply mret_ok_inv in H as [_ ->].
    rewrite log_insert_logged in Hlog. injection Hlog as <-.
    eexists [], [_]. unfold logged.
    cbn [working insert_log set_insert_log bump_mac_seq set_working
         add_event mac_seq].
    rewrite lookup_insert_eq, lookup_insert_ne by done.
    split; [unfold more_rows, add_mac; by rewrite app_nil_r |].
    split; [by rewrite app_nil_r | done].
  - apply mret_ok_inv in H as [_ ->]. by apply logs_new_rows_same.
Qed.

Create HintDb tracked.

#[local] Hint Resolve tracked_ret tracked_lift tracked_fatal
  tracked_get_system_id tracked_get_manufacturer_id tracked_get_part_type_id
  tracked_insert_part tracked_insert_mac : tracked.

Ltac tracked_steps :=
  repeat first
    [ apply tracked_fatal
    | apply tracked_get_system_id
    | apply tracked_get_manufacturer_id
    | apply tracked_get_part_type_id
    | apply tracked_insert_part
    | apply tracked_insert_mac
    | apply tracked_bind; [| intros ?]
    | apply tracked_if
    | apply tracked_for_each_db; intros ? ];
  eauto with tracked.

Lemma tracked_read_rows_inserted (rows_inserted : StdDatabase -> result Z) :
  tracked (read_rows_inserted rows_inserted).
Proof. intros st a st' [= _ <-]. by apply logs_new_rows_same. Qed.

Lemma tracked_update_system (rows_inserted : StdDatabase -> result Z)
  (entry : string * components) :
  tracked (update_system rows_inserted entry).
Proof.
  destruct entry as [ix_serial c].
  unfold update_system, insert_typed, insert_all, insert_password,
    insert_mac_info, insert_component.
  tracked_steps; apply tracked_read_rows_inserted.
Qed.

(** What a call of [update_std] that returns has done: the loop over the
    systems returned, its writes were committed, and the log is the one the
    loop left. *)
Lemma update_std_returns (rows_inserted : StdDatabase -> result Z)
  (systems : list (string * components)) (st out : StdDatabase) :
  update_std rows_inserted systems st = (Ok tt, out) ->
  exists st1,
    for_each_db (update_system rows_inserted) systems st = (Ok tt, st1)
    /\ committed out = working st1
    /\ insert_log out = insert_log st1.
Proof.
  unfold update_std, with_std, update_std_body. rewrite dbm_bind_unfold.
  destruct (for_each_db (update_system rows_inserted) systems st)
    as [[[]|e] st1].
  - rewrite dbm_bind_unfold. unfold read_rows_inserted.
    destruct (rows_inserted st1) as [n|e].
    + unfold commit, close, rollback, connection_close.
      destruct (closed st1) eqn:Hc.
      * rewrite dbm_bind_unfold. cbn [closed]. by rewrite Hc.
      * rewrite dbm_bind_unfold. cbn [closed add_event set_committed].
        rewrite Hc. intros [= <-]. by exists st1.
    + by destruct (close false st1) as [[?|?] ?].
  - by destruct (close false st1) as [[?|?] ?].
Qed.


(** ** Lenovo_Redfish.py: running a batch again *)

Lemma same_store_refl (st : StdDatabase) : same_store st st.
Proof. by split_and!. Qed.

Lemma same_store_trans (st0 st1 st2 : StdDatabase) :
  same_store st0 st1 -> same_store st1 st2 -> same_store st0 st2.
Proof.
  intros (A1 & A2 & A3 & A4 & A5) (B1 & B2 & B3 & B4 & B5).
  split_and!; congruence.
Qed.

Lemma same_store_healthy (st st' : StdDatabase) :
  same_store st st' -> healthy st -> healthy st'.
Proof.
  intros (_ & _ & _ & Hc & He) [H1 H2]. split; [congruence |].
  intros n. by rewrite He.
Qed.

Lemma same_store_add_event (ev : event) (st : StdDatabase) :
  same_store st (add_event ev st).
Proof. by split_and!. Qed.

Lemma replays_loosen {A} (m : dbm A) : replays m -> replays_loosely m.
Proof.
  intros Hm st a st' st2 H Hh He.
  destruct (Hm _ _ _ _ H Hh He) as (st2' & ? & ?). by exists a, st2'.
Qed.

Lemma replays_ret {A} (a : A) : replays (mret a : dbm A).
Proof.
  intros st a' st' st2 [= <- _] _ _. exists st2.
  split; [done | apply same_store_refl].
Qed.

Lemma replays_lift {A} (r : result A) : replays (lift r).
Proof.
  intros st a st' st2 H _ _. apply lift_ok_inv in H as [-> _].
  exists st2. split; [done | apply same_store_refl].
Qed.

Lemma replays_fatal {A} (code : option Z) :
  replays (_ ← close false; (sys_exit code : dbm A)).
Proof. intros st a st' st2 H. by apply fatal_not_ok in H. Qed.

Lemma replays_if {A} (c : bool) (m1 m2 : dbm A) :
  replays m1 -> replays m2 -> replays (if c then m1 else m2).
Proof. by destruct c. Qed.

Lemma extends_same_store (t : tables) (st st' : StdDatabase) :
  same_store st st' -> extends t (working st) -> extends t (working st').
Proof. intros (-> & _) H. exact H. Qed.

Lemma replays_bind_loose {A B} (m : dbm A) (k : dbm B) :
  replays_loosely m -> replays k -> grows k -> replays (m ≫= fun _ => k).
Proof.
  intros Hm Hk Hg st b st' st2 H Hh He.
  apply dbm_bind_ok in H as (a & st1 & H1 & H2).
  pose proof (Hg _ _ _ H2) as E12.
  destruct (Hm _ _ _ _ H1 Hh (extends_trans _ _ _ E12 He))
    as (a2 & st2a & Hm2 & S2a).
  destruct (Hk _ _ _ st2a H2 (same_store_healthy _ _ S2a Hh)
              (extends_same_store _ _ _ S2a He)) as (st2' & Hk2 & S2').
  exists st2'. rewrite dbm_bind_unfold, Hm2.
  split; [done | by eapply same_store_trans].
Qed.

Lemma replays_bind {A B} (m : dbm A) (k : A -> dbm B) :
  replays m -> (forall a, replays (k a)) -> (forall a, grows (k a)) ->
  replays (m ≫= k).
Proof.
  intros Hm Hk Hg st b st' st2 H Hh He.
  apply dbm_bind_ok in H as (a & st1 & H1 & H2).
  pose proof (Hg _ _ _ _ H2) as E12.
  destruct (Hm _ _ _ _ H1 Hh (extends_trans _ _ _ E12 He))
    as (st2a & Hm2 & S2a).
  destruct (Hk _ _ _ _ st2a H2 (same_store_healthy _ _ S2a Hh)
              (extends_same_store _ _ _ S2a He)) as (st2' & Hk2 & S2').
  exists st2'. rewrite dbm_bind_unfold, Hm2.
  split; [done | by eapply same_store_trans].
Qed.

Lemma replays_for_each_db {A} (f : A -> dbm unit) (l : list A) :
  (forall x, replays (f x)) -> (forall x, grows (f x)) ->
  replays (for_each_db f l).
Proof.
  intros Hf Hg. induction l as [|x l IH]; cbn [for_each_db].
  - apply replays_ret.
  - apply replays_bind; [apply Hf | intros _; apply IH |].
    intros _. by apply grows_for_each_db.
Qed.

(** The lookups read tables a batch never writes. *)
Lemma replays_get_system_id (system_serial : string) :
  replays (get_system_id system_serial).
Proof.
  intros st id st' st2 H Hh He. exists (add_event
    (EvExecute (SelectSystem system_serial)) st2).
  split; [| apply same_store_add_event].
  unfold get_system_id in *.
  apply dbm_bind_ok in H as (rows & st1 & Hq & H).
  apply query_ok_inv in Hq. cbn [execute] in Hq. injection Hq as <- <-.
  rewrite dbm_bind_unfold, (query_healthy _ _ Hh).
  cbn [execute working add_event] in *.
  destruct (length _ =? 0)%nat eqn:Hlen; [by apply fatal_not_ok in H |].
  apply lift_ok_inv in H as [H ->]. cbn [working add_event] in He.
  destruct He as (-> & _). rewrite Hlen. unfold lift. by rewrite H.
Qed.

Lemma replays_get_manufacturer_id (manufacturer_name : string) :
  replays (get_manufacturer_id manufacturer_name).
Proof.
  intros st id st' st2 H Hh He. exists (add_event
    (EvExecute (SelectManufacturer manufacturer_name)) st2).
  split; [| apply same_store_add_event].
  unfold get_manufacturer_id in *.
  apply dbm_bind_ok in H as (rows & st1 & Hq & H).
  apply query_ok_inv in Hq. cbn [execute] in Hq. injection Hq as <- <-.
  rewrite dbm_bind_unfold, (query_healthy _ _ Hh).
  cbn [execute working add_event] in *.
  destruct (length _ =? 0)%nat eqn:Hlen; [by apply fatal_not_ok in H |].
  apply lift_ok_inv in H as [H ->]. cbn [working add_event] in He.
  destruct He as (_ & -> & _). rewrite Hlen. unfold lift. by rewrite H.
Qed.

Lemma replays_get_part_type_id (part_type_name : string) :
  replays (get_part_type_id part_type_name).
Proof.
  intros st id st' st2 H Hh He. exists (add_event
    (EvExecute (SelectType (lower part_type_name))) st2).
  split; [| apply same_store_add_event].
  unfold get_part_type_id in *.
  apply dbm_bind_ok in H as (rows & st1 & Hq & H).
  apply query_ok_inv in Hq. cbn [execute] in Hq. injection Hq as <- <-.
  rewrite dbm_bind_unfold, (query_healthy _ _ Hh).
  cbn [execute working add_event] in *.
  destruct (length _ =? 0)%nat eqn:Hlen; [by apply fatal_not_ok in H |].
  apply lift_ok_inv in H as [H ->]. cbn [working add_event] in He.
  destruct He as (_ & _ & -> & _). rewrite Hlen. unfold lift. by rewrite H.
Qed.

(** [insert_part] and [insert_mac] find the row the first call left. *)
Lemma replays_insert_part (system_id : Z) (vm vs : pyval)
  (type_id manufacturer_id : Z) :
  replays_loosely (insert_part system_id vm vs type_id manufacturer_id).
Proof.
  intros st id st' st2 H Hh He.
  apply insert_part_ok in H as (m & s & -> & -> & Hrow).
  apply (matching_parts_extends _ _ _ _ _ He) in Hrow.
  destruct (matching_parts system_id m s (working st2)) as [|row rows] eqn:Hm;
    [done |].
  rewrite (insert_part_found _ _ _ _ _ _ _ _ Hh Hm).
  eexists _, _. split; [done | apply same_store_add_event].
Qed.

Lemma replays_insert_mac (system_id : Z) (mac_name mac_address : string) :
  replays_loosely (insert_mac system_id mac_name mac_address).
Proof.
  intros st id st' st2 H Hh He.
  apply insert_mac_ok in H as (Hlen & Hrow).
  apply (matching_macs_extends _ _ _ _ He) in Hrow.
  destruct (matching_macs system_id mac_name (working st2))
    as [|row rows] eqn:Hm; [done |].
  rewrite (insert_mac_found _ _ _ _ _ _ Hh Hlen Hm).
  eexists _, _. split; [done | apply same_store_add_event].
Qed.

Lemma replays_insert_component (system_id part_type_id : Z)
  (part : part_info) :
  replays (insert_component system_id part_type_id part).
Proof.
  unfold insert_component.
  apply replays_bind; [apply replays_lift | intros key |];
    [| intros ?; unfold get_manufacturer_id, insert_part; grows_steps].
  apply replays_bind; [apply replays_lift | intros mf |];
    [| intros ?; unfold get_manufacturer_id, insert_part; grows_steps].
  apply replays_bind; [apply replays_get_manufacturer_id | intros mid |];
    [| intros ?; unfold insert_part; grows_steps].
  apply replays_bind_loose;
    [apply replays_insert_part | apply replays_ret | apply grows_ret].
Qed.

Lemma replays_insert_typed (type_key : string) (system_id : Z)
  (part : part_info) :
  replays (insert_typed type_key system_id part).
Proof.
  unfold insert_typed.
  apply replays_bind; [apply replays_lift | intros pt |].
  - apply replays_bind; [apply replays_get_part_type_id | intros ptid |].
    + apply replays_insert_component.
    + intros ?. apply grows_insert_component.
  - intros ?. apply grows_bind; [unfold get_part_type_id; grows_steps |].
    intros ?. apply grows_insert_component.
Qed.

Lemma replays_insert_all (type_key : string) (system_id : Z)
  (parts : list part_info) :
  replays (insert_all type_key system_id parts).
Proof.
  unfold insert_all.
  assert (forall ptid,
            grows (for_each_db (insert_component system_id ptid) parts))
    as Hg.
  { intros ptid. apply grows_for_each_db. intros ?.
    apply grows_insert_component. }
  apply replays_bind; [apply replays_lift | intros pt |].
  - apply replays_bind; [apply replays_get_part_type_id | intros ptid |].
    + apply replays_for_each_db; intros ?;
        [apply replays_insert_component | apply grows_insert_component].
    + exact Hg.
  - intros ?. apply grows_bind; [unfold get_part_type_id; grows_steps |].
    exact Hg.
Qed.

Lemma replays_insert_password (system_id : Z) :
  replays (insert_password system_id).
Proof.
  unfold insert_password.
  apply replays_bind; [apply replays_lift | intros pt |];
    [| intros ?; unfold get_part_type_id, get_manufacturer_id, insert_part;
       grows_steps].
  apply replays_bind; [apply replays_get_part_type_id | intros ptid |];
    [| intros ?; unfold get_manufacturer_id, insert_part; grows_steps].
  apply replays_bind; [apply replays_lift | intros mf |];
    [| intros ?; unfold get_manufacturer_id, insert_part; grows_steps].
  apply replays_bind; [apply replays_get_manufacturer_id | intros mid |];
    [| intros ?; unfold insert_part; grows_steps].
  apply replays_bind_loose;
    [apply replays_insert_part | apply replays_ret | apply grows_ret].
Qed.

Lemma replays_insert_mac_info (system_id : Z) (m : mac_info) :
  replays (insert_mac_info system_id m).
Proof.
  unfold insert_mac_info.
  apply replays_bind; [apply replays_lift | intros address |];
    [| intros ?; unfold insert_mac; grows_steps].
  apply replays_bind_loose;
    [apply replays_insert_mac | apply replays_ret | apply grows_ret].
Qed.

Section Rerun.

Variable rows_inserted : StdDatabase -> result Z.
Hypothesis rows_inserted_reads : forall st, exists n, rows_inserted st = Ok n.

Lemma replays_read_rows_inserted :
  replays_loosely (read_rows_inserted rows_inserted).
Proof.
  intros st a st' st2 _ _ _. destruct (rows_inserted_reads st2) as [n Hn].
  exists n, st2. unfold read_rows_inserted. rewrite Hn.
  split; [done | apply same_store_refl].
Qed.

Lemma replays_update_system (entry : string * components) :
  replays (update_system rows_inserted entry).
Proof.
  destruct entry as [ix_serial c]. unfold update_system.
  apply replays_bind_loose; [apply replays_read_rows_inserted | |];
    [| grows_steps; apply grows_read_rows_inserted].
  apply replays_bind; [apply replays_get_system_id | intros system_id |];
    [| intros ?; grows_steps; apply grows_read_rows_inserted].
  apply replays_bind; [apply replays_insert_typed | intros _ |];
    [| intros ?; grows_steps; apply grows_read_rows_inserted].
  apply replays_bind; [| intros _ |];
    [apply replays_for_each_db; intros ?;
       [apply replays_insert_typed | apply grows_insert_typed]
    | | intros ?; grows_steps; apply grows_read_rows_inserted].
  apply replays_bind; [| intros _ |];
    [apply replays_for_each_db; intros ?;
       [apply replays_insert_typed | apply grows_insert_typed]
    | | intros ?; grows_steps; apply grows_read_rows_inserted].
  apply replays_bind; [apply replays_insert_all | intros _ |];
    [| intros ?; grows_steps; apply grows_read_rows_inserted].
  apply replays_bind; [apply replays_insert_all | intros _ |];
    [| intros ?; grows_steps; apply grows_read_rows_inserted].
  apply replays_bind; [apply replays_insert_all | intros _ |];
    [| intros ?; grows_steps; apply grows_read_rows_inserted].
  apply replays_bind; [apply replays_insert_password | intros _ |];
    [| intros ?; grows_steps; apply grows_read_rows_inserted].
  apply replays_bind; [| intros _ |];
    [apply replays_for_each_db; intros ?;
       [apply replays_insert_mac_info | apply grows_insert_mac_info]
    | | intros ?; grows_steps; apply grows_read_rows_inserted].
  apply replays_bind_loose;
    [apply replays_read_rows_inserted | apply replays_ret | apply grows_ret].
Qed.

(** What [update_std] does once the loop over the systems returned on an
    open connection. *)
Lemma update_std_after_loop (systems : list (string * components))
  (st st1 : StdDatabase) :
  for_each_db (update_system rows_inserted) systems st = (Ok tt, st1) ->
  closed st1 = false ->
  exists out,
    update_std rows_inserted systems st = (Ok tt, out)
    /\ committed out = working st1 /\ insert_log out = insert_log st1.
Proof.
  intros Hloop Hc. destruct (rows_inserted_reads st1) as [n Hn].
  unfold update_std, with_std, update_std_body.
  rewrite dbm_bind_unfold, Hloop, dbm_bind_unfold.
  unfold read_rows_inserted. rewrite Hn.
  unfold commit, close, rollback, connection_close. rewrite Hc.
  rewrite dbm_bind_unfold. cbn [closed add_event set_committed]. rewrite Hc.
  by eexists.
Qed.

End Rerun.



(** ** Lenovo_Redfish.py: the [with] statement and a batch that stops *)

(** X23: the [with] statement leaves the connection closed, whatever its
    body did and however it ended; [__exit__] commits nothing of its own,
    and the statement returns a value only if the body returned it. *)
Theorem with_std_always_closes {A} (body : dbm A) (st : StdDatabase) :
  closed (with_std body st).2 = true
  /\ no_commit_since (body st).2 (with_std body st).2
  /\ forall a, (with_std body st).1 = Ok a -> (body st).1 = Ok a.
Proof.
  unfold with_std. destruct (body st) as [r st1]. cbn [fst snd].
  pose proof (quiet_close st1) as Hq.
  unfold close, rollback, connection_close in *.
  rewrite dbm_bind_unfold in *.
  destruct (closed st1) eqn:Hc; cbn [fst snd] in *.
  - split_and!; [done | done | by intros a H].
  - by split_and!.
Qed.

Lemma get_system_id_missing (system_serial : string) (st : StdDatabase) :
  healthy st ->
  select_system system_serial (production_system (working st)) = [] ->
  get_system_id system_serial st
  = (Raise (SystemExit None), ended_at (SelectSystem system_serial) st).
Proof.
  intros Hh Hsel. pose proof Hh as [Hc _]. unfold get_system_id.
  rewrite dbm_bind_unfold, (query_healthy _ _ Hh).
  cbn [execute working add_event]. rewrite Hsel. cbn [take length Nat.eqb].
  by apply fatal_after_statement.
Qed.





(** ** Lenovo_Redfish.py: the address of a MAC row *)

Lemma upper_char_no_lower (c : ascii) :
  let n := nat_of_ascii (upper_char c) in
  ((97 <=? n) && (n <=? 122))%nat = false.
Proof. by destruct c as [[] [] [] [] [] [] [] []]. Qed.

Lemma upper_char_idem (c : ascii) : upper_char (upper_char c) = upper_char c.
Proof. by destruct c as [[] [] [] [] [] [] [] []]. Qed.


